(** * typescript-eslint-plugin: diagnostic overlay, fix synthesis and runner

    A shallow embedding of [src/plugin.ts], [src/runner/failures.ts] and
    [src/runner/index.ts], with the properties of the design document proved
    (or refuted) on it.

    JavaScript numbers that hold offsets, columns and codes are integers and
    are modelled by [Z]; 1-based line numbers index the line table and are
    modelled by [nat].  A value that may be [undefined] or [null] is an
    [option].  A call that may throw returns a [Completion]. *)

From Stdlib Require Import ZArith Lia Ascii String Sorting.Sorted.
From stdpp Require Import base option strings list gmap pretty sorting.

Local Open Scope Z_scope.

(** ** JavaScript completions *)

Module Js.

(** What a [throw] carries.  The overlay reads [message], [stack] and
    [toString()] of caught values, so these are what is kept. *)
Inductive Thrown :=
| ErrorObject (name message stack : string)
    (* an instance of Error *)
| OtherValue (shown : string) (message : option string)
    (* any other value that is not null or undefined: what its [toString()]
       returns, and its [message] when that is a string; it has no [stack] *)
| Nullish.
    (* [null] or [undefined] *)

Inductive Completion (A : Type) :=
| Normal (a : A)
| Throw (e : Thrown).
Arguments Normal {A} a.
Arguments Throw {A} e.

Definition bind {A B} (c : Completion A) (k : A -> Completion B) : Completion B :=
  match c with
  | Normal a => k a
  | Throw e => Throw e
  end.

(** Reading a property of [undefined]. *)
Definition typeError (what : string) : Thrown :=
  ErrorObject "TypeError" ("Cannot read property '" +:+ what +:+ "' of undefined") "".

(** [e.toString()] for a caught value; [None] when the call itself throws,
    the value being null or undefined.  An Error shows as [name: message],
    or as the one of the two that is not empty. *)
Definition toString (e : Thrown) : option string :=
  match e with
  | ErrorObject name message _ =>
      Some (if String.eqb name "" then message
            else if String.eqb message "" then name
            else name +:+ ": " +:+ message)
  | OtherValue shown _ => Some shown
  | Nullish => None
  end.

End Js.

Import Js.

#[global] Instance completion_bind : MBind Completion :=
  fun A B k c => Js.bind c k.

(** ** src/runner/failures.ts *)

Module Failures.

(** [eslint.Rule.Fix]: a replacement of the half-open range
    [fst range, snd range) by [text]. *)
Record RuleFix := { range : Z * Z; text : string }.

(** The value found in [LintMessage.fix] at run time: the declared type is a
    single [Rule.Fix], and the code also tests [Array.isArray(fix)]. *)
Inductive FixValue :=
| SingleFix (r : RuleFix)
| FixArray (rs : list RuleFix).

(** [eslint.Linter.LintMessage], the fields the plugin reads. *)
Record LintMessage := {
  ruleId : option string;
  message : string;
  severity : Z;
  line : option nat;
  column : option Z;
  endLine : option nat;
  endColumn : option Z;
  fix_ : option FixValue
}.

(** One entry of [LintReport.results]. *)
Record LintResult := { filePath : string; messages : list LintMessage }.

(** [eslint.CLIEngine.LintReport]. *)
Record LintReport := {
  errorCount : Z;
  warningCount : Z;
  results : list LintResult;
  fixableErrorCount : Z;
  fixableWarningCount : Z;
  usedDeprecatedRules : list string
}.

(** [filterProblemsForFile(filePath, report)].  The memo table
    [normalizedFiles] caches [normalize(fileName)] and does not change the
    result; an empty [filePath] of a result is falsy and skipped. *)
Definition filterProblemsForFile (normalize : string -> string)
    (file : string) (report : LintReport) : list LintMessage :=
  let normalizedPath := normalize file in
  foldl (fun msgs result =>
           let fileName := filePath result in
           if String.eqb fileName "" then msgs
           else if String.eqb (normalize fileName) normalizedPath
                then msgs ++ messages result
                else msgs)
        [] (results report).

Definition getReplacements (fixValue : option FixValue) : list RuleFix :=
  match fixValue with
  | None => []
  | Some (FixArray rs) => rs
  | Some (SingleFix r) => [r]
  end.

(** [getReplacements(failure.fix)[at]]; [None] is [undefined]. *)
Definition getReplacement (failure : LintMessage) (at_ : nat) : option RuleFix :=
  getReplacements (fix_ failure) !! at_.

(** The number the comparator of [sortFailures] reads from a failure:
    [getReplacement(a, 0).range[0]].  Reading [range] of [undefined] throws. *)
Definition firstStart (failure : LintMessage) : Completion Z :=
  match getReplacement failure 0 with
  | Some r => Normal (fst (range r))
  | None => Throw (typeError "range")
  end.

(** Stable insertion of a keyed failure into a list sorted by key: it goes
    before the first entry whose key is not smaller. *)
Fixpoint insertByStart (x : Z * LintMessage) (l : list (Z * LintMessage))
    : list (Z * LintMessage) :=
  match l with
  | [] => [x]
  | y :: l' => if fst x <=? fst y then x :: y :: l' else y :: insertByStart x l'
  end.

Definition sortByStart (l : list (Z * LintMessage)) : list (Z * LintMessage) :=
  foldr insertByStart [] l.

(** The keys the comparator needs, failing as soon as one is missing. *)
Fixpoint keyed (failures : list LintMessage) : Completion (list (Z * LintMessage)) :=
  match failures with
  | [] => Normal []
  | f :: rest =>
      k ← firstStart f;
      ks ← keyed rest;
      Normal ((k, f) :: ks)
  end.

(** [failures.sort((a, b) => start(a) - start(b))].  [Array.prototype.sort]
    is stable and calls the comparator only when there are two elements to
    compare; with two or more, every element is compared at least once, so a
    failure without a replacement makes the comparator throw. *)
Definition sortFailures (failures : list LintMessage) : Completion (list LintMessage) :=
  match failures with
  | [] | [_] => Normal failures
  | _ =>
      ks ← keyed failures;
      Normal (snd <$> sortByStart ks)
  end.

Definition overlaps (a b : RuleFix) : bool := snd (range a) >=? fst (range b).

(** The loop of [getNonOverlappingReplacements] from index [i] on, with the
    replacements retained so far.  [nonOverlapping[length - 1]] and
    [replacements[0]] may be [undefined]; [overlaps] then throws. *)
Fixpoint walk (i : nat) (sortedFailures : list LintMessage)
    (nonOverlapping : list RuleFix) : Completion (list RuleFix) :=
  match sortedFailures with
  | [] => Normal nonOverlapping
  | failure :: rest =>
      let replacements := getReplacements (fix_ failure) in
      if Nat.eqb i 0 then walk (S i) rest (nonOverlapping ++ replacements)
      else
        match last nonOverlapping, head replacements with
        | Some a, Some b =>
            if negb (overlaps a b)
            then walk (S i) rest (nonOverlapping ++ replacements)
            else walk (S i) rest nonOverlapping
        | _, _ => Throw (typeError "range")
        end
  end.

Definition getNonOverlappingReplacements (failures : list LintMessage)
    : Completion (list RuleFix) :=
  sortedFailures ← sortFailures failures;
  walk 0 sortedFailures [].

(** *** The resolver as the design document words it

    The findings the walk retains, as a mask over the sorted list: the first
    is always retained, a later one exactly when the end of the last retained
    replacement is strictly before the start of its first replacement. *)

Definition startOfFirst (f : LintMessage) : Z :=
  from_option (fun r => fst (range r)) 0 (head (getReplacements (fix_ f))).

Definition endOfLast (f : LintMessage) : Z :=
  from_option (fun r => snd (range r)) 0 (last (getReplacements (fix_ f))).

Fixpoint retainedAfter (lastEnd : Z) (fs : list LintMessage) : list bool :=
  match fs with
  | [] => []
  | f :: rest =>
      if lastEnd <? startOfFirst f
      then true :: retainedAfter (endOfLast f) rest
      else false :: retainedAfter lastEnd rest
  end.

Definition retained (sortedFailures : list LintMessage) : list bool :=
  match sortedFailures with
  | [] => []
  | f :: rest => true :: retainedAfter (endOfLast f) rest
  end.

(** The replacements of the findings selected by a mask, in order. *)
Fixpoint replacementsOf (fs : list LintMessage) (mask : list bool) : list RuleFix :=
  match fs, mask with
  | f :: fs', true :: mask' => getReplacements (fix_ f) ++ replacementsOf fs' mask'
  | _ :: fs', false :: mask' => replacementsOf fs' mask'
  | _, _ => []
  end.

(** The order of findings by the start of their first replacement, and the
    same order on findings paired with that start. *)
Definition byFirstStart (f g : LintMessage) : Prop := startOfFirst f <= startOfFirst g.
Definition byKey (x y : Z * LintMessage) : Prop := fst x <= fst y.

(** The findings in ascending order of the start of their first replacement,
    ties in their original order. *)
Definition sortedByFirstStart (failures : list LintMessage) : list LintMessage :=
  snd <$> sortByStart ((fun f => (startOfFirst f, f)) <$> failures).

Definition hasReplacement (f : LintMessage) : bool :=
  negb (Nat.eqb (length (getReplacements (fix_ f))) 0).

(** A finding's replacements are listed in position order when none starts
    before the first and none ends after the last. *)
Definition inPositionOrder (f : LintMessage) : bool :=
  forallb (fun r => (startOfFirst f <=? fst (range r)) && (snd (range r) <=? endOfLast f))
          (getReplacements (fix_ f)).

(** No two retained findings own replacements [a] (of the earlier finding)
    and [b] (of the later one) with [a.end >= b.start]. *)
Definition noConflictRetained (sortedFailures : list LintMessage) (mask : list bool) : Prop :=
  forall (i j : nat) fi fj a b,
    (i < j)%nat ->
    sortedFailures !! i = Some fi -> sortedFailures !! j = Some fj ->
    a ∈ getReplacements (fix_ fi) -> b ∈ getReplacements (fix_ fj) ->
    snd (range a) >= fst (range b) ->
    ~ (mask !! i = Some true /\ mask !! j = Some true).

(** *** Words for the result of the resolver *)

(** Replacements listed so that each ends strictly before the next starts. *)
Fixpoint separated (rs : list RuleFix) : bool :=
  match rs with
  | a :: (b :: _) as rest => (snd (range a) <? fst (range b)) && separated rest
  | _ => true
  end.

(** A range that does not end before it starts. *)
Definition wellFormed (r : RuleFix) : bool := fst (range r) <=? snd (range r).

(** Findings listed so that each starts strictly after the last replacement
    of the one before has ended. *)
Fixpoint gapped (fs : list LintMessage) : bool :=
  match fs with
  | f :: (g :: _) as rest => (endOfLast f <? startOfFirst g) && gapped rest
  | _ => true
  end.

(** A result of the report is addressed to [file] when it names a file and
    that name normalizes to what [file] normalizes to. *)
Definition addressedTo (normalize : string -> string) (file : string) (result : LintResult)
    : bool :=
  negb (String.eqb (filePath result) "") &&
  String.eqb (normalize (filePath result)) (normalize file).

End Failures.

(** ** String helpers of the JavaScript runtime *)

Module JsString.

(** [s.endsWith(suffix)]. *)
Definition endsWith (s suffix : string) : bool :=
  let n := String.length s in
  let k := String.length suffix in
  (k <=? n)%nat && String.eqb (String.substring (n - k) k s) suffix.

(** [s.startsWith(prefix)]. *)
Fixpoint startsWith (s prefix : string) {struct prefix} : bool :=
  match prefix with
  | EmptyString => true
  | String c prefix' =>
      match s with
      | String d s' => Ascii.eqb c d && startsWith s' prefix'
      | EmptyString => false
      end
  end.

Definition lowerAscii (c : ascii) : ascii :=
  let n := Ascii.nat_of_ascii c in
  if (65 <=? n)%nat && (n <=? 90)%nat then Ascii.ascii_of_nat (n + 32) else c.

(** [s.toLowerCase()] on ASCII text. *)
Fixpoint toLowerCase (s : string) : string :=
  match s with
  | EmptyString => EmptyString
  | String c s' => String (lowerAscii c) (toLowerCase s')
  end.

(** A string used as a condition: the empty string is falsy, and so is a
    missing one. *)
Definition truthy (s : option string) : bool :=
  match s with
  | Some s => negb (String.eqb s "")
  | None => false
  end.

(** A value inside a template literal. *)
Definition orNull (s : option string) : string := default "null" s.
Definition orUndefined (s : option string) : string := default "undefined" s.

End JsString.

Import JsString.

(** ** src/runner/index.ts *)

Module Runner.
Import Failures.

Inductive PackageManager := npm | pnpm | yarn.

Definition toPackageManager (manager : option string) : option PackageManager :=
  match manager with
  | None => None
  | Some m =>
      let m := toLowerCase m in
      if String.eqb m "npm" then Some npm
      else if String.eqb m "pnpm" then Some pnpm
      else if String.eqb m "yarn" then Some yarn
      else None
  end.

Record RunConfiguration := {
  allowInlineConfig : option bool;
  reportUnusedDisableDirectives : option bool;
  jsEnable : bool;
  configFile : option string;
  ignoreDefinitionFiles : bool;
  exclude : list string;
  packageManager : option PackageManager;
  workspaceFolderPath : option string
}.

Record RunResult := {
  lintResult : LintReport;
  warnings : list string;
  resultWorkspaceFolderPath : option string;
  configFilePath : option string
}.

Definition emptyLintResult : LintReport :=
  {| errorCount := 0; warningCount := 0; results := [];
     fixableErrorCount := 0; fixableWarningCount := 0; usedDeprecatedRules := [] |}.

Definition emptyResult : RunResult :=
  {| lintResult := emptyLintResult; warnings := [];
     resultWorkspaceFolderPath := None; configFilePath := None |}.

(** [contents: string | typescript.Program]; of a program only
    [getCurrentDirectory()] is used. *)
Inductive Contents :=
| Text (s : string)
| Program (currentDirectory : string).

(** The function stored in [console.warn]. *)
Inductive WarnFn :=
| HostWarn (id : nat)
| CaptureWarnings (originalConsoleWarn : WarnFn).

(** The state of the node process that [doRun] reads and writes. *)
Record Process := {
  cwd : string;                 (* process.cwd() *)
  consoleWarn : WarnFn;         (* console.warn *)
  traced : list string;         (* what was handed to the [trace] callback *)
  linted : list string          (* files handed to [executeOnFiles] *)
}.

(** The options handed to [new library.CLIEngine(options)]. *)
Record FixOptions := {
  filename : string;
  optFix : bool;                (* fix *)
  optAllowInlineConfig : option bool;
  optReportUnusedDisableDirectives : option bool
}.

(** What one call into the analyzer library did: the messages that reached
    the [console.warn] installed for the call, its completion, and the
    working directory and [console.warn] it left behind. *)
Record Ran (A : Type) := {
  emitted : list string;
  outcome : Completion A;
  cwdAfter : string;
  consoleWarnAfter : WarnFn
}.
Arguments emitted {A} _.
Arguments outcome {A} _.
Arguments cwdAfter {A} _.
Arguments consoleWarnAfter {A} _.

(** The loaded [eslint] module. *)
Record Library := {
  newCLIEngine : FixOptions -> Process -> Ran unit;
  executeOnFiles : FixOptions -> list string -> Process -> Ran LintReport
}.

(** What the runner uses of node's [path], [minimatch] and the file system.
    [minimatch p pattern] stands for [minimatch(p, pattern, { dot: true })];
    [dirExists d] tells whether [process.chdir(d)] succeeds. *)
Class Node := {
  relative : string -> string -> string;
  minimatch : string -> string -> bool;
  dirExists : string -> bool
}.

Section WithNode.
Context `{Node}.

Definition testForExclusionPattern (filePath pattern : string) (cwd : option string) : bool :=
  match cwd with
  | Some dir =>
      if truthy cwd then
        let relPath := relative dir filePath in
        if minimatch relPath pattern then true
        else if String.eqb relPath filePath then false
        else minimatch filePath pattern
      else minimatch filePath pattern
  | None => minimatch filePath pattern
  end.

Definition fileIsExcluded (settings : RunConfiguration) (filePath : string)
    (cwd : option string) : bool :=
  if ignoreDefinitionFiles settings && endsWith filePath ".d.ts" then true
  else existsb (fun pattern => testForExclusionPattern filePath pattern cwd) (exclude settings).

(** [/\.(jsx?|mjs)$/i.test(filePath)]. *)
Definition isJsDocument (filePath : string) : bool :=
  let p := toLowerCase filePath in
  endsWith p ".js" || endsWith p ".jsx" || endsWith p ".mjs".

Definition traceMethod (method msg : string) (p : Process) : Process :=
  {| cwd := cwd p; consoleWarn := consoleWarn p;
     traced := traced p ++ ["(" +:+ method +:+ ") " +:+ msg]; linted := linted p |}.

(** [process.chdir(directory)]; directories are named by absolute paths, as
    [process.cwd()] returns them.  The error of a missing directory names
    the directory the process is in and the one asked for. *)
Definition chdir (directory : string) (p : Process) : Completion unit * Process :=
  if dirExists directory
  then (Normal (), {| cwd := directory; consoleWarn := consoleWarn p;
                      traced := traced p; linted := linted p |})
  else (Throw (ErrorObject "Error"
                 ("ENOENT: no such file or directory, chdir '" +:+ cwd p
                  +:+ "' -> '" +:+ directory +:+ "'") ""), p).

Definition setConsoleWarn (f : WarnFn) (p : Process) : Process :=
  {| cwd := cwd p; consoleWarn := f; traced := traced p; linted := linted p |}.

(** The process after a call into the analyzer library. *)
Definition afterCall {A} (r : Ran A) (p : Process) : Process :=
  {| cwd := cwdAfter r; consoleWarn := consoleWarnAfter r;
     traced := traced p; linted := linted p |}.

Definition noteLinted (files : list string) (p : Process) : Process :=
  {| cwd := cwd p; consoleWarn := consoleWarn p;
     traced := traced p; linted := linted p ++ files |}.

(** [x || undefined] for an optional flag. *)
Definition orUndefinedFlag (b : option bool) : option bool :=
  match b with
  | Some true => Some true
  | _ => None
  end.

(** The inner [try { ... } finally { console.warn = originalConsoleWarn }]
    of [doRun], from [console.warn = captureWarnings] on.  [warnings] is the
    array shared with the caller; the result carries it as it is after the
    call. *)
Definition lintWithCapturedWarnings (filePath : string) (library : Library)
    (configuration : RunConfiguration) (options : FixOptions)
    (warnings : list string) (p : Process) : Completion RunResult * Process :=
  let originalConsoleWarn := consoleWarn p in
  let p := setConsoleWarn (CaptureWarnings originalConsoleWarn) p in
  let made := newCLIEngine library options p in
  let p := afterCall made p in
  let warnings := warnings ++ emitted made in
  match outcome made with
  | Throw e => (Throw e, setConsoleWarn originalConsoleWarn p)
  | Normal _ =>
      let p := traceMethod "doRun" ("Linting: start linting " +:+ filePath) p in
      let ran := executeOnFiles library options [filePath] (noteLinted [filePath] p) in
      let p := afterCall ran (noteLinted [filePath] p) in
      let warnings := warnings ++ emitted ran in
      match outcome ran with
      | Throw e => (Throw e, setConsoleWarn originalConsoleWarn p)
      | Normal result =>
          let p := traceMethod "doRun" "Linting: ended linting" p in
          let p := setConsoleWarn originalConsoleWarn p in
          (Normal {| lintResult := result; warnings := warnings;
                     resultWorkspaceFolderPath := workspaceFolderPath configuration;
                     configFilePath := None |}, p)
      end
  end.

(** The outer [try] block of [doRun]. *)
Definition lintUnlessJs (filePath : string) (library : Library)
    (configuration : RunConfiguration) (warnings : list string) (p : Process)
    : Completion RunResult * Process :=
  if isJsDocument filePath && negb (jsEnable configuration)
  then (Normal emptyResult,
        traceMethod "doRun" "No linting: a JS document, but js linting is disabled" p)
  else
    let options :=
      {| filename := filePath; optFix := false;
         optAllowInlineConfig := orUndefinedFlag (allowInlineConfig configuration);
         optReportUnusedDisableDirectives :=
           orUndefinedFlag (reportUnusedDisableDirectives configuration) |} in
    lintWithCapturedWarnings filePath library configuration options warnings p.

(** The local [cwd] of [doRun]: the workspace folder, or without one the
    current directory of the program when [contents] is a program. *)
Definition runDirectory (configuration : RunConfiguration) (contents : Contents)
    : option string :=
  if truthy (workspaceFolderPath configuration) then workspaceFolderPath configuration
  else match contents with
       | Program currentDirectory => Some currentDirectory
       | Text _ => workspaceFolderPath configuration
       end.

Definition doRun (filePath : string) (contents : Contents) (library : Library)
    (configuration : RunConfiguration) (warnings : list string) (p : Process)
    : Completion RunResult * Process :=
  let p := traceMethod "doRun" ("starting validation for " +:+ filePath) p in
  let cwd_ := runDirectory configuration contents in
  if fileIsExcluded configuration filePath cwd_
  then (Normal emptyResult,
        traceMethod "doRun" ("No linting: file " +:+ filePath +:+ " is excluded") p)
  else
    match cwd_ with
    | Some dir =>
        if truthy cwd_ then
          let p := traceMethod "doRun" ("Changed directory to " +:+ dir) p in
          let cwdToRestore := cwd p in
          match chdir dir p with
          | (Throw e, p) => (Throw e, p)
          | (Normal _, p) =>
              let '(completion, p) := lintUnlessJs filePath library configuration warnings p in
              (* finally: a throw of the restoring chdir replaces the completion *)
              match chdir cwdToRestore p with
              | (Throw e, p) => (Throw e, p)
              | (Normal _, p) => (completion, p)
              end
          end
        else lintUnlessJs filePath library configuration warnings p
    | None => lintUnlessJs filePath library configuration warnings p
    end.

(** *** The calls [doRun] makes into the analyzer *)

(** The options [doRun] makes the engine with. *)
Definition lintOptions (filePath : string) (configuration : RunConfiguration) : FixOptions :=
  {| filename := filePath; optFix := false;
     optAllowInlineConfig := orUndefinedFlag (allowInlineConfig configuration);
     optReportUnusedDisableDirectives :=
       orUndefinedFlag (reportUnusedDisableDirectives configuration) |}.

(** The process in which [doRun] enters its outer [try] block: the two
    traces made, and the directory changed when there is one to change
    to. *)
Definition entered (filePath : string) (contents : Contents)
    (configuration : RunConfiguration) (p : Process) : Process :=
  let p := traceMethod "doRun" ("starting validation for " +:+ filePath) p in
  match runDirectory configuration contents with
  | Some dir =>
      if truthy (Some dir)
      then snd (chdir dir (traceMethod "doRun" ("Changed directory to " +:+ dir) p))
      else p
  | None => p
  end.

(** [new library.CLIEngine(options)] as [doRun] calls it, [console.warn]
    capturing. *)
Definition engineMade (filePath : string) (contents : Contents) (library : Library)
    (configuration : RunConfiguration) (p : Process) : Ran unit :=
  let p := entered filePath contents configuration p in
  newCLIEngine library (lintOptions filePath configuration)
    (setConsoleWarn (CaptureWarnings (consoleWarn p)) p).

(** [engine.executeOnFiles([filePath])] as [doRun] calls it, after the
    engine has been made. *)
Definition filesLinted (filePath : string) (contents : Contents) (library : Library)
    (configuration : RunConfiguration) (p : Process) : Ran LintReport :=
  let made := engineMade filePath contents library configuration p in
  let p := entered filePath contents configuration p in
  let p := afterCall made (setConsoleWarn (CaptureWarnings (consoleWarn p)) p) in
  let p := traceMethod "doRun" ("Linting: start linting " +:+ filePath) p in
  executeOnFiles library (lintOptions filePath configuration) [filePath]
    (noteLinted [filePath] p).

End WithNode.

(** *** Loading the analyzer: [runEsLint], [loadLibrary] and what they call *)

(** The cache of [mruCache.ts], which is not among the sources, is taken as
    given: a store from file paths to the functions [loadLibrary] puts into
    it.  Such a function is known by the resolved path it closes over, so the
    cache holds that path.  [cacheGet] also returns the cache as the access
    leaves it. *)
Class MruCache := {
  Cache : Type;
  cacheHas : string -> Cache -> bool;
  cacheGet : string -> Cache -> option string * Cache;
  cacheSet : string -> string -> Cache -> Cache
}.

(** What loading uses of node and of [vscode-languageserver]:
    [fs.existsSync], [path.dirname], [path.delimiter], [require], the global
    path helpers, the output of [pnpm root -g], and [resolveOutput cwd env]
    for the trimmed standard output of the subprocess that [resolveEsLint]
    spawns in [cwd] with the environment [env]. *)
Class Loader := {
  existsSync : string -> bool;
  dirname : string -> string;
  delimiter : string;
  requireModule : string -> Completion Library;
  resolveGlobalNodePath : option string;
  resolveGlobalYarnPath : option string;
  pnpmRoot : Completion string;
  resolveOutput : string -> gmap string string -> Completion string
}.

Section WithLoader.
Context `{Node} `{MruCache} `{Loader}.

(** The state of an [EsLintRunner] and of the process around it; the last
    two fields keep count of the calls that leave the process. *)
Record RunnerState := {
  proc : Process;
  env : gmap string string;                                 (* process.env *)
  eslintPath2Library : gmap string (option Library);
  document2LibraryCache : Cache;
  globalPackageManagerPath : PackageManager -> option (option string);
  required : list string;              (* paths handed to [require] *)
  globalLookups : list PackageManager  (* global paths asked of the system *)
}.

Definition withProc (p : Process) (st : RunnerState) : RunnerState :=
  {| proc := p; env := env st; eslintPath2Library := eslintPath2Library st;
     document2LibraryCache := document2LibraryCache st;
     globalPackageManagerPath := globalPackageManagerPath st;
     required := required st; globalLookups := globalLookups st |}.

Definition withCache (c : Cache) (st : RunnerState) : RunnerState :=
  {| proc := proc st; env := env st; eslintPath2Library := eslintPath2Library st;
     document2LibraryCache := c;
     globalPackageManagerPath := globalPackageManagerPath st;
     required := required st; globalLookups := globalLookups st |}.

Definition traceRunner (method msg : string) (st : RunnerState) : RunnerState :=
  withProc (traceMethod method msg (proc st)) st.

Definition packageManagerName (manager : PackageManager) : string :=
  match manager with
  | npm => "npm"
  | pnpm => "pnpm"
  | yarn => "yarn"
  end.

Definition samePackageManager (a b : PackageManager) : bool :=
  String.eqb (packageManagerName a) (packageManagerName b).

Definition getInstallFailureMessage (filePath : string) (manager : PackageManager) : string :=
  let localCommand :=
    match manager with
    | npm => "npm install eslint"
    | pnpm => "pnpm install eslint"
    | yarn => "yarn add eslint"
    end in
  let globalCommand :=
    match manager with
    | npm => "npm install -g eslint"
    | pnpm => "pnpm install -g eslint"
    | yarn => "yarn global add eslint"
    end in
  "Failed to load the ESLint library for '" +:+ filePath +:+ "'"
  +:+ String "010"%char EmptyString
  +:+ "To use ESLint, please install eslint using '" +:+ localCommand
  +:+ "' or globally using '" +:+ globalCommand +:+ "'."
  +:+ String "010"%char EmptyString
  +:+ "Be sure to restart your editor after installing eslint.".

(** [getGlobalPackageManagerPath(packageManager = "npm")]: the map keeps
    what was found, [undefined] included; a throw of [pnpm root -g] leaves
    the map as it was. *)
Definition getGlobalPackageManagerPath (manager : option PackageManager)
    (st : RunnerState) : Completion (option string) * RunnerState :=
  let manager := default npm manager in
  let st := traceRunner "getGlobalPackageManagerPath"
              ("Begin - Resolve Global Package Manager Path for: "
               +:+ packageManagerName manager) st in
  let finish st :=
    let st := traceRunner "getGlobalPackageManagerPath"
                ("Done - Resolve Global Package Manager Path for: "
                 +:+ packageManagerName manager) st in
    (Normal (default None (globalPackageManagerPath st manager)), st) in
  match globalPackageManagerPath st manager with
  | Some _ => finish st
  | None =>
      let st :=
        {| proc := proc st; env := env st; eslintPath2Library := eslintPath2Library st;
           document2LibraryCache := document2LibraryCache st;
           globalPackageManagerPath := globalPackageManagerPath st;
           required := required st; globalLookups := globalLookups st ++ [manager] |} in
      let found :=
        match manager with
        | npm => Normal resolveGlobalNodePath
        | yarn => Normal resolveGlobalYarnPath
        | pnpm => path ← pnpmRoot; Normal (Some path)
        end in
      match found with
      | Throw e => (Throw e, st)
      | Normal path =>
          finish
            {| proc := proc st; env := env st; eslintPath2Library := eslintPath2Library st;
               document2LibraryCache := document2LibraryCache st;
               globalPackageManagerPath :=
                 fun m => if samePackageManager m manager then Some path
                          else globalPackageManagerPath st m;
               required := required st; globalLookups := globalLookups st |}
      end
  end.

(** The environment [resolveEsLint] hands to the subprocess: a copy of
    [process.env] with the node path put in front of [NODE_PATH], and
    [ELECTRON_RUN_AS_NODE] set. *)
Definition resolveEnv (nodePath : option string) (processEnv : gmap string string)
    : gmap string string :=
  let newEnv :=
    match nodePath with
    | Some np =>
        if truthy nodePath then
          if truthy (processEnv !! "NODE_PATH")
          then <["NODE_PATH" := np +:+ delimiter +:+ default "" (processEnv !! "NODE_PATH")]>
                 processEnv
          else <["NODE_PATH" := np]> processEnv
        else processEnv
    | None => processEnv
    end in
  <["ELECTRON_RUN_AS_NODE" := "1"]> newEnv.

Definition resolveEsLint (nodePath : option string) (cwd_ : string) (st : RunnerState)
    : Completion string * RunnerState :=
  let newEnv := resolveEnv nodePath (env st) in
  let st :=
    if truthy nodePath
    then traceRunner "resolveEsLint"
           ("NODE_PATH value is: " +:+ default "" (newEnv !! "NODE_PATH")) st
    else st in
  (resolveOutput cwd_ newEnv, st).

(** [resolveEsLint(getGlobalPath(), directory)]. *)
Definition resolveGlobally (manager : option PackageManager) (directory : string)
    (st : RunnerState) : Completion string * RunnerState :=
  match getGlobalPackageManagerPath manager st with
  | (Throw e, st) => (Throw e, st)
  | (Normal globalPath, st) => resolveEsLint globalPath directory st
  end.

(** [try { esLintPath = resolveEsLint(nodePath, cwd); if (esLintPath.length
    === 0) esLintPath = <global>; } catch { esLintPath = <global>; }]. *)
Definition resolveOrFallBack (nodePath : option string) (cwd_ : string)
    (manager : option PackageManager) (directory : string) (st : RunnerState)
    : Completion string * RunnerState :=
  match resolveEsLint nodePath cwd_ st with
  | (Normal esLintPath, st) =>
      if (String.length esLintPath =? 0)%nat
      then match resolveGlobally manager directory st with
           | (Normal esLintPath, st) => (Normal esLintPath, st)
           | (Throw _, st) => resolveGlobally manager directory st
           end
      else (Normal esLintPath, st)
  | (Throw _, st) => resolveGlobally manager directory st
  end.

Definition nodePathWarning (nodePath : string) : string :=
  "The setting 'eslint.nodePath' refers to '" +:+ nodePath
  +:+ "', but this path does not exist. The setting will be ignored.".

(** [loadLibrary(filePath, configuration, warningsOutput)]; [nodePath] is
    [configuration.nodePath], a field the record above leaves out.  The
    result is [warningsOutput] as the call leaves it. *)
Definition loadLibrary (filePath : string) (configuration : RunConfiguration)
    (nodePath : option string) (warningsOutput : list string) (st : RunnerState)
    : Completion (list string) * RunnerState :=
  let st := traceRunner "loadLibrary" ("trying to load " +:+ filePath) st in
  let directory := dirname filePath in
  let '(np, warningsOutput) :=
    match nodePath with
    | Some path =>
        if truthy nodePath then
          if existsSync path then (Some path, warningsOutput)
          else (None, warningsOutput ++ [nodePathWarning path])
        else (None, warningsOutput)
    | None => (None, warningsOutput)
    end in
  let resolved :=
    match np with
    | Some path =>
        if truthy np
        then resolveOrFallBack np path (packageManager configuration) directory st
        else resolveOrFallBack None directory (packageManager configuration) directory st
    | None => resolveOrFallBack None directory (packageManager configuration) directory st
    end in
  match resolved with
  | (Throw e, st) => (Throw e, st)
  | (Normal esLintPath, st) =>
      let st := traceRunner "loadLibrary" ("Resolved eslint to " +:+ esLintPath) st in
      (Normal warningsOutput,
       withCache (cacheSet filePath esLintPath (document2LibraryCache st)) st)
  end.

(** The function [loadLibrary] stores for [esLintPath]: the library loaded
    for that path before, or else what [require] gives, [undefined] when it
    throws; either way the map remembers. *)
Definition loadedLibrary (esLintPath : string) (st : RunnerState)
    : option Library * RunnerState :=
  match eslintPath2Library st !! esLintPath with
  | Some library => (library, st)
  | None =>
      let remember library :=
        {| proc := proc st; env := env st;
           eslintPath2Library := <[esLintPath := library]> (eslintPath2Library st);
           document2LibraryCache := document2LibraryCache st;
           globalPackageManagerPath := globalPackageManagerPath st;
           required := required st ++ [esLintPath]; globalLookups := globalLookups st |} in
      match requireModule esLintPath with
      | Throw _ => (None, remember None)
      | Normal library => (Some library, remember (Some library))
      end
  end.

(** [runEsLint(filePath, contents, configuration)], with
    [configuration.nodePath] as for [loadLibrary]. *)
Definition runEsLint (filePath : string) (contents : Contents)
    (configuration : RunConfiguration) (nodePath : option string) (st : RunnerState)
    : Completion RunResult * RunnerState :=
  let st := traceRunner "runEsLint" "start" st in
  let loaded :=
    if cacheHas filePath (document2LibraryCache st) then (Normal [], st)
    else loadLibrary filePath configuration nodePath [] st in
  match loaded with
  | (Throw e, st) => (Throw e, st)
  | (Normal warnings_, st) =>
      let st := traceRunner "runEsLint" "Loaded eslint library" st in
      if negb (cacheHas filePath (document2LibraryCache st)) then (Normal emptyResult, st)
      else
        match cacheGet filePath (document2LibraryCache st) with
        | (None, c) => (Throw (typeError "call"), withCache c st)
        | (Some esLintPath, c) =>
            match loadedLibrary esLintPath (withCache c st) with
            | (None, st) =>
                (Normal {| lintResult := emptyLintResult;
                           warnings := [getInstallFailureMessage filePath
                                          (default npm (packageManager configuration))];
                           resultWorkspaceFolderPath := None; configFilePath := None |}, st)
            | (Some library, st) =>
                let st := traceRunner "runEsLint" ("About to validate " +:+ filePath) st in
                let '(completion, p) :=
                  doRun filePath contents library configuration warnings_ (proc st) in
                (completion, withProc p st)
            end
        end
  end.

End WithLoader.

End Runner.

(** ** src/plugin.ts *)

Module Plugin.
Import Failures Runner.

(** [ts.DiagnosticCategory]. *)
Inductive DiagnosticCategory := Warning | Error | Suggestion | Message.

(** What the plugin uses of a [ts.SourceFile]: the table of line start
    offsets, which the host never leaves empty, and the host's own position
    functions.  [getPositionOfLineAndCharacter] takes a 0-based line. *)
Record SourceFile := {
  fileName : string;
  getLineStarts : list Z;
  getLineEndOfPosition : Z -> Z;
  getPositionOfLineAndCharacter : nat -> Z -> Z;
  fileEnd : Z;
  lineStarts_nonempty : getLineStarts <> []
}.

Record TextSpan := { spanStart : Z; spanLength : Z; spanEnd : Z }.

(** [ts.Diagnostic]. *)
Record Diagnostic := {
  diagFile : option SourceFile;
  diagStart : Z;
  diagLength : Z;
  messageText : string;
  category : DiagnosticCategory;
  diagSource : option string;
  code : Z
}.

(** [ts.TextChange]; the start offset is whatever was read from the line
    table, which is [undefined] out of its range. *)
Record TextChange := { newText : string; changeStart : option Z; changeLength : Z }.

Record FileTextChanges := { changesFileName : string; textChanges : list TextChange }.

(** [ts.CodeFixAction]. *)
Record CodeFixAction := {
  description : string;
  fixName : string;
  changes : list FileTextChanges;
  fixId : option string;
  fixAllDescription : option string
}.

Record Problem := { failure : LintMessage; fixable : bool }.

(** [config.exclude]: one pattern or an array of patterns. *)
Inductive ExcludeSetting :=
| ExcludePattern (pattern : string)
| ExcludePatterns (patterns : list string).

(** Modelled from the spec: [settings.ts] is not among the sources.  These are
    the option keys the design document lists for the configuration-change
    notification, with the types [plugin.ts] reads them at. *)
Record Configuration := {
  suppressWhileTypeErrorsPresent : bool;
  cfgIgnoreDefinitionFiles : bool;
  cfgJsEnable : bool;
  cfgExclude : option ExcludeSetting;
  cfgPackageManager : option string;
  alwaysShowRuleFailuresAsWarnings : option bool;
  cfgConfigFile : option string
}.

(** The collaborators of the plugin: the constants of [config.ts], node's
    [path], the host's file system, program and script snapshots, the runner
    and the configuration file watcher. *)
Class Host := {
  ESLINT_ERROR_CODE : Z;
  ESLINT_ERROR_SOURCE : string;
  normalize : string -> string;
  join : string -> string -> string;
  fileExists : string -> bool;
  getSourceFile : string -> option SourceFile;
  getCurrentDirectory : string;
  runEsLint : string -> RunConfiguration -> Completion RunResult;
  ensureWatching : string -> Completion unit;
  getScriptSnapshot : string -> option (option Z -> Z -> string);
  stringify : list CodeFixAction -> string
}.

(** *** EsLintFixId *)

Definition fromFailure (failure : LintMessage) : string :=
  "eslint:" +:+ orNull (ruleId failure).

Definition toRuleName (fixId : option string) : option string :=
  match fixId with
  | Some s => if startsWith s "eslint:"
              then Some (String.substring 7 (String.length s - 7) s)
              else None
  | None => None
  end.

(** *** ProblemMap: a [Map] from span keys to problems, in insertion order *)

Definition ProblemMap := list (string * Problem).

Definition key (start end_ : Z) : string :=
  "[" +:+ pretty start +:+ "," +:+ pretty end_ +:+ "]".

Fixpoint mapGet (k : string) (m : ProblemMap) : option Problem :=
  match m with
  | [] => None
  | (k', p) :: m' => if String.eqb k' k then Some p else mapGet k m'
  end.

(** [Map.prototype.set]: an existing key keeps its place. *)
Fixpoint mapSet (k : string) (p : Problem) (m : ProblemMap) : ProblemMap :=
  match m with
  | [] => [(k, p)]
  | (k', p') :: m' => if String.eqb k' k then (k', p) :: m' else (k', p') :: mapSet k p m'
  end.

Definition get (m : ProblemMap) (start end_ : Z) : option Problem := mapGet (key start end_) m.

Definition set (m : ProblemMap) (start end_ : Z) (problem : Problem) : ProblemMap :=
  mapSet (key start end_) problem m.

Definition values (m : ProblemMap) : list Problem := snd <$> m.

(** *** The state of an [ESLintPlugin] *)

Record PluginState := {
  codeFixActions : gmap string ProblemMap;
  logged : list string;         (* what was handed to [logger.info] *)
  runs : list string            (* files handed to [runner.runEsLint] *)
}.

Definition info (msg : string) (st : PluginState) : PluginState :=
  {| codeFixActions := codeFixActions st; logged := logged st ++ [msg]; runs := runs st |}.

Definition setCodeFixActions (m : gmap string ProblemMap) (st : PluginState) : PluginState :=
  {| codeFixActions := m; logged := logged st; runs := runs st |}.

Definition noteRun (file : string) (st : PluginState) : PluginState :=
  {| codeFixActions := codeFixActions st; logged := logged st; runs := runs st ++ [file] |}.

(** *** getTextSpan *)

(** [lineStarts[i]] for an index inside the table; see
    [positionResolver_reads_in_range]. *)
Definition lineStartAt (file : SourceFile) (i : nat) : Z :=
  default 0 (getLineStarts file !! i).

Definition positionResolver (file : SourceFile) (line : option nat) (column : option Z)
    : option Z :=
  match line with
  | None | Some O => None
  | Some (S line0) =>
      let lineStarts := getLineStarts file in
      if (length lineStarts <? S line0)%nat
      then Some (getLineEndOfPosition file (lineStartAt file (length lineStarts - 1)))
      else
        let lineStart := lineStartAt file line0 in
        let lineEnd := getLineEndOfPosition file lineStart in
        match column with
        | None => Some lineEnd
        | Some column =>
            let column := column - 1 in
            if column <=? getLineEndOfPosition file lineStart - lineStart
            then Some (getPositionOfLineAndCharacter file line0 column)
            else Some lineEnd
        end
  end.

Definition getTextSpan (file : SourceFile) (lintMessage : LintMessage) : TextSpan :=
  let start := default 0 (positionResolver file (line lintMessage) (column lintMessage)) in
  let end_ := default start (positionResolver file (endLine lintMessage) (endColumn lintMessage)) in
  {| spanStart := start; spanLength := end_ - start; spanEnd := end_ |}.

Definition lineGiven (l : option nat) : bool :=
  match l with
  | None | Some O => false
  | Some (S _) => true
  end.

(** [getTextSpan] on what [getSourceFile(fileName)!] returned: without a
    source file, the resolver throws as soon as it is given a line. *)
Definition getTextSpanOf (file : option SourceFile) (lintMessage : LintMessage)
    : Completion TextSpan :=
  match file with
  | Some f => Normal (getTextSpan f lintMessage)
  | None =>
      if lineGiven (line lintMessage) || lineGiven (endLine lintMessage)
      then Throw (typeError "getLineStarts")
      else Normal {| spanStart := 0; spanLength := 0; spanEnd := 0 |}
  end.

(** *** Diagnostics *)

Section WithHost.
Context `{Host}.

Definition getDiagnosticCategory (config : Configuration) (failure : LintMessage)
    : DiagnosticCategory :=
  match alwaysShowRuleFailuresAsWarnings config with
  | Some true | None => Warning
  | Some false => if severity failure =? 2 then Error else Warning
  end.

Definition makeDiagnostic (config : Configuration) (failure : LintMessage)
    (file : option SourceFile) : Completion Diagnostic :=
  let message_ :=
    match ruleId failure with
    | Some rule => message failure +:+ " (" +:+ rule +:+ ")"
    | None => message failure
    end in
  let category_ := getDiagnosticCategory config failure in
  span ← getTextSpanOf file failure;
  Normal {| diagFile := file; diagStart := spanStart span; diagLength := spanLength span;
            messageText := message_; category := category_;
            diagSource := Some ESLINT_ERROR_SOURCE; code := ESLINT_ERROR_CODE |}.

Definition replacementsAreEmpty (fixValue : option FixValue) : bool :=
  match fixValue with
  | Some (FixArray rs) => (length rs =? 0)%nat
  | _ => false
  end.

(** [!!(failure.fix && !replacementsAreEmpty(failure.fix))]: an object and an
    array, even an empty one, are truthy. *)
Definition isFixable (failure : LintMessage) : bool :=
  match fix_ failure with
  | Some _ => negb (replacementsAreEmpty (fix_ failure))
  | None => false
  end.

Definition recordCodeAction (failure : LintMessage) (file : option SourceFile)
    (st : PluginState) : Completion unit * PluginState :=
  let fixable_ := isFixable failure in
  match file with
  | None => (Throw (typeError "fileName"), st)
  | Some f =>
      let documentAutoFixes := default [] (codeFixActions st !! fileName f) in
      let span := getTextSpan f failure in
      (Normal (),
       setCodeFixActions
         (<[fileName f := set documentAutoFixes (spanStart span) (spanEnd span)
                              {| failure := failure; fixable := fixable_ |}]>
            (codeFixActions st)) st)
  end.

(** The loop over the problems of the file: [diagnostics.push(...)] then
    [recordCodeAction(...)], up to the first throw.  The diagnostics array is
    the host's own and keeps what was pushed before a throw. *)
Fixpoint reportProblems (config : Configuration) (problems : list LintMessage)
    (file : option SourceFile) (diagnostics : list Diagnostic) (st : PluginState)
    : option Thrown * list Diagnostic * PluginState :=
  match problems with
  | [] => (None, diagnostics, st)
  | problem :: rest =>
      match makeDiagnostic config problem file with
      | Throw e => (Some e, diagnostics, st)
      | Normal d =>
          let diagnostics := diagnostics ++ [d] in
          match recordCodeAction problem file st with
          | (Throw e, st) => (Some e, diagnostics, st)
          | (Normal _, st) => reportProblems config rest file diagnostics st
          end
      end
  end.

Definition warningDiagnostic (file : option SourceFile) (warning : string) : Diagnostic :=
  {| diagFile := file; diagStart := 0; diagLength := 1; messageText := warning;
     category := Warning; diagSource := Some ESLINT_ERROR_SOURCE; code := ESLINT_ERROR_CODE |}.

(** [for (const warning of warnings) diagnostics.unshift(...)]. *)
Definition unshiftWarnings (file : option SourceFile) (warnings_ : list string)
    (diagnostics : list Diagnostic) : list Diagnostic :=
  foldl (fun ds warning => warningDiagnostic file warning :: ds) diagnostics warnings_.

Definition runConfigurationOf (config : Configuration) : RunConfiguration :=
  {| allowInlineConfig := None;
     reportUnusedDisableDirectives := None;
     jsEnable := cfgJsEnable config;
     configFile := cfgConfigFile config;
     ignoreDefinitionFiles := cfgIgnoreDefinitionFiles config;
     exclude := match cfgExclude config with
                | Some (ExcludePatterns ps) => ps
                | Some (ExcludePattern p) => if String.eqb p "" then [] else [p]
                | None => []
                end;
     packageManager := toPackageManager (cfgPackageManager config);
     workspaceFolderPath := None |}.

(** What follows the guarded runner call in the [try] block of
    [getSemanticDiagnostics]. *)
Definition publish (config : Configuration) (fileName_ : string) (result : RunResult)
    (diagnostics : list Diagnostic) (st : PluginState)
    : option Thrown * list Diagnostic * PluginState :=
  let file := getSourceFile fileName_ in
  let defaultTsconfigJsonPath := join getCurrentDirectory "eslint.json" in
  let configured :=
    match configFilePath result with
    | Some p => truthy (Some p) && fileExists p
    | None => false
    end || fileExists defaultTsconfigJsonPath in
  let '(diagnostics, st) :=
    if configured
    then (unshiftWarnings file (warnings result) diagnostics, st)
    else (diagnostics,
          foldl (fun st warning => info ("[eslint] " +:+ warning) st) st (warnings result)) in
  let eslintProblems := filterProblemsForFile normalize fileName_ (lintResult result) in
  reportProblems config eslintProblems file diagnostics st.

(** The [catch (err)] around the runner call.  It returns [diagnostics];
    reading [message] of [null] or [undefined] throws instead. *)
Definition runnerFailed (err : Thrown) (st : PluginState) : option Thrown * PluginState :=
  match err with
  | ErrorObject _ msg _ | OtherValue _ (Some msg) => (None, info ("eslint error " +:+ msg) st)
  | OtherValue _ None => (None, info ("eslint error " +:+ "unknown error") st)
  | Nullish => (Some (typeError "message"), st)
  end.

(** The outer [try] block of [getSemanticDiagnostics]: the throw that left it,
    if any, with the diagnostics array and the state as they are then. *)
Definition lintInto (config : Configuration) (fileName_ : string)
    (diagnostics : list Diagnostic) (st : PluginState)
    : option Thrown * list Diagnostic * PluginState :=
  let st := info ("Computing eslint semantic diagnostics for '" +:+ fileName_ +:+ "'") st in
  let st := setCodeFixActions (delete fileName_ (codeFixActions st)) st in
  if cfgIgnoreDefinitionFiles config && endsWith fileName_ ".d.ts"
  then (None, diagnostics, st)
  else
    let st := noteRun fileName_ st in
    match runEsLint fileName_ (runConfigurationOf config) with
    | Throw err =>
        let '(thrown, st) := runnerFailed err st in (thrown, diagnostics, st)
    | Normal result =>
        let watched :=
          match configFilePath result with
          | Some p => if truthy (Some p) then ensureWatching p else Normal ()
          | None => Normal ()
          end in
        match watched with
        | Throw err =>
            let '(thrown, st) := runnerFailed err st in (thrown, diagnostics, st)
        | Normal _ => publish config fileName_ result diagnostics st
        end
    end.

(** [getSemanticDiagnostics(delegate, fileName)]; [delegate] is the host's
    own [getSemanticDiagnostics]. *)
Definition getSemanticDiagnostics (config : Configuration)
    (delegate : string -> Completion (list Diagnostic)) (fileName_ : string)
    (st : PluginState) : Completion (list Diagnostic) * PluginState :=
  match delegate fileName_ with
  | Throw e => (Throw e, st)
  | Normal diagnostics =>
      if (0 <? length diagnostics)%nat && suppressWhileTypeErrorsPresent config
      then (Normal diagnostics, st)
      else
        let '(thrown, diagnostics, st) := lintInto config fileName_ diagnostics st in
        match thrown with
        | None => (Normal diagnostics, st)
        | Some e =>
            match Js.toString e with
            | None => (Throw (typeError "toString"), st)
            | Some shown =>
                let st := info ("eslint-language service error: " +:+ shown) st in
                let st := info ("Stack trace: " +:+
                                match e with
                                | ErrorObject _ _ stack => stack
                                | _ => "undefined"
                                end) st in
                (Normal diagnostics, st)
            end
        end
  end.

(** *** Code fixes *)

Definition convertReplacementToTextChange (repl : RuleFix) : TextChange :=
  {| newText := text repl; changeStart := Some (fst (range repl));
     changeLength := snd (range repl) - fst (range repl) |}.

Definition convertFixToTextChange (r : RuleFix) : TextChange :=
  {| newText := text r; changeStart := Some (fst (range r));
     changeLength := snd (range r) - fst (range r) |}.

(** [failureToFileTextChange] hands [failure.fix] itself to
    [convertFixToTextChange]; an array has no [range], and reading
    [fix.range[0]] of it throws. *)
Definition failureToFileTextChange (failure : LintMessage) (fileName_ : string)
    : Completion FileTextChanges :=
  match fix_ failure with
  | None => Normal {| changesFileName := fileName_; textChanges := [] |}
  | Some (SingleFix r) =>
      Normal {| changesFileName := fileName_; textChanges := [convertFixToTextChange r] |}
  | Some (FixArray _) => Throw (typeError "0")
  end.

Definition getRuleFailureQuickFix (failure : LintMessage) (fileName_ : string)
    : Completion CodeFixAction :=
  change ← failureToFileTextChange failure fileName_;
  Normal {| description := "Fix: " +:+ message failure;
            fixName := "eslint:" +:+ orNull (ruleId failure);
            changes := [change]; fixId := None; fixAllDescription := None |}.

(** [problem.failure.ruleId === ruleName]. *)
Definition hasRule (ruleName : string) (problem : Problem) : bool :=
  match ruleId (failure problem) with
  | Some r => String.eqb r ruleName
  | None => false
  end.

(** The loop of [getRuleFailureFixAllQuickFix] over [problems.values()]. *)
Fixpoint collectChanges (ruleName : string) (problems : list Problem) (fileName_ : string)
    (changes_ : list FileTextChanges) : Completion (list FileTextChanges) :=
  match problems with
  | [] => Normal changes_
  | problem :: rest =>
      if fixable problem && hasRule ruleName problem
      then change ← failureToFileTextChange (failure problem) fileName_;
           collectChanges ruleName rest fileName_ (changes_ ++ [change])
      else collectChanges ruleName rest fileName_ changes_
  end.

Definition getRuleFailureFixAllQuickFix (ruleName : string) (problems : ProblemMap)
    (fileName_ : string) : Completion (option CodeFixAction) :=
  changes_ ← collectChanges ruleName (values problems) fileName_ [];
  if (length changes_ <? 2)%nat then Normal None
  else Normal (Some {| description := "Fix all '" +:+ ruleName +:+ "'";
                       fixName := "eslint:fix-all:" +:+ ruleName;
                       changes := changes_; fixId := None; fixAllDescription := None |}).

Definition getFixAllAutoFixableQuickFix (documentFixes : ProblemMap) (fileName_ : string)
    : Completion CodeFixAction :=
  allReplacements ←
    getNonOverlappingReplacements (failure <$> filter (fun x => fixable x = true) (values documentFixes));
  Normal {| description := "Fix all auto-fixable eslint failures";
            fixName := "eslint:fix-all";
            changes := [{| changesFileName := fileName_;
                           textChanges := convertReplacementToTextChange <$> allReplacements |}];
            fixId := None; fixAllDescription := None |}.

(** The match of [/^([ \t]+)/], or the empty string without one. *)
Fixpoint leadingSpace (s : string) : string :=
  match s with
  | String c s' =>
      if Ascii.eqb c " "%char || Ascii.eqb c "009"%char
      then String c (leadingSpace s') else EmptyString
  | EmptyString => EmptyString
  end.

(** [line = failure.line - 1] is [NaN] without a line and [-1] for line 0;
    the line table has no entry there. *)
Definition getDisableRuleQuickFix (failure : LintMessage) (fileName_ : string)
    (file : option SourceFile) : Completion CodeFixAction :=
  match file with
  | None => Throw (typeError "getLineStarts")
  | Some f =>
      let lineStarts := getLineStarts f in
      let lineStart :=
        match line failure with
        | Some (S line0) => lineStarts !! line0
        | _ => None
        end in
      let prefix :=
        match getScriptSnapshot fileName_ with
        | Some getText =>
            let lineEnd :=
              match line failure with
              | None => fileEnd f
              | Some O => lineStartAt f 0
              | Some (S line0) =>
                  if (S line0 <? length lineStarts)%nat
                  then lineStartAt f (S line0) else fileEnd f
              end in
            leadingSpace (getText lineStart lineEnd)
        | None => EmptyString
        end in
      let rule := orNull (ruleId failure) in
      Normal {| description := "Disable rule '" +:+ rule +:+ "'";
                fixName := "eslint:disable:" +:+ rule;
                changes :=
                  [{| changesFileName := fileName_;
                      textChanges :=
                        [{| newText := prefix +:+ "// eslint-disable-next-line " +:+ rule
                                       +:+ String "010"%char EmptyString;
                            changeStart := lineStart; changeLength := 0 |}] |}];
                fixId := None; fixAllDescription := None |}
  end.

(** The actions pushed for a fixable problem whose [fix] is present; [rule]
    is its rule id.  The single-fix action is pushed before [fixId] and
    [fixAllDescription] are assigned to it; the array holds the same object,
    so the assignment shows in the result. *)
Definition fixActions (rule : string) (problem : Problem) (documentFixes : ProblemMap)
    (fileName_ : string) : Completion (list CodeFixAction) :=
  if fixable problem then
    match fix_ (failure problem) with
    | Some _ =>
        codeFixAction ← getRuleFailureQuickFix (failure problem) fileName_;
        fixAll ← getRuleFailureFixAllQuickFix rule documentFixes fileName_;
        let codeFixAction :=
          match fixAll with
          | Some _ =>
              {| description := description codeFixAction;
                 fixName := fixName codeFixAction;
                 changes := changes codeFixAction;
                 fixId := Some (fromFailure (failure problem));
                 fixAllDescription := Some ("Fix all '" +:+ rule +:+ "'") |}
          | None => codeFixAction
          end in
        fixAllAutoFixable ← getFixAllAutoFixableQuickFix documentFixes fileName_;
        Normal [codeFixAction; fixAllAutoFixable]
    | None => Normal []
    end
  else Normal [].

(** [getCodeFixesAtPosition(delegate, fileName, start, end, errorCodes, ...)];
    the format options and user preferences are only passed on to the host. *)
Definition getCodeFixesAtPosition (config : Configuration)
    (delegate : string -> Z -> Z -> list Z -> Completion (list CodeFixAction))
    (fileName_ : string) (start end_ : Z) (errorCodes : list Z) (st : PluginState)
    : Completion (list CodeFixAction) * PluginState :=
  match delegate fileName_ start end_ errorCodes with
  | Throw e => (Throw e, st)
  | Normal fixes =>
      if suppressWhileTypeErrorsPresent config && (0 <? length fixes)%nat
      then (Normal fixes, st)
      else
        let st := info ("getCodeFixes " +:+
                        match head errorCodes with
                        | Some c => pretty c
                        | None => "undefined"
                        end) st in
        let st := info (stringify fixes) st in
        match codeFixActions st !! fileName_ with
        | Some documentFixes =>
            match get documentFixes start end_ with
            | Some problem =>
                match ruleId (failure problem) with
                | Some rule =>
                    if truthy (Some rule) then
                      (pushed ← fixActions rule problem documentFixes fileName_;
                       disable ← getDisableRuleQuickFix (failure problem) fileName_
                                   (getSourceFile fileName_);
                       Normal (fixes ++ pushed ++ [disable]), st)
                    else (Normal fixes, st)
                | None => (Normal fixes, st)
                end
            | None => (Normal fixes, st)
            end
        | None => (Normal fixes, st)
        end
  end.

(** [ts.CombinedCodeActions]; the actions of the plugin carry no commands. *)
Record CombinedCodeActions := { combinedChanges : list FileTextChanges }.

(** [getCombinedCodeFix(delegate, scope, fixId, ...)]; [fixId] is [None] when
    it is not a string. *)
Definition getCombinedCodeFix
    (delegate : string -> option string -> Completion CombinedCodeActions)
    (scopeFileName : string) (fixId_ : option string) (st : PluginState)
    : Completion CombinedCodeActions :=
  match toRuleName fixId_ with
  | Some ruleName =>
      if truthy (Some ruleName) then
        match codeFixActions st !! scopeFileName with
        | Some documentFixes =>
            fixAll ← getRuleFailureFixAllQuickFix ruleName documentFixes scopeFileName;
            match fixAll with
            | Some action => Normal {| combinedChanges := changes action |}
            | None => Normal {| combinedChanges := [] |}
            end
        | None => Normal {| combinedChanges := [] |}
        end
      else delegate scopeFileName fixId_
  | None => delegate scopeFileName fixId_
  end.

(** The fixable problems of a registry that carry [ruleName], in the order
    [values()] yields them. *)
Definition fixableOfRule (ruleName : string) (problems : ProblemMap) : list Problem :=
  filter (fun problem => fixable problem && hasRule ruleName problem = true) (values problems).

(** The fix of a problem is a single replacement object, as [LintMessage.fix]
    is declared. *)
Definition hasSingleFix (problem : Problem) : Prop :=
  exists r, fix_ (failure problem) = Some (SingleFix r).

(** The change of a file that applies the fix of one problem. *)
Definition changeOf (fileName_ : string) (problem : Problem) : FileTextChanges :=
  {| changesFileName := fileName_;
     textChanges := convertFixToTextChange <$> getReplacements (fix_ (failure problem)) |}.

(** *** decorate *)

(** A language service is the host's own, or the [Proxy] that [decorate]
    builds around one.  Only the proxy answers the private marker symbol. *)
Inductive LanguageService :=
| HostService (id : nat)
| Decorated (target : LanguageService).

Definition isEsLintLanguageServiceMarker (languageService : LanguageService) : bool :=
  match languageService with
  | Decorated _ => true
  | HostService _ => false
  end.

(** The [typescript] module object, of which [decorate] replaces
    [getSupportedCodeFixes]; it is given by the list it returns. *)
Record TsModule := { getSupportedCodeFixes : list string }.

(** [decorate(languageService)]; [None] is the [undefined] of a bare
    [return;]. *)
Definition decorate (languageService : LanguageService) (ts : TsModule)
    : option LanguageService * TsModule :=
  if isEsLintLanguageServiceMarker languageService
  then (None, ts)
  else (Some (Decorated languageService),
        {| getSupportedCodeFixes := getSupportedCodeFixes ts ++ [pretty ESLINT_ERROR_CODE] |}).

(** Whether a lint configuration is plausibly present: the condition under
    which [getSemanticDiagnostics] shows the warnings of a run. *)
Definition hasLintConfiguration (result : RunResult) : bool :=
  match configFilePath result with
  | Some p => truthy (Some p) && fileExists p
  | None => false
  end || fileExists (join getCurrentDirectory "eslint.json").

End WithHost.

(** The log entries that tell of a failed lint run: the one of the guard
    around the runner call, and the one of the guard around the whole pass. *)
Definition tellsFailure (entry : string) : Prop :=
  startsWith entry "eslint error " = true \/
  startsWith entry "eslint-language service error: " = true.

(** *** Words for the registry *)

(** The character [c] does not occur in [s]. *)
Fixpoint lacks (c : ascii) (s : string) : bool :=
  match s with
  | EmptyString => true
  | String d s' => negb (Ascii.eqb c d) && lacks c s'
  end.

(** A registry as [recordCodeAction] builds it: no key twice, and every
    problem fixable exactly as [isFixable] says of its finding. *)
Definition registryOk (m : ProblemMap) : Prop :=
  NoDup (fst <$> m) /\
  Forall (fun problem => fixable problem = isFixable (failure problem)) (values m).

Definition stateOk (st : PluginState) : Prop :=
  forall name m, codeFixActions st !! name = Some m -> registryOk m.

(** The problem [recordCodeAction] stores for a finding. *)
Definition problemOf (failure_ : LintMessage) : Problem :=
  {| failure := failure_; fixable := isFixable failure_ |}.

(** The registries after the findings of one pass have been recorded, one
    after the other, for the source file. *)
Definition recordInto (file : SourceFile) (problems : list LintMessage)
    (registries : gmap string ProblemMap) : gmap string ProblemMap :=
  foldl (fun registries problem =>
           let span := getTextSpan file problem in
           <[fileName file :=
               set (default [] (registries !! fileName file))
                   (spanStart span) (spanEnd span) (problemOf problem)]> registries)
        registries problems.

(** A string of blanks: spaces and tabs only. *)
Fixpoint allBlank (s : string) : bool :=
  match s with
  | EmptyString => true
  | String c s' => (Ascii.eqb c " "%char || Ascii.eqb c "009"%char) && allBlank s'
  end.

(** The string does not begin with a blank. *)
Definition startsUnindented (s : string) : bool :=
  match s with
  | EmptyString => true
  | String c _ => negb (Ascii.eqb c " "%char || Ascii.eqb c "009"%char)
  end.

End Plugin.

(** ** The design document's names for positions *)

Module Positions.
Import Failures Plugin.

(** The start offset of the 1-based [line] of the line table. *)
Definition lineStartOf (file : SourceFile) (line : nat) : Z := lineStartAt file (line - 1).

(** The end offset of the 1-based [line], before its line terminator. *)
Definition lineEndOf (file : SourceFile) (line : nat) : Z :=
  getLineEndOfPosition file (lineStartOf file line).

(** The number of lines the snapshot knows. *)
Definition lineCount (file : SourceFile) : nat := length (getLineStarts file).

End Positions.

(** ** Concrete inputs *)

Module Samples.
Import Failures Runner Plugin.

Definition newline : string := String "010"%char EmptyString.

(** The line table of a text whose lines end in a line feed. *)
Fixpoint lineStartsFrom (pos : Z) (text_ : string) : list Z :=
  match text_ with
  | EmptyString => []
  | String c rest =>
      if Ascii.eqb c "010"%char
      then (pos + 1) :: lineStartsFrom (pos + 1) rest
      else lineStartsFrom (pos + 1) rest
  end.

Definition computeLineStarts (text_ : string) : list Z := 0 :: lineStartsFrom 0 text_.

(** The 0-based line a position lies on. *)
Definition lineOfPosition (starts : list Z) (pos : Z) : nat :=
  (length (filter (fun s : Z => (s <= pos)%Z) starts) - 1)%nat.

(** A source file as the host presents a text with line-feed line ends. *)
Definition hostFile (name text_ : string) : SourceFile :=
  let starts := computeLineStarts text_ in
  let textEnd := Z.of_nat (String.length text_) in
  {| fileName := name;
     getLineStarts := starts;
     getLineEndOfPosition := fun pos =>
       let l := lineOfPosition starts pos in
       if (length starts <=? l + 1)%nat then textEnd
       else default 0 (starts !! (l + 1)%nat) - 1;
     getPositionOfLineAndCharacter := fun l character => default 0 (starts !! l) + character;
     fileEnd := textEnd;
     lineStarts_nonempty := ltac:(discriminate) |}.

(** Three lines: ["ab"], ["cdef"] and ["g"], starting at 0, 3 and 8. *)
Definition threeLines : SourceFile :=
  hostFile "/proj/a.ts" ("ab" +:+ newline +:+ "cdef" +:+ newline +:+ "g").

Definition replacement (from to : Z) (with_ : string) : RuleFix :=
  {| range := (from, to); text := with_ |}.

(** A finding of [rule] at [(line, column)], ending at [(endLine, endColumn)]. *)
Definition finding (rule : string) (at_ : nat * Z) (upTo : option (nat * Z))
    (fixValue : option FixValue) : LintMessage :=
  {| ruleId := Some rule; message := "m"; severity := 2;
     line := Some (fst at_); column := Some (snd at_);
     endLine := fst <$> upTo; endColumn := snd <$> upTo;
     fix_ := fixValue |}.

(** A finding given only by its fix. *)
Definition fixing (rule : string) (fixValue : FixValue) : LintMessage :=
  finding rule (1%nat, 1) None (Some fixValue).

(** Paths are matched literally and made relative by dropping the directory
    and the separator after it; every directory exists. *)
Definition node : Node :=
  {| relative := fun dir path =>
       if String.prefix (dir +:+ "/") path
       then String.substring (String.length dir + 1)
                             (String.length path - (String.length dir + 1)) path
       else path;
     minimatch := String.eqb;
     dirExists := fun _ => true |}.

(** An analyzer that warns once and reports one finding for the file. *)
Definition library : Library :=
  {| newCLIEngine := fun _ p =>
       {| emitted := []; outcome := Normal (); cwdAfter := cwd p;
          consoleWarnAfter := consoleWarn p |};
     executeOnFiles := fun _ files p =>
       {| emitted := ["deprecated rule"];
          outcome := Normal {| errorCount := 1; warningCount := 0;
                               results := (fun f => {| filePath := f;
                                                       messages := [finding "quotemark" (1%nat, 1) None None] |})
                                          <$> files;
                               fixableErrorCount := 0; fixableWarningCount := 0;
                               usedDeprecatedRules := [] |};
          cwdAfter := cwd p; consoleWarnAfter := consoleWarn p |} |}.

Definition process : Process :=
  {| cwd := "/home"; consoleWarn := HostWarn 0; traced := []; linted := [] |}.

Definition runConfiguration : RunConfiguration :=
  {| allowInlineConfig := None; reportUnusedDisableDirectives := None;
     jsEnable := false; configFile := None; ignoreDefinitionFiles := true;
     exclude := []; packageManager := None; workspaceFolderPath := Some "/proj" |}.

Definition configuration : Configuration :=
  {| suppressWhileTypeErrorsPresent := true; cfgIgnoreDefinitionFiles := true;
     cfgJsEnable := false; cfgExclude := None; cfgPackageManager := None;
     alwaysShowRuleFailuresAsWarnings := None; cfgConfigFile := None |}.

(** A host whose program knows [threeLines], and whose runner crashes. *)
Definition host : Host :=
  {| ESLINT_ERROR_CODE := 1; ESLINT_ERROR_SOURCE := "eslint";
     normalize := fun path => path;
     join := fun dir name => dir +:+ "/" +:+ name;
     fileExists := fun _ => false;
     getSourceFile := fun name =>
       if String.eqb name "/proj/a.ts" then Some threeLines else None;
     getCurrentDirectory := "/proj";
     runEsLint := fun _ _ => Throw (ErrorObject "Error" "Cannot find module" "");
     ensureWatching := fun _ => Normal ();
     getScriptSnapshot := fun _ => None;
     stringify := fun _ => "[]" |}.

(** An analyzer that crashes in [executeOnFiles], having changed the working
    directory and replaced [console.warn]. *)
Definition crashingLibrary : Library :=
  {| newCLIEngine := fun _ p =>
       {| emitted := []; outcome := Normal (); cwdAfter := cwd p;
          consoleWarnAfter := consoleWarn p |};
     executeOnFiles := fun _ _ _ =>
       {| emitted := []; outcome := Throw (ErrorObject "Error" "Parsing error" "");
          cwdAfter := "/tmp"; consoleWarnAfter := HostWarn 9 |} |}.

(** The configuration of the plugin with suppression switched off. *)
Definition lintingConfiguration : Configuration :=
  {| suppressWhileTypeErrorsPresent := false; cfgIgnoreDefinitionFiles := true;
     cfgJsEnable := false; cfgExclude := None; cfgPackageManager := None;
     alwaysShowRuleFailuresAsWarnings := None; cfgConfigFile := None |}.

(** Three findings with one replacement each: the second touches the first. *)
Definition touching : list LintMessage :=
  [fixing "a" (SingleFix (replacement 5 9 "x"));
   fixing "b" (SingleFix (replacement 0 5 "y"));
   fixing "c" (SingleFix (replacement 10 12 "z"))].

(** A finding whose two replacements are listed out of position order, and a
    finding whose replacement lies inside the first of them. *)
Definition outOfOrder : LintMessage :=
  fixing "a" (FixArray [replacement 100 200 "x"; replacement 0 1 "y"]).
Definition inside : LintMessage :=
  fixing "b" (SingleFix (replacement 150 160 "z")).

(** Two fixable findings of rule [quotemark] on the first two lines. *)
Definition quoteA : LintMessage :=
  finding "quotemark" (1%nat, 1) (Some (1%nat, 3)) (Some (SingleFix (replacement 0 2 "'a'"))).
Definition quoteB : LintMessage :=
  finding "quotemark" (2%nat, 1) (Some (2%nat, 5)) (Some (SingleFix (replacement 3 7 "'b'"))).

(** A fixable finding of rule [semi] on the third line, its fix an array
    of one replacement. *)
Definition semiArray : LintMessage :=
  finding "semi" (3%nat, 1) (Some (3%nat, 2)) (Some (FixArray [replacement 8 9 ";"])).

(** The same two findings with their fixes given as arrays of one
    replacement. *)
Definition quoteArrayA : LintMessage :=
  finding "quotemark" (1%nat, 1) (Some (1%nat, 3)) (Some (FixArray [replacement 0 2 "'a'"])).
Definition quoteArrayB : LintMessage :=
  finding "quotemark" (2%nat, 1) (Some (2%nat, 5)) (Some (FixArray [replacement 3 7 "'b'"])).

(** A registry holding the given findings as fixable problems, keyed by
    their spans in [threeLines]. *)
Definition registryOf (findings : list LintMessage) : ProblemMap :=
  foldl (fun m f =>
           let span := getTextSpan threeLines f in
           set m (spanStart span) (spanEnd span) {| failure := f; fixable := true |})
        [] findings.

Definition stateWith (problems : ProblemMap) : PluginState :=
  {| codeFixActions := {[ "/proj/a.ts" := problems ]}; logged := []; runs := [] |}.

(** A host whose runner reports [quoteA] and [quoteB] for the file, and a
    finding for another file, with one warning. *)
Definition lintingHost : Host :=
  {| ESLINT_ERROR_CODE := 1; ESLINT_ERROR_SOURCE := "eslint";
     normalize := fun path => path;
     join := fun dir name => dir +:+ "/" +:+ name;
     fileExists := fun _ => false;
     getSourceFile := fun name =>
       if String.eqb name "/proj/a.ts" then Some threeLines else None;
     getCurrentDirectory := "/proj";
     runEsLint := fun name _ =>
       Normal {| lintResult :=
                   {| errorCount := 3; warningCount := 0;
                      results := [ {| filePath := name; messages := [quoteA; quoteB] |};
                                   {| filePath := "/proj/b.ts"; messages := [inside] |} ];
                      fixableErrorCount := 3; fixableWarningCount := 0;
                      usedDeprecatedRules := [] |};
                 warnings := ["deprecated rule"];
                 resultWorkspaceFolderPath := None; configFilePath := None |};
     ensureWatching := fun _ => Normal ();
     getScriptSnapshot := fun _ => None;
     stringify := fun _ => "[]" |}.

Definition emptyState : PluginState :=
  {| codeFixActions := ∅; logged := []; runs := [] |}.

Definition hostDiagnostic : Diagnostic :=
  {| diagFile := None; diagStart := 0; diagLength := 1; messageText := "type error";
     category := Error; diagSource := None; code := 2322 |}.

Definition hostFix : CodeFixAction :=
  {| description := "Add missing import"; fixName := "import"; changes := [];
     fixId := None; fixAllDescription := None |}.

(** A finding without a fix, on the third line. *)
Definition plain : LintMessage :=
  finding "no-console" (3%nat, 1) (Some (3%nat, 2)) None.

(** The state after [findings] have been recorded for [threeLines]. *)
Definition stateOf (findings : list LintMessage) : PluginState :=
  {| codeFixActions := recordInto threeLines findings ∅; logged := []; runs := [] |}.

(** The report of one run: two findings for [name], one for another file. *)
Definition reportFor (name : string) : LintReport :=
  {| errorCount := 3; warningCount := 0;
     results := [ {| filePath := name; messages := [quoteA; quoteB] |};
                  {| filePath := "/proj/b.ts"; messages := [inside] |} ];
     fixableErrorCount := 3; fixableWarningCount := 0;
     usedDeprecatedRules := [] |}.

(** Two lines, the second indented by two spaces. *)
Definition indentedText : string := "a" +:+ newline +:+ "  b".
Definition indented : SourceFile := hostFile "/proj/i.ts" indentedText.

Definition textBetween (text_ : string) (start : option Z) (end_ : Z) : string :=
  String.substring (Z.to_nat (default 0 start)) (Z.to_nat (end_ - default 0 start)) text_.

(** A host that has a script snapshot of [indented]. *)
Definition snapshotHost : Host :=
  {| ESLINT_ERROR_CODE := 1; ESLINT_ERROR_SOURCE := "eslint";
     normalize := fun path => path;
     join := fun dir name => dir +:+ "/" +:+ name;
     fileExists := fun _ => false;
     getSourceFile := fun name =>
       if String.eqb name "/proj/i.ts" then Some indented else None;
     getCurrentDirectory := "/proj";
     runEsLint := fun _ _ => Normal emptyResult;
     ensureWatching := fun _ => Normal ();
     getScriptSnapshot := fun name =>
       if String.eqb name "/proj/i.ts" then Some (textBetween indentedText) else None;
     stringify := fun _ => "[]" |}.

(** An analyzer that reports nothing when asked to fix, and is [library]
    otherwise. *)
Definition eagerLibrary : Library :=
  {| newCLIEngine := newCLIEngine library;
     executeOnFiles := fun options files p =>
       if optFix options
       then {| emitted := []; outcome := Normal emptyLintResult; cwdAfter := cwd p;
               consoleWarnAfter := consoleWarn p |}
       else executeOnFiles library options files p |}.

(** An analyzer whose engine cannot be made for [/proj/a.ts] in [/proj],
    and is made for every other file and in every other directory. *)
Definition pickyLibrary : Library :=
  {| newCLIEngine := fun options p =>
       {| emitted := [];
          outcome := if String.eqb (filename options) "/proj/a.ts" && String.eqb (cwd p) "/proj"
                     then Throw (ErrorObject "Error" "No configuration" "")
                     else Normal ();
          cwdAfter := cwd p; consoleWarnAfter := consoleWarn p |};
     executeOnFiles := executeOnFiles library |}.

(** As [node], but only the directory [/home] exists. *)
Definition bareNode : Node :=
  {| relative := @relative node; minimatch := String.eqb;
     dirExists := fun dir => String.eqb dir "/home" |}.

(** A cache that keeps every entry, the latest first. *)
Definition listCache : MruCache :=
  {| Cache := list (string * string);
     cacheHas := fun name c => existsb (fun entry => String.eqb (fst entry) name) c;
     cacheGet := fun name c =>
       (snd <$> List.find (fun entry => String.eqb (fst entry) name) c, c);
     cacheSet := fun name path c =>
       (name, path) :: List.filter (fun entry => negb (String.eqb (fst entry) name)) c |}.

Definition localEsLint : string := "/proj/node_modules/eslint/lib/api.js".
Definition globalEsLint : string := "/usr/lib/node_modules/eslint/lib/api.js".

(** A machine on which [eslint] is installed in [/proj] and globally with
    npm: it resolves in [/proj], and elsewhere only with the global path
    as [NODE_PATH]; the node path [/opt/node] exists; there is no pnpm. *)
Definition loader : Loader :=
  {| existsSync := fun path => String.eqb path "/opt/node";
     dirname := fun path => if String.prefix "/proj/" path then "/proj" else "/other";
     delimiter := ":";
     requireModule := fun path =>
       if String.eqb path localEsLint || String.eqb path globalEsLint
       then Normal library
       else Throw (ErrorObject "Error" "Cannot find module" "");
     resolveGlobalNodePath := Some "/usr/lib/node_modules";
     resolveGlobalYarnPath := None;
     pnpmRoot := Throw (ErrorObject "Error" "Command failed: pnpm root -g" "");
     resolveOutput := fun cwd_ environment =>
       if String.eqb cwd_ "/proj" then Normal localEsLint
       else if bool_decide (environment !! "NODE_PATH" = Some "/usr/lib/node_modules")
            then Normal globalEsLint
            else Normal "" |}.

(** A runner that has loaded nothing yet, with [cache] and the environment
    [environment]. *)
Definition runnerStateWith (cache : @Cache listCache)
    (environment : gmap string string) : @RunnerState listCache :=
  {| proc := process; env := environment; eslintPath2Library := ∅;
     document2LibraryCache := cache; globalPackageManagerPath := fun _ => None;
     required := []; globalLookups := [] |}.

Definition runnerState : @RunnerState listCache :=
  runnerStateWith [] {[ "PATH" := "/usr/bin" ]}.

End Samples.

(** * Properties *)

Import Js Failures JsString Runner Plugin Positions.

(** ** The non-overlapping replacement resolver *)

Section Resolver.

Implicit Types (f : LintMessage) (fs : list LintMessage) (e : Z).

Lemma hasReplacement_head f :
  hasReplacement f = true ->
  exists r, head (getReplacements (fix_ f)) = Some r /\ startOfFirst f = fst (range r).
Proof.
  unfold hasReplacement, startOfFirst.
  destruct (getReplacements (fix_ f)) as [|r rs]; [discriminate|].
  intros _. exists r. split; reflexivity.
Qed.

Lemma hasReplacement_last f :
  hasReplacement f = true ->
  exists r, last (getReplacements (fix_ f)) = Some r /\ endOfLast f = snd (range r).
Proof.
  unfold hasReplacement, endOfLast.
  destruct (getReplacements (fix_ f)) as [|r rs] eqn:E; [discriminate|].
  intros _. destruct (last (r :: rs)) as [x|] eqn:L.
  - exists x. split; reflexivity.
  - apply last_None in L. discriminate.
Qed.

Lemma keyed_all fs :
  Forall (fun f => hasReplacement f = true) fs ->
  keyed fs = Normal ((fun f => (startOfFirst f, f)) <$> fs).
Proof.
  induction 1 as [|f fs Hf _ IH]; [reflexivity|].
  destruct (hasReplacement_head f Hf) as (r & Hr & Hs).
  cbn [keyed]. unfold firstStart, getReplacement.
  rewrite <- head_lookup, Hr, IH. cbn. rewrite Hs. reflexivity.
Qed.

Lemma insertByStart_perm x l : insertByStart x l ≡ₚ x :: l.
Proof.
  induction l as [|y l IH]; cbn; [reflexivity|].
  destruct (fst x <=? fst y); [reflexivity|].
  rewrite IH. apply Permutation_swap.
Qed.

Lemma sortByStart_perm l : sortByStart l ≡ₚ l.
Proof.
  induction l as [|x l IH]; cbn; [reflexivity|].
  rewrite insertByStart_perm. by rewrite IH.
Qed.

Lemma insertByStart_sorted x l :
  StronglySorted byKey l -> StronglySorted byKey (insertByStart x l).
Proof.
  induction 1 as [|y l Hl IH Hy]; cbn.
  - repeat constructor.
  - destruct (Z.leb_spec (fst x) (fst y)) as [Hxy|Hxy].
    + constructor; [by constructor|].
      constructor; [exact Hxy|].
      eapply Forall_impl; [exact Hy|]. unfold byKey. intros z Hz. lia.
    + constructor; [exact IH|].
      rewrite insertByStart_perm. constructor; [unfold byKey; lia | exact Hy].
Qed.

Lemma sortByStart_sorted l : StronglySorted byKey (sortByStart l).
Proof.
  induction l as [|x l IH]; cbn; [constructor|].
  by apply insertByStart_sorted.
Qed.

Lemma sortedByFirstStart_perm fs : sortedByFirstStart fs ≡ₚ fs.
Proof.
  unfold sortedByFirstStart. rewrite sortByStart_perm.
  rewrite <- list_fmap_compose. cbn. by rewrite list_fmap_id.
Qed.

Lemma keys_agree fs :
  Forall (fun x : Z * LintMessage => fst x = startOfFirst (snd x))
         (sortByStart ((fun f => (startOfFirst f, f)) <$> fs)).
Proof.
  rewrite sortByStart_perm. apply Forall_fmap, Forall_true. reflexivity.
Qed.

Lemma StronglySorted_keys (l : list (Z * LintMessage)) :
  Forall (fun x => fst x = startOfFirst (snd x)) l ->
  StronglySorted byKey l -> StronglySorted byFirstStart (snd <$> l).
Proof.
  intros Hk Hs. induction Hs as [|x l Hl IH Hx]; cbn; [constructor|].
  apply Forall_cons in Hk as [Hkx Hkl].
  constructor; [by apply IH|].
  apply Forall_fmap. rewrite Forall_forall in Hx, Hkl |- *.
  intros y Hy. unfold byFirstStart. cbn.
  specialize (Hx y Hy). specialize (Hkl y Hy). unfold byKey in Hx. lia.
Qed.

Lemma sortedByFirstStart_sorted fs : StronglySorted byFirstStart (sortedByFirstStart fs).
Proof.
  unfold sortedByFirstStart.
  apply StronglySorted_keys; [apply keys_agree | apply sortByStart_sorted].
Qed.

Lemma sortFailures_all fs :
  Forall (fun f => hasReplacement f = true) fs ->
  sortFailures fs = Normal (sortedByFirstStart fs).
Proof.
  intros H. destruct fs as [|f [|g fs]]; [reflexivity|reflexivity|].
  unfold sortFailures. rewrite (keyed_all _ H). reflexivity.
Qed.

Lemma walk_retainedAfter fs : forall (i : nat) acc a,
  Forall (fun f => hasReplacement f = true) fs ->
  last acc = Some a ->
  walk (S i) fs acc = Normal (acc ++ replacementsOf fs (retainedAfter (snd (range a)) fs)).
Proof.
  induction fs as [|f fs IH]; intros i acc a Hall Hlast; cbn.
  - by rewrite app_nil_r.
  - apply Forall_cons in Hall as [Hf Hall].
    destruct (hasReplacement_head f Hf) as (b & Hb & Hs).
    destruct (hasReplacement_last f Hf) as (c & Hc & He).
    rewrite Hlast, Hb. unfold overlaps. rewrite Hs.
    rewrite Z.geb_leb, <- Z.ltb_antisym.
    destruct (snd (range a) <? fst (range b)) eqn:Hlt; cbn.
    + rewrite (IH _ _ c); [|done|].
      * rewrite He. by rewrite <- app_assoc.
      * rewrite last_app, Hc. reflexivity.
    + by apply IH.
Qed.

Lemma walk_retained fs :
  Forall (fun f => hasReplacement f = true) fs ->
  walk 0 fs [] = Normal (replacementsOf fs (retained fs)).
Proof.
  destruct fs as [|f fs]; [reflexivity|].
  intros Hall. apply Forall_cons in Hall as [Hf Hall].
  destruct (hasReplacement_last f Hf) as (c & Hc & He).
  cbn. rewrite (walk_retainedAfter fs 0 _ c Hall Hc). by rewrite He.
Qed.

Lemma retainedAfter_start fs : forall e (j : nat) fj,
  StronglySorted byFirstStart fs ->
  fs !! j = Some fj -> retainedAfter e fs !! j = Some true ->
  e < startOfFirst fj.
Proof.
  induction fs as [|f fs IH]; intros e j fj Hs Hj Hm; [done|].
  apply StronglySorted_inv in Hs as [Hs Hf].
  cbn in Hm. destruct j as [|j]; cbn in Hj.
  - injection Hj as ->. destruct (Z.ltb_spec e (startOfFirst fj)); [done|].
    cbn in Hm. discriminate.
  - assert (startOfFirst f <= startOfFirst fj) as Hle.
    { rewrite Forall_forall in Hf. apply Hf. eapply list_elem_of_lookup_2, Hj. }
    destruct (Z.ltb_spec e (startOfFirst f)); cbn in Hm.
    + lia.
    + eapply IH; eauto.
Qed.

Lemma retainedAfter_gap fs : forall e (i j : nat) fi fj,
  StronglySorted byFirstStart fs ->
  (i < j)%nat ->
  fs !! i = Some fi -> fs !! j = Some fj ->
  retainedAfter e fs !! i = Some true -> retainedAfter e fs !! j = Some true ->
  endOfLast fi < startOfFirst fj.
Proof.
  induction fs as [|f fs IH]; intros e i j fi fj Hs Hij Hi Hj Hmi Hmj; [done|].
  pose proof Hs as Hs'. apply StronglySorted_inv in Hs' as [Hs' _].
  destruct j as [|j]; [lia|]. cbn in Hj.
  destruct i as [|i]; cbn in Hi.
  - injection Hi as ->. cbn in Hmi, Hmj.
    destruct (e <? startOfFirst fi); cbn in Hmi, Hmj; [|discriminate].
    eapply retainedAfter_start; eauto.
  - cbn in Hmi, Hmj.
    destruct (e <? startOfFirst f); cbn in Hmi, Hmj;
      eapply (IH _ i j); eauto; lia.
Qed.

Lemma retained_gap fs (i j : nat) fi fj :
  StronglySorted byFirstStart fs ->
  (i < j)%nat ->
  fs !! i = Some fi -> fs !! j = Some fj ->
  retained fs !! i = Some true -> retained fs !! j = Some true ->
  endOfLast fi < startOfFirst fj.
Proof.
  destruct fs as [|f fs]; [done|].
  intros Hs Hij Hi Hj Hmi Hmj.
  apply StronglySorted_inv in Hs as [Hs _].
  destruct j as [|j]; [lia|]. cbn in Hj, Hmj.
  destruct i as [|i]; cbn in Hi, Hmi.
  - injection Hi as ->. eapply retainedAfter_start; eauto.
  - eapply (retainedAfter_gap fs _ i j); eauto. lia.
Qed.

Lemma inPositionOrder_bounds f r :
  inPositionOrder f = true -> r ∈ getReplacements (fix_ f) ->
  startOfFirst f <= fst (range r) /\ snd (range r) <= endOfLast f.
Proof.
  unfold inPositionOrder. rewrite forallb_forall. intros H Hr.
  apply list_elem_of_In in Hr. specialize (H r Hr).
  apply andb_prop in H as [H1 H2]. lia.
Qed.

End Resolver.

(** Claim C1, amended: for every list of findings that each carry at least
    one replacement, [getNonOverlappingReplacements] sorts the findings
    ascending by the start of their first replacement (a permutation of the
    input), and returns the replacements of the retained findings: the first
    finding always, a later one exactly when the end of the last retained
    replacement is strictly before the start of its first replacement
    ([retained]).  When moreover every finding lists its replacements in
    position order, no two retained findings own replacements [a] (of the
    finding sorted first) and [b] (of the other) with [a.end >= b.start]. *)
Theorem getNonOverlappingReplacements_retains (failures : list LintMessage) :
  Forall (fun f => hasReplacement f = true) failures ->
  sortFailures failures = Normal (sortedByFirstStart failures) /\
  sortedByFirstStart failures ≡ₚ failures /\
  StronglySorted (fun f g => startOfFirst f <= startOfFirst g) (sortedByFirstStart failures) /\
  getNonOverlappingReplacements failures =
    Normal (replacementsOf (sortedByFirstStart failures) (retained (sortedByFirstStart failures))) /\
  (Forall (fun f => inPositionOrder f = true) failures ->
   noConflictRetained (sortedByFirstStart failures) (retained (sortedByFirstStart failures))).
Proof.
  intros Hall.
  assert (Forall (fun f => hasReplacement f = true) (sortedByFirstStart failures)) as Hall'.
  { by rewrite sortedByFirstStart_perm. }
  split; [by apply sortFailures_all|].
  split; [apply sortedByFirstStart_perm|].
  split; [apply sortedByFirstStart_sorted|].
  split.
  - unfold getNonOverlappingReplacements. rewrite (sortFailures_all _ Hall).
    cbn. by apply walk_retained.
  - intros Hpos i j fi fj a b Hij Hi Hj Ha Hb Hab [Hmi Hmj].
    assert (Forall (fun f => inPositionOrder f = true) (sortedByFirstStart failures)) as Hpos'.
    { by rewrite sortedByFirstStart_perm. }
    rewrite Forall_forall in Hpos'.
    pose proof (retained_gap _ i j fi fj (sortedByFirstStart_sorted failures) Hij Hi Hj Hmi Hmj) as Hgap.
    destruct (inPositionOrder_bounds fi a) as [_ Ha']; [|done|].
    { apply Hpos'. eapply list_elem_of_lookup_2, Hi. }
    destruct (inPositionOrder_bounds fj b) as [Hb' _]; [|done|].
    { apply Hpos'. eapply list_elem_of_lookup_2, Hj. }
    lia.
Qed.

(** ** The position mapper *)

Lemma positionResolver_reads_in_range (file : SourceFile) (line : nat) :
  (1 <= line <= lineCount file)%nat ->
  getLineStarts file !! (line - 1)%nat = Some (lineStartOf file line).
Proof.
  intros Hl. unfold lineStartOf, lineStartAt, lineCount in *.
  destruct (getLineStarts file !! (line - 1)%nat) as [z|] eqn:E; [reflexivity|].
  apply lookup_ge_None in E. lia.
Qed.

Lemma lastLine_reads_in_range (file : SourceFile) :
  getLineStarts file !! (lineCount file - 1)%nat = Some (lineStartOf file (lineCount file)).
Proof.
  apply positionResolver_reads_in_range. unfold lineCount.
  pose proof (lineStarts_nonempty file) as Hne.
  destruct (getLineStarts file); [done|]. cbn. lia.
Qed.

(** Claim C2: the position resolver returns [null] exactly when the line is
    absent or zero; a line beyond the line table resolves to the end of the
    last known line; a missing column resolves to the end of the line; a
    column past the end of the line is clamped to the end of the line; and
    the span takes its start from [(line, column)] or else 0, its end from
    [(endLine, endColumn)] or else its start. *)
Theorem positionResolver_clamps (file : SourceFile) :
  (forall line column,
     positionResolver file line column = None <-> line = None \/ line = Some 0%nat) /\
  (forall line column,
     (lineCount file < line)%nat ->
     positionResolver file (Some line) column = Some (lineEndOf file (lineCount file))) /\
  (forall line,
     (1 <= line <= lineCount file)%nat ->
     positionResolver file (Some line) None = Some (lineEndOf file line)) /\
  (forall line column,
     (1 <= line <= lineCount file)%nat ->
     lineEndOf file line - lineStartOf file line < column - 1 ->
     positionResolver file (Some line) (Some column) = Some (lineEndOf file line)) /\
  (forall lintMessage,
     let span := getTextSpan file lintMessage in
     spanStart span =
       default 0 (positionResolver file (line lintMessage) (column lintMessage)) /\
     spanEnd span =
       default (spanStart span)
               (positionResolver file (endLine lintMessage) (endColumn lintMessage)) /\
     spanLength span = spanEnd span - spanStart span).
Proof.
  split; [|split; [|split; [|split]]].
  - intros line column. split.
    + destruct line as [[|l]|]; [by right|  |by left].
      unfold positionResolver.
      destruct (length (getLineStarts file) <? S l)%nat; [discriminate|].
      destruct column; [|discriminate].
      destruct (_ <=? _); discriminate.
    + intros [->| ->]; reflexivity.
  - intros line column Hl.
    destruct line as [|l]; [lia|]. unfold lineCount, positionResolver in *.
    destruct (Nat.ltb_spec (length (getLineStarts file)) (S l)); [reflexivity|lia].
  - intros line Hl.
    destruct line as [|l]; [lia|]. unfold lineCount, positionResolver in *.
    destruct (Nat.ltb_spec (length (getLineStarts file)) (S l)); [lia|].
    unfold lineEndOf, lineStartOf. cbn. by rewrite Nat.sub_0_r.
  - intros line column Hl Hc.
    destruct line as [|l]; [lia|]. unfold lineCount, positionResolver in *.
    destruct (Nat.ltb_spec (length (getLineStarts file)) (S l)); [lia|].
    unfold lineEndOf, lineStartOf in *. cbn in *. rewrite Nat.sub_0_r in *.
    destruct (Z.leb_spec (column - 1)
                (getLineEndOfPosition file (lineStartAt file l) - lineStartAt file l)); [lia|].
    reflexivity.
  - intros lintMessage. cbn. repeat split.
Qed.


(** ** The diagnostic overlay *)

Section Overlay.
Context `{Host}.

Lemma mapGet_mapSet k problem (m : ProblemMap) : mapGet k (mapSet k problem m) = Some problem.
Proof.
  induction m as [|[k' p'] m IH]; cbn.
  - by rewrite String.eqb_refl.
  - destruct (String.eqb k' k) eqn:E; cbn; rewrite E; [reflexivity|exact IH].
Qed.

Lemma recordCodeAction_stores failure_ file st :
  exists st' problems,
    recordCodeAction failure_ (Some file) st = (Normal (), st') /\
    codeFixActions st' !! fileName file = Some problems /\
    get problems (spanStart (getTextSpan file failure_)) (spanEnd (getTextSpan file failure_))
    = Some {| failure := failure_; fixable := isFixable failure_ |} /\
    logged st' = logged st /\ runs st' = runs st.
Proof.
  eexists _, _. split; [reflexivity|]. cbn.
  split; [apply lookup_insert_eq|].
  split; [apply mapGet_mapSet|]. split; reflexivity.
Qed.

Lemma isFixable_iff failure_ :
  isFixable failure_ = true <->
  exists v, fix_ failure_ = Some v /\ forall rs, v = FixArray rs -> rs <> [].
Proof.
  unfold isFixable, replacementsAreEmpty.
  destruct (fix_ failure_) as [[r|rs]|]; cbn.
  - split; [|done]. intros _. exists (SingleFix r). split; [done|]. discriminate.
  - destruct rs as [|r rs]; cbn.
    + split; [discriminate|]. intros (v & [= <-] & Hv). by destruct (Hv [] eq_refl).
    + split; [|done]. intros _. exists (FixArray (r :: rs)). split; [done|].
      intros ? [= <-]. discriminate.
  - split; [discriminate|]. intros (v & Hv & _). discriminate.
Qed.

Lemma isFixable_replacements failure_ :
  isFixable failure_ = true <-> getReplacements (fix_ failure_) <> [].
Proof.
  unfold isFixable, replacementsAreEmpty, getReplacements.
  destruct (fix_ failure_) as [[r|[|r rs]]|]; cbn; split; try done.
Qed.

Lemma runnerFailed_spec err st :
  exists thrown st',
    runnerFailed err st = (thrown, st') /\
    codeFixActions st' = codeFixActions st /\ runs st' = runs st /\
    match thrown with
    | None => exists entry, logged st' = logged st ++ [entry] /\ tellsFailure entry
    | Some e => logged st' = logged st /\ exists name msg stack, e = ErrorObject name msg stack
    end.
Proof.
  destruct err as [name msg stack|shown [msg|]|]; cbn; eexists _, _;
    (split; [reflexivity|]); cbn; repeat split.
  - eexists. split; [reflexivity|]. left. reflexivity.
  - eexists. split; [reflexivity|]. left. reflexivity.
  - eexists. split; [reflexivity|]. left. reflexivity.
  - unfold typeError. eauto.
Qed.

Lemma reportProblems_thrown config problems : forall file diagnostics st thrown diagnostics' st',
  reportProblems config problems file diagnostics st = (Some thrown, diagnostics', st') ->
  exists name msg stack, thrown = ErrorObject name msg stack.
Proof.
  induction problems as [|problem rest IH]; intros file diagnostics st thrown d' st'; cbn.
  - discriminate.
  - unfold makeDiagnostic, getTextSpanOf, recordCodeAction.
    destruct file as [f|]; cbn.
    + apply IH.
    + destruct (lineGiven (line problem) || lineGiven (endLine problem)); cbn.
      * intros [= <- _ _]. unfold typeError. eauto.
      * intros [= <- _ _]. unfold typeError. eauto.
Qed.

Lemma lintInto_thrown config fileName_ diagnostics st thrown diagnostics' st' :
  lintInto config fileName_ diagnostics st = (Some thrown, diagnostics', st') ->
  exists name msg stack, thrown = ErrorObject name msg stack.
Proof.
  unfold lintInto.
  destruct (cfgIgnoreDefinitionFiles config && endsWith fileName_ ".d.ts"); [discriminate|].
  set (st1 := noteRun _ _).
  destruct (runEsLint fileName_ (runConfigurationOf config)) as [result|err].
  - set (watched := match configFilePath result with Some p => _ | None => _ end).
    destruct watched as [[]|err].
    + unfold publish.
      destruct (_ || _); apply reportProblems_thrown.
    + destruct (runnerFailed_spec err st1) as (t & s & -> & _ & _ & Ht).
      intros [= -> _ _]. destruct Ht as [_ Ht]. exact Ht.
  - destruct (runnerFailed_spec err st1) as (t & s & -> & _ & _ & Ht).
    intros [= -> _ _]. destruct Ht as [_ Ht]. exact Ht.
Qed.

End Overlay.

(** Claim C3: when the runner throws, [getSemanticDiagnostics] returns the
    host's diagnostics as the host gave them, and, the runner having been
    invoked, the log tells of the failure; and whatever the lint subsystem
    does, [getSemanticDiagnostics] completes normally once the host's
    delegate has. *)
Theorem getSemanticDiagnostics_contains_runner_failure `{Host}
    (config : Configuration) (delegate : string -> Completion (list Diagnostic))
    (fileName_ : string) (diagnostics : list Diagnostic) (st : PluginState) :
  delegate fileName_ = Normal diagnostics ->
  (forall err, runEsLint fileName_ (runConfigurationOf config) = Throw err ->
     exists st' entries,
       getSemanticDiagnostics config delegate fileName_ st = (Normal diagnostics, st') /\
       logged st' = logged st ++ entries /\
       (runs st' = runs st \/ runs st' = runs st ++ [fileName_]) /\
       (runs st' = runs st ++ [fileName_] -> Exists tellsFailure entries)) /\
  (exists diagnostics' st',
     getSemanticDiagnostics config delegate fileName_ st = (Normal diagnostics', st')).
Proof.
  intros Hd. unfold getSemanticDiagnostics. rewrite Hd. split.
  - intros err Herr.
    destruct ((0 <? length diagnostics)%nat && suppressWhileTypeErrorsPresent config).
    { exists st, []. rewrite app_nil_r. repeat split; auto.
      intros Hr. apply (f_equal length) in Hr. rewrite length_app in Hr. cbn in Hr. lia. }
    unfold lintInto.
    destruct (cfgIgnoreDefinitionFiles config && endsWith fileName_ ".d.ts").
    { eexists _, _. split; [reflexivity|]. cbn. split; [reflexivity|]. split; [by left|].
      intros Hr. apply (f_equal length) in Hr. rewrite length_app in Hr. cbn in Hr. lia. }
    rewrite Herr.
    destruct err as [name msg stack|shown [msg|]|]; cbn.
    + eexists _, _. split; [reflexivity|]. cbn. rewrite <- app_assoc.
      split; [reflexivity|]. split; [by right|].
      intros _. apply Exists_cons_tl, Exists_cons_hd. left. reflexivity.
    + eexists _, _. split; [reflexivity|]. cbn. rewrite <- app_assoc.
      split; [reflexivity|]. split; [by right|].
      intros _. apply Exists_cons_tl, Exists_cons_hd. left. reflexivity.
    + eexists _, _. split; [reflexivity|]. cbn. rewrite <- app_assoc.
      split; [reflexivity|]. split; [by right|].
      intros _. apply Exists_cons_tl, Exists_cons_hd. left. reflexivity.
    + eexists _, _. split; [reflexivity|]. cbn. rewrite <- !app_assoc.
      split; [reflexivity|]. split; [by right|].
      intros _. apply Exists_cons_tl, Exists_cons_hd. right. reflexivity.
  - destruct ((0 <? length diagnostics)%nat && suppressWhileTypeErrorsPresent config); [eauto|].
    destruct (lintInto config fileName_ diagnostics st) as [[[thrown|] d'] st'] eqn:E; [|eauto].
    apply lintInto_thrown in E as (name & msg & stack & ->). cbn. eauto.
Qed.

(** Claim C5: [recordCodeAction] stores, at the span of the finding, a
    problem holding the finding, with [fixable] true exactly when the fix
    exists and, if it is an array, is not empty; so without a fix it is
    false, and with a fix of at least one replacement it is true. *)
Theorem recordCodeAction_fixable `{Host} (failure_ : LintMessage) (file : SourceFile)
    (st : PluginState) :
  exists st' problems problem,
    recordCodeAction failure_ (Some file) st = (Normal (), st') /\
    codeFixActions st' !! fileName file = Some problems /\
    get problems (spanStart (getTextSpan file failure_)) (spanEnd (getTextSpan file failure_))
    = Some problem /\
    failure problem = failure_ /\
    (fixable problem = true <->
     exists v, fix_ failure_ = Some v /\ forall rs, v = FixArray rs -> rs <> []) /\
    (fix_ failure_ = None -> fixable problem = false) /\
    (getReplacements (fix_ failure_) <> [] -> fixable problem = true).
Proof.
  destruct (recordCodeAction_stores failure_ file st) as (st' & problems & Hr & Hl & Hg & _).
  exists st', problems, {| failure := failure_; fixable := isFixable failure_ |}.
  split; [exact Hr|]. split; [exact Hl|]. split; [exact Hg|]. split; [reflexivity|].
  cbn. split; [apply isFixable_iff|]. split.
  - intros Hn. unfold isFixable. by rewrite Hn.
  - apply isFixable_replacements.
Qed.

(** Claim C6: with suppression configured, a diagnostics request for which
    the host has diagnostics returns them and leaves the plugin as it was: no
    lint run, the registry untouched; and a code-fix request for which the
    host has fixes returns those only. *)
Theorem suppression_returns_host_results `{Host} (config : Configuration) :
  suppressWhileTypeErrorsPresent config = true ->
  (forall delegate fileName_ diagnostics st,
     delegate fileName_ = Normal diagnostics -> diagnostics <> [] ->
     getSemanticDiagnostics config delegate fileName_ st = (Normal diagnostics, st)) /\
  (forall delegate fileName_ start end_ errorCodes fixes st,
     delegate fileName_ start end_ errorCodes = Normal fixes -> fixes <> [] ->
     getCodeFixesAtPosition config delegate fileName_ start end_ errorCodes st
     = (Normal fixes, st)).
Proof.
  intros Hs. split.
  - intros delegate fileName_ diagnostics st Hd Hne.
    unfold getSemanticDiagnostics. rewrite Hd, Hs.
    destruct diagnostics; [done|]. reflexivity.
  - intros delegate fileName_ start end_ errorCodes fixes st Hd Hne.
    unfold getCodeFixesAtPosition. rewrite Hd, Hs.
    destruct fixes; [done|]. reflexivity.
Qed.

(** Claim C10: the span of [getTextSpan] satisfies [end - start = length]
    and is not ordered: for some finding the end resolves before the start,
    and the span has [end < start] and a negative length.  The published
    diagnostic carries the start and length of that span, and the problem is
    registered under the key of its start and end. *)
Theorem getTextSpan_unordered `{Host} :
  (forall file lintMessage,
     spanEnd (getTextSpan file lintMessage) - spanStart (getTextSpan file lintMessage)
     = spanLength (getTextSpan file lintMessage)) /\
  (exists file lintMessage startOffset endOffset,
     positionResolver file (line lintMessage) (column lintMessage) = Some startOffset /\
     positionResolver file (endLine lintMessage) (endColumn lintMessage) = Some endOffset /\
     endOffset < startOffset /\
     spanEnd (getTextSpan file lintMessage) < spanStart (getTextSpan file lintMessage) /\
     spanLength (getTextSpan file lintMessage) < 0) /\
  (forall config file lintMessage st,
     (exists diagnostic,
        makeDiagnostic config lintMessage (Some file) = Normal diagnostic /\
        diagStart diagnostic = spanStart (getTextSpan file lintMessage) /\
        diagLength diagnostic = spanLength (getTextSpan file lintMessage)) /\
     (exists st' problems,
        recordCodeAction lintMessage (Some file) st = (Normal (), st') /\
        codeFixActions st' !! fileName file = Some problems /\
        mapGet (key (spanStart (getTextSpan file lintMessage))
                    (spanEnd (getTextSpan file lintMessage))) problems
        = Some {| failure := lintMessage; fixable := isFixable lintMessage |})).
Proof.
  split; [reflexivity|]. split.
  - exists Samples.threeLines, (Samples.finding "r" (2%nat, 3) (Some (1%nat, 2)) None), 5, 1.
    vm_compute. repeat split; congruence.
  - intros config file lintMessage st. split.
    + eexists. split; [reflexivity|]. split; reflexivity.
    + destruct (recordCodeAction_stores lintMessage file st) as (st' & problems & Hr & Hl & Hg & _).
      exists st', problems. auto.
Qed.

Example unordered_span_key :
  let span := getTextSpan Samples.threeLines
                (Samples.finding "r" (2%nat, 3) (Some (1%nat, 2)) None) in
  span = {| spanStart := 5; spanLength := -4; spanEnd := 1 |} /\
  key (spanStart span) (spanEnd span) = "[5,1]".
Proof. vm_compute. split; reflexivity. Qed.

(** ** Rule-scoped fix-all *)

Section FixAll.
Context `{Host}.

Lemma failureToFileTextChange_single fileName_ problem :
  hasSingleFix problem ->
  failureToFileTextChange (failure problem) fileName_ = Normal (changeOf fileName_ problem) /\
  length (textChanges (changeOf fileName_ problem)) = 1%nat.
Proof.
  intros [r Hr]. unfold failureToFileTextChange, changeOf. rewrite Hr. split; reflexivity.
Qed.

Lemma collectChanges_single ruleName fileName_ (problems : list Problem) : forall changes_,
  Forall (fun p => fixable p = true -> hasSingleFix p) problems ->
  collectChanges ruleName problems fileName_ changes_ =
  Normal (changes_ ++
          (changeOf fileName_ <$>
           filter (fun p => fixable p && hasRule ruleName p = true) problems)).
Proof.
  induction problems as [|p ps IH]; intros changes_ Hall; cbn [collectChanges].
  - by rewrite app_nil_r.
  - apply Forall_cons in Hall as [Hp Hall].
    rewrite filter_cons.
    destruct (fixable p && hasRule ruleName p) eqn:E.
    + apply andb_prop in E as [Hf _].
      destruct (failureToFileTextChange_single fileName_ p (Hp Hf)) as [-> _].
      cbn. rewrite (IH _ Hall). rewrite decide_True by done.
      by rewrite <- app_assoc.
    + rewrite (IH _ Hall). rewrite decide_False by done. reflexivity.
Qed.

Lemma fixableOfRule_single ruleName (problems : ProblemMap) :
  Forall (fun p => fixable p = true -> hasSingleFix p) (values problems) ->
  Forall hasSingleFix (fixableOfRule ruleName problems).
Proof.
  intros Hall. unfold fixableOfRule.
  rewrite Forall_forall in Hall |- *. intros p Hp.
  apply list_elem_of_filter in Hp as [Hp Hin].
  apply Hall; [exact Hin|]. by apply andb_prop in Hp as [Hf _].
Qed.

Lemma getRuleFailureFixAllQuickFix_single ruleName (problems : ProblemMap) fileName_ :
  Forall (fun p => fixable p = true -> hasSingleFix p) (values problems) ->
  getRuleFailureFixAllQuickFix ruleName problems fileName_ =
  Normal (if (length (fixableOfRule ruleName problems) <? 2)%nat then None
          else Some {| description := "Fix all '" +:+ ruleName +:+ "'";
                       fixName := "eslint:fix-all:" +:+ ruleName;
                       changes := changeOf fileName_ <$> fixableOfRule ruleName problems;
                       fixId := None; fixAllDescription := None |}).
Proof.
  intros Hall. unfold getRuleFailureFixAllQuickFix.
  rewrite (collectChanges_single _ _ _ [] Hall). cbn.
  rewrite length_fmap. fold (fixableOfRule ruleName problems).
  destruct (length (fixableOfRule ruleName problems) <=? 1)%nat; reflexivity.
Qed.

Lemma mapGet_values k (m : ProblemMap) problem :
  mapGet k m = Some problem -> problem ∈ values m.
Proof.
  induction m as [|[k' p'] m IH]; cbn; [discriminate|].
  destruct (String.eqb k' k).
  - intros [= ->]. apply list_elem_of_here.
  - intros Hm. apply list_elem_of_further. by apply IH.
Qed.

Lemma fixable_failures_have_replacement (problems : ProblemMap) :
  Forall (fun p => fixable p = true -> hasSingleFix p) (values problems) ->
  Forall (fun f => hasReplacement f = true)
         (failure <$> filter (fun x => fixable x = true) (values problems)).
Proof.
  intros Hall. apply Forall_fmap. rewrite Forall_forall in Hall |- *.
  intros p Hp. apply list_elem_of_filter in Hp as [Hf Hin].
  destruct (Hall p Hin Hf) as [r Hr]. cbn. unfold hasReplacement. by rewrite Hr.
Qed.

Lemma getFixAllAutoFixableQuickFix_single (problems : ProblemMap) fileName_ :
  Forall (fun p => fixable p = true -> hasSingleFix p) (values problems) ->
  exists action, getFixAllAutoFixableQuickFix problems fileName_ = Normal action /\
                 fixId action = None.
Proof.
  intros Hall. unfold getFixAllAutoFixableQuickFix, getNonOverlappingReplacements.
  pose proof (fixable_failures_have_replacement problems Hall) as Hrep.
  rewrite (sortFailures_all _ Hrep). cbn.
  rewrite walk_retained; [cbn; eauto|].
  by rewrite sortedByFirstStart_perm.
Qed.

Lemma collectChanges_rule ruleName fileName_ (problems : list Problem) : forall changes_,
  Forall hasSingleFix (filter (fun p => fixable p && hasRule ruleName p = true) problems) ->
  collectChanges ruleName problems fileName_ changes_ =
  Normal (changes_ ++
          (changeOf fileName_ <$>
           filter (fun p => fixable p && hasRule ruleName p = true) problems)).
Proof.
  induction problems as [|p ps IH]; intros changes_ Hall; cbn [collectChanges].
  - by rewrite app_nil_r.
  - rewrite filter_cons in Hall |- *.
    destruct (fixable p && hasRule ruleName p) eqn:E.
    + rewrite decide_True in Hall |- * by done.
      apply Forall_cons in Hall as [Hp Hall].
      destruct (failureToFileTextChange_single fileName_ p Hp) as [-> _].
      cbn. rewrite (IH _ Hall). by rewrite <- app_assoc.
    + rewrite decide_False in Hall |- * by done. by rewrite (IH _ Hall).
Qed.

Lemma getRuleFailureFixAllQuickFix_rule ruleName (problems : ProblemMap) fileName_ :
  Forall hasSingleFix (fixableOfRule ruleName problems) ->
  getRuleFailureFixAllQuickFix ruleName problems fileName_ =
  Normal (if (length (fixableOfRule ruleName problems) <? 2)%nat then None
          else Some {| description := "Fix all '" +:+ ruleName +:+ "'";
                       fixName := "eslint:fix-all:" +:+ ruleName;
                       changes := changeOf fileName_ <$> fixableOfRule ruleName problems;
                       fixId := None; fixAllDescription := None |}).
Proof.
  intros Hall. unfold getRuleFailureFixAllQuickFix.
  rewrite (collectChanges_rule _ _ _ [] Hall). cbn.
  rewrite length_fmap. fold (fixableOfRule ruleName problems).
  destruct (length (fixableOfRule ruleName problems) <=? 1)%nat; reflexivity.
Qed.

Lemma getFixAllAutoFixableQuickFix_returns (problems : ProblemMap) fileName_ :
  Forall (fun p => fixable p = true -> hasReplacement (failure p) = true) (values problems) ->
  exists action, getFixAllAutoFixableQuickFix problems fileName_ = Normal action /\
                 fixId action = None.
Proof.
  intros Hall. unfold getFixAllAutoFixableQuickFix, getNonOverlappingReplacements.
  assert (Forall (fun f => hasReplacement f = true)
                 (failure <$> filter (fun x => fixable x = true) (values problems))) as Hrep.
  { apply Forall_fmap. rewrite Forall_forall in Hall |- *.
    intros p Hp. apply list_elem_of_filter in Hp as [Hf Hin]. exact (Hall p Hin Hf). }
  rewrite (sortFailures_all _ Hrep). cbn.
  rewrite walk_retained; [cbn; eauto|].
  by rewrite sortedByFirstStart_perm.
Qed.

End FixAll.

(** The rule-scoped fix-all where the fixable problems of the rule carry
    single replacement objects, whatever the fixes of the other problems
    are: the action exists exactly when at least two fixable problems carry
    the rule, and it then holds one file change with one text change per
    such problem.  When it exists for the fixable problem registered at the
    requested span, the rule id is not empty, the program knows the file,
    the request is not short-circuited by suppression and every fixable
    problem of the registry has a replacement (as every problem that
    [recordCodeAction] marks fixable has), the code-fix request returns the
    single-fix action of the problem tagged with the fix id
    [eslint:<ruleId>] and the fix-all description [Fix all '<ruleId>']. *)
Theorem ruleFixAll_exists_iff `{Host} (problems : ProblemMap) (ruleName fileName_ : string) :
  Forall hasSingleFix (fixableOfRule ruleName problems) ->
  (exists result,
     getRuleFailureFixAllQuickFix ruleName problems fileName_ = Normal result /\
     (is_Some result <-> (2 <= length (fixableOfRule ruleName problems))%nat) /\
     forall action, result = Some action ->
       description action = "Fix all '" +:+ ruleName +:+ "'" /\
       changes action = changeOf fileName_ <$> fixableOfRule ruleName problems /\
       Forall (fun c => length (textChanges c) = 1%nat) (changes action)) /\
  (forall config delegate start end_ errorCodes fixes st problem file,
     delegate fileName_ start end_ errorCodes = Normal fixes ->
     suppressWhileTypeErrorsPresent config = false \/ fixes = [] ->
     codeFixActions st !! fileName_ = Some problems ->
     get problems start end_ = Some problem ->
     ruleId (failure problem) = Some ruleName -> ruleName <> "" ->
     fixable problem = true ->
     getSourceFile fileName_ = Some file ->
     (2 <= length (fixableOfRule ruleName problems))%nat ->
     Forall (fun p => fixable p = true -> hasReplacement (failure p) = true)
            (values problems) ->
     exists result st' action,
       getCodeFixesAtPosition config delegate fileName_ start end_ errorCodes st
       = (Normal result, st') /\
       action ∈ result /\
       fixId action = Some ("eslint:" +:+ ruleName) /\
       fixAllDescription action = Some ("Fix all '" +:+ ruleName +:+ "'") /\
       description action = "Fix: " +:+ message (failure problem) /\
       changes action = [changeOf fileName_ problem]).
Proof.
  intros Hall. split.
  - eexists. split; [by apply getRuleFailureFixAllQuickFix_rule|].
    destruct (Nat.ltb_spec (length (fixableOfRule ruleName problems)) 2) as [Hlt|Hge].
    + split.
      * split; [intros [? [=]] | lia].
      * intros action [=].
    + split.
      * split; [done | by eauto].
      * intros action [= <-]. cbn. split; [done|]. split; [done|].
        apply Forall_fmap. eapply Forall_impl; [exact Hall|].
        intros p Hp. by apply failureToFileTextChange_single.
  - intros config delegate start end_ errorCodes fixes st problem file
           Hd Hsup Hreg Hget Hrule Hne Hfix Hfile Htwo Hrep.
    assert (hasSingleFix problem) as Hsingle.
    { rewrite Forall_forall in Hall. apply Hall. unfold fixableOfRule.
      apply list_elem_of_filter. split; [|eapply mapGet_values, Hget].
      unfold hasRule. rewrite Hfix, Hrule. cbn. by rewrite String.eqb_refl. }
    destruct Hsingle as [r Hr].
    destruct (getFixAllAutoFixableQuickFix_returns problems fileName_ Hrep)
      as (auto_ & Hauto & _).
    unfold getCodeFixesAtPosition. rewrite Hd.
    assert (suppressWhileTypeErrorsPresent config && (0 <? length fixes)%nat = false) as ->.
    { destruct Hsup as [-> | ->]; [done|]. by rewrite andb_false_r. }
    cbn [codeFixActions info]. rewrite Hreg, Hget, Hrule.
    assert (truthy (Some ruleName) = true) as ->.
    { cbn. destruct (String.eqb_spec ruleName ""); [done|reflexivity]. }
    unfold fixActions. rewrite Hfix, Hr.
    unfold getRuleFailureQuickFix, failureToFileTextChange. rewrite Hr.
    rewrite (getRuleFailureFixAllQuickFix_rule _ _ _ Hall).
    destruct (Nat.ltb_spec (length (fixableOfRule ruleName problems)) 2) as [Hlt|_]; [lia|].
    rewrite Hauto, Hfile. cbn.
    eexists _, _, _. split; [reflexivity|].
    split; [apply elem_of_app; right; apply list_elem_of_here|].
    cbn. unfold fromFailure. rewrite Hrule. cbn.
    repeat split. unfold changeOf. by rewrite Hr.
Qed.

(** ** The runner *)

Section Run.
Context `{Node}.

Lemma testForExclusionPattern_iff filePath pattern (dir : option string) :
  testForExclusionPattern filePath pattern dir = true <->
  (exists d, dir = Some d /\ d <> "" /\ minimatch (relative d filePath) pattern = true) \/
  minimatch filePath pattern = true.
Proof.
  unfold testForExclusionPattern. destruct dir as [d|]; cbn.
  - destruct (String.eqb_spec d "") as [->|Hd]; cbn.
    + split; [by right|]. intros [(d & [= <-] & Hd & _)|Hm]; [done|exact Hm].
    + destruct (minimatch (relative d filePath) pattern) eqn:Hrel.
      * split; [|done]. intros _. left. exists d. done.
      * destruct (String.eqb_spec (relative d filePath) filePath) as [Heq|_].
        -- rewrite Heq in Hrel. rewrite Hrel.
           split; [done|]. intros [(d' & [= <-] & _ & Hm)|Hm]; congruence.
        -- split; [by right|]. intros [(d' & [= <-] & _ & Hm)|Hm]; [congruence|exact Hm].
  - split; [by right|]. intros [(d & [=] & _)|Hm]; exact Hm.
Qed.

Lemma fileIsExcluded_iff configuration filePath (dir : option string) :
  fileIsExcluded configuration filePath dir = true <->
  (ignoreDefinitionFiles configuration = true /\ endsWith filePath ".d.ts" = true) \/
  exists pattern, pattern ∈ exclude configuration /\
    ((exists d, dir = Some d /\ d <> "" /\ minimatch (relative d filePath) pattern = true) \/
     minimatch filePath pattern = true).
Proof.
  unfold fileIsExcluded.
  destruct (ignoreDefinitionFiles configuration && endsWith filePath ".d.ts") eqn:E.
  - apply andb_prop in E. split; [by left|done].
  - rewrite existsb_exists. split.
    + intros (pattern & Hin & Ht). right. exists pattern.
      split; [by apply list_elem_of_In|]. by apply testForExclusionPattern_iff.
    + intros [[H1 H2]|(pattern & Hin & Ht)].
      * rewrite H1, H2 in E. discriminate.
      * exists pattern. split; [by apply list_elem_of_In|]. by apply testForExclusionPattern_iff.
Qed.

Lemma chdir_process directory p :
  consoleWarn (snd (chdir directory p)) = consoleWarn p /\
  linted (snd (chdir directory p)) = linted p /\
  (forall u p', chdir directory p = (Normal u, p') -> cwd p' = directory) /\
  (forall e p', chdir directory p = (Throw e, p') -> p' = p) /\
  (dirExists directory = true -> exists p', chdir directory p = (Normal (), p')).
Proof.
  unfold chdir. destruct (dirExists directory); cbn.
  - split; [reflexivity|]. split; [reflexivity|]. split; [|split].
    + intros u p' [= _ <-]. reflexivity.
    + intros e p' [=].
    + eauto.
  - split; [reflexivity|]. split; [reflexivity|]. split; [|split].
    + intros u p' [=].
    + intros e p' [= _ <-]. reflexivity.
    + discriminate.
Qed.

Lemma lintWithCapturedWarnings_restores filePath library configuration options warnings_ p :
  consoleWarn (snd (lintWithCapturedWarnings filePath library configuration options warnings_ p))
  = consoleWarn p.
Proof.
  unfold lintWithCapturedWarnings.
  destruct (outcome (newCLIEngine library options _)); [|reflexivity].
  destruct (outcome (executeOnFiles library options _ _)); reflexivity.
Qed.

Lemma lintUnlessJs_restores filePath library configuration warnings_ p :
  consoleWarn (snd (lintUnlessJs filePath library configuration warnings_ p)) = consoleWarn p.
Proof.
  unfold lintUnlessJs.
  destruct (isJsDocument filePath && negb (jsEnable configuration)); [reflexivity|].
  apply lintWithCapturedWarnings_restores.
Qed.

End Run.

(** Claim C7, amended: a file is excluded exactly when it ends in [.d.ts]
    and definition files are ignored, or some configured pattern matches its
    path relative to the directory of the run (the workspace folder, or
    without one the current directory of the program) or its path as given;
    and whenever a file is excluded, [doRun] returns the empty result without
    handing the file to the analyzer. *)
Theorem excluded_files_are_skipped `{Node} (filePath : string) (contents : Contents)
    (library : Library) (configuration : RunConfiguration) (warnings_ : list string)
    (p : Process) :
  (fileIsExcluded configuration filePath (runDirectory configuration contents) = true <->
   (ignoreDefinitionFiles configuration = true /\ endsWith filePath ".d.ts" = true) \/
   exists pattern, pattern ∈ exclude configuration /\
     ((exists d, runDirectory configuration contents = Some d /\ d <> "" /\
                 minimatch (relative d filePath) pattern = true) \/
      minimatch filePath pattern = true)) /\
  (fileIsExcluded configuration filePath (runDirectory configuration contents) = true ->
   exists p',
     doRun filePath contents library configuration warnings_ p = (Normal emptyResult, p') /\
     linted p' = linted p /\ cwd p' = cwd p /\ consoleWarn p' = consoleWarn p).
Proof.
  split; [apply fileIsExcluded_iff|].
  intros Hex. unfold doRun. rewrite Hex. eexists. split; [reflexivity|]. repeat split.
Qed.

(** Claim C8: whatever [doRun] completes with, [console.warn] is afterwards
    the function it was before; and when the run has a directory and the
    working directory of the process still exists, the working directory is
    afterwards what it was before. *)
Theorem doRun_restores_process `{Node} (filePath : string) (contents : Contents)
    (library : Library) (configuration : RunConfiguration) (warnings_ : list string)
    (p : Process) :
  (truthy (runDirectory configuration contents) = true ->
   dirExists (cwd p) = true ->
   cwd (snd (doRun filePath contents library configuration warnings_ p)) = cwd p) /\
  consoleWarn (snd (doRun filePath contents library configuration warnings_ p)) = consoleWarn p.
Proof.
  unfold doRun.
  set (p0 := traceMethod "doRun" _ p).
  destruct (fileIsExcluded configuration filePath (runDirectory configuration contents)).
  { split; reflexivity. }
  destruct (runDirectory configuration contents) as [dir|] eqn:Hdir.
  2:{ split; [discriminate|]. by rewrite lintUnlessJs_restores. }
  destruct (truthy (Some dir)) eqn:Ht.
  2:{ split; [discriminate|]. by rewrite lintUnlessJs_restores. }
  set (p1 := traceMethod "doRun" _ p0).
  destruct (chdir_process dir p1) as (Hw1 & _ & Hn1 & Ht1 & _).
  destruct (chdir dir p1) as [[[]|e] p2] eqn:E1; cbn in Hw1.
  2:{ rewrite (Ht1 e p2 eq_refl). split; reflexivity. }
  pose proof (lintUnlessJs_restores filePath library configuration warnings_ p2) as Hw2.
  destruct (lintUnlessJs filePath library configuration warnings_ p2) as [completion p3].
  cbn in Hw2.
  destruct (chdir_process (cwd p1) p3) as (Hw3 & _ & Hn3 & Ht3 & Hok).
  split.
  - intros _ Hexists. destruct (Hok Hexists) as [p4 E4]. rewrite E4. cbn.
    apply (Hn3 () p4 E4).
  - destruct (chdir (cwd p1) p3) as [[[]|e] p4] eqn:E4; cbn in *; congruence.
Qed.

(** ** decorate *)

(** Claim C9, as the code has it: handed a service that already answers the
    marker, [decorate] returns [undefined], not the service, and leaves the
    [typescript] module as it was. *)
Theorem decorate_marked_returns_undefined `{Host} (target : LanguageService) (ts : TsModule) :
  decorate (Decorated target) ts = (None, ts).
Proof. reflexivity. Qed.

(** Decorating the service that [decorate] has just returned. *)
Example decorate_twice `{Host} (ts : TsModule) :
  let '(once, ts1) := decorate (HostService 0) ts in
  once = Some (Decorated (HostService 0)) /\
  fst (decorate (Decorated (HostService 0)) ts1) = None.
Proof. split; reflexivity. Qed.

(** ** The claims at concrete inputs *)

(** C1 at [Samples.touching]: the finding at [5, 9) touches the one at
    [0, 5) and is dropped. *)
Lemma getNonOverlappingReplacements_retains_witness :
  getNonOverlappingReplacements Samples.touching =
    Normal [Samples.replacement 0 5 "y"; Samples.replacement 10 12 "z"] /\
  noConflictRetained (sortedByFirstStart Samples.touching)
                     (retained (sortedByFirstStart Samples.touching)).
Proof.
  assert (Forall (fun f => hasReplacement f = true) Samples.touching) as Hall
    by (repeat constructor).
  destruct (getNonOverlappingReplacements_retains Samples.touching Hall)
    as (_ & _ & _ & Hres & Hno).
  split.
  - rewrite Hres. vm_compute. reflexivity.
  - apply Hno. repeat constructor.
Defined.

(** C1 as stated fails at [Samples.outOfOrder], [Samples.inside]: both
    findings are retained, and [100, 200) of the first overlaps [150, 160) of
    the second. *)
Lemma getNonOverlappingReplacements_keeps_conflict :
  Forall (fun f => hasReplacement f = true) [Samples.outOfOrder; Samples.inside] /\
  getNonOverlappingReplacements [Samples.outOfOrder; Samples.inside] =
    Normal [Samples.replacement 100 200 "x"; Samples.replacement 0 1 "y";
            Samples.replacement 150 160 "z"] /\
  ~ noConflictRetained (sortedByFirstStart [Samples.outOfOrder; Samples.inside])
                       (retained (sortedByFirstStart [Samples.outOfOrder; Samples.inside])).
Proof.
  split; [repeat constructor|]. split; [vm_compute; reflexivity|].
  intros Hno.
  apply (Hno 0%nat 1%nat Samples.outOfOrder Samples.inside
             (Samples.replacement 100 200 "x") (Samples.replacement 150 160 "z")).
  - lia.
  - reflexivity.
  - reflexivity.
  - apply list_elem_of_here.
  - apply list_elem_of_here.
  - cbn. lia.
  - split; reflexivity.
Qed.

(** C2 at [Samples.threeLines]. *)
Lemma positionResolver_clamps_witness :
  positionResolver Samples.threeLines (Some 0%nat) (Some 1) = None /\
  positionResolver Samples.threeLines (Some 7%nat) (Some 1) = Some 9 /\
  positionResolver Samples.threeLines (Some 2%nat) None = Some 7 /\
  positionResolver Samples.threeLines (Some 2%nat) (Some 50) = Some 7.
Proof.
  destruct (positionResolver_clamps Samples.threeLines) as (Hnull & Hlast & Hend & Hover & _).
  split; [apply Hnull; by right|].
  split; [rewrite (Hlast 7%nat (Some 1)) by (vm_compute; lia); reflexivity|].
  split; [rewrite (Hend 2%nat) by (vm_compute; lia); reflexivity|].
  rewrite (Hover 2%nat 50) by (vm_compute; (lia || reflexivity)). reflexivity.
Defined.

(** C3 at [Samples.host], whose runner crashes. *)
Lemma getSemanticDiagnostics_contains_runner_failure_witness :
  exists st',
    @getSemanticDiagnostics Samples.host Samples.lintingConfiguration
      (fun _ => Normal [Samples.hostDiagnostic]) "/proj/a.ts" Samples.emptyState
    = (Normal [Samples.hostDiagnostic], st') /\
    Exists tellsFailure (logged st').
Proof.
  destruct (@getSemanticDiagnostics_contains_runner_failure Samples.host
              Samples.lintingConfiguration (fun _ => Normal [Samples.hostDiagnostic])
              "/proj/a.ts" [Samples.hostDiagnostic] Samples.emptyState eq_refl)
    as [Hthrow _].
  destruct (Hthrow (ErrorObject "Error" "Cannot find module" "") eq_refl)
    as (st' & entries & Heq & Hlog & _ & Htell).
  exists st'. split; [exact Heq|].
  rewrite Hlog. cbn. apply Htell.
  vm_compute in Heq. injection Heq as <-. reflexivity.
Defined.

(** The rule-scoped fix-all at a registry with [Samples.quoteA],
    [Samples.quoteB] and a problem of another rule whose fix is an array:
    the fix-all action for [quotemark] has two edits, and the code-fix
    request at the span of the first finding returns an action tagged
    [eslint:quotemark]. *)
Lemma ruleFixAll_exists_iff_witness :
  (exists action,
     getRuleFailureFixAllQuickFix "quotemark"
       (Samples.registryOf [Samples.quoteA; Samples.quoteB; Samples.semiArray]) "/proj/a.ts"
     = Normal (Some action) /\
     description action = "Fix all 'quotemark'" /\
     length (changes action) = 2%nat) /\
  (exists result st' action,
     @getCodeFixesAtPosition Samples.host Samples.lintingConfiguration
       (fun _ _ _ _ => Normal []) "/proj/a.ts" 0 2 [1]
       (Samples.stateWith
          (Samples.registryOf [Samples.quoteA; Samples.quoteB; Samples.semiArray]))
     = (Normal result, st') /\
     action ∈ result /\
     fixId action = Some "eslint:quotemark" /\
     fixAllDescription action = Some "Fix all 'quotemark'").
Proof.
  assert (Forall hasSingleFix
            (fixableOfRule "quotemark"
               (Samples.registryOf [Samples.quoteA; Samples.quoteB; Samples.semiArray])))
    as Hall.
  { vm_compute. repeat constructor; eexists; reflexivity. }
  destruct (@ruleFixAll_exists_iff Samples.host
              (Samples.registryOf [Samples.quoteA; Samples.quoteB; Samples.semiArray])
              "quotemark" "/proj/a.ts" Hall) as [Hall_ Hat].
  split.
  - destruct Hall_ as (result & Hres & Hiff & Hact).
    assert (is_Some result) as [action ->] by (apply Hiff; vm_compute; lia).
    destruct (Hact action eq_refl) as (Hdesc & Hchanges & _).
    exists action. split; [exact Hres|]. split; [exact Hdesc|].
    rewrite Hchanges. reflexivity.
  - destruct (Hat Samples.lintingConfiguration (fun _ _ _ _ => Normal []) 0 2 [1] []
                  (Samples.stateWith
                     (Samples.registryOf
                        [Samples.quoteA; Samples.quoteB; Samples.semiArray]))
                  {| failure := Samples.quoteA; fixable := true |} Samples.threeLines)
      as (result & st' & action & Hres & Hin & Hid & Hdesc & _).
    + reflexivity.
    + by right.
    + reflexivity.
    + reflexivity.
    + reflexivity.
    + discriminate.
    + reflexivity.
    + reflexivity.
    + vm_compute. lia.
    + repeat constructor.
    + exists result, st', action. auto.
Defined.


(** C5 at a finding with a fix, recorded for [Samples.threeLines]. *)
Lemma recordCodeAction_fixable_witness :
  exists st' problems problem,
    recordCodeAction Samples.quoteA (Some Samples.threeLines) Samples.emptyState
    = (Normal (), st') /\
    codeFixActions st' !! "/proj/a.ts" = Some problems /\
    get problems 0 2 = Some problem /\
    fixable problem = true.
Proof.
  destruct (@recordCodeAction_fixable Samples.host Samples.quoteA Samples.threeLines
              Samples.emptyState)
    as (st' & problems & problem & Hrec & Hreg & Hget & _ & _ & _ & Hfix).
  exists st', problems, problem.
  split; [exact Hrec|]. split; [exact Hreg|]. split; [exact Hget|].
  apply Hfix. discriminate.
Defined.

(** C6 at [Samples.configuration], which suppresses. *)
Lemma suppression_returns_host_results_witness :
  @getSemanticDiagnostics Samples.host Samples.configuration
    (fun _ => Normal [Samples.hostDiagnostic]) "/proj/a.ts"
    (Samples.stateWith (Samples.registryOf [Samples.quoteA]))
  = (Normal [Samples.hostDiagnostic], Samples.stateWith (Samples.registryOf [Samples.quoteA])) /\
  @getCodeFixesAtPosition Samples.host Samples.configuration
    (fun _ _ _ _ => Normal [Samples.hostFix]) "/proj/a.ts" 0 2 [1]
    (Samples.stateWith (Samples.registryOf [Samples.quoteA]))
  = (Normal [Samples.hostFix], Samples.stateWith (Samples.registryOf [Samples.quoteA])).
Proof.
  destruct (@suppression_returns_host_results Samples.host Samples.configuration eq_refl)
    as [Hdiag Hfix].
  split.
  - apply Hdiag; [reflexivity|discriminate].
  - apply Hfix; [reflexivity|discriminate].
Defined.

(** C7 at a file excluded by a pattern relative to the workspace folder. *)
Lemma excluded_files_are_skipped_witness :
  let configuration :=
    {| allowInlineConfig := None; reportUnusedDisableDirectives := None;
       jsEnable := false; configFile := None; ignoreDefinitionFiles := true;
       exclude := ["a.ts"]; packageManager := None;
       workspaceFolderPath := Some "/proj" |} in
  exists p',
    @doRun Samples.node "/proj/a.ts" (Text "") Samples.library configuration []
           Samples.process
    = (Normal emptyResult, p') /\
    linted p' = [] /\ cwd p' = "/home" /\ consoleWarn p' = HostWarn 0.
Proof.
  intros configuration.
  destruct (@excluded_files_are_skipped Samples.node "/proj/a.ts" (Text "") Samples.library
              configuration [] Samples.process) as [_ Hskip].
  apply Hskip. vm_compute. reflexivity.
Defined.

(** C7 as stated fails at a JavaScript file: it is not excluded, and with
    JavaScript linting off [doRun] returns the empty result all the same,
    without handing the file to the analyzer. *)
Lemma js_file_skipped_though_not_excluded :
  @fileIsExcluded Samples.node Samples.runConfiguration "/proj/a.js"
    (runDirectory Samples.runConfiguration (Text "")) = false /\
  exists p',
    @doRun Samples.node "/proj/a.js" (Text "") Samples.library Samples.runConfiguration []
           Samples.process
    = (Normal emptyResult, p') /\
    linted p' = [].
Proof.
  split; [vm_compute; reflexivity|].
  eexists. split; vm_compute; reflexivity.
Qed.

(** C8 at an analyzer that crashes, having changed the working directory
    and [console.warn]. *)
Lemma doRun_restores_process_witness :
  exists e p',
    @doRun Samples.node "/proj/a.ts" (Text "") Samples.crashingLibrary
           Samples.runConfiguration [] Samples.process
    = (Throw e, p') /\
    cwd p' = "/home" /\ consoleWarn p' = HostWarn 0.
Proof.
  destruct (@doRun_restores_process Samples.node "/proj/a.ts" (Text "")
              Samples.crashingLibrary Samples.runConfiguration [] Samples.process)
    as [Hcwd Hwarn].
  specialize (Hcwd eq_refl eq_refl).
  destruct (@doRun Samples.node "/proj/a.ts" (Text "") Samples.crashingLibrary
              Samples.runConfiguration [] Samples.process) as [[r|e] p'] eqn:E.
  - vm_compute in E. discriminate.
  - exists e, p'. split; [reflexivity|]. split; [exact Hcwd|exact Hwarn].
Defined.

(** ** Scenarios of the design document *)

(** A diagnostics request on [Samples.lintingHost]: the host's diagnostic is
    followed by one diagnostic per finding of the file, the finding of the
    other file is dropped, and the registry holds the two problems under the
    keys of their spans. *)
Example diagnostics_scenario :
  exists st',
    @getSemanticDiagnostics Samples.lintingHost Samples.lintingConfiguration
      (fun _ => Normal [Samples.hostDiagnostic]) "/proj/a.ts" Samples.emptyState
    = (Normal [Samples.hostDiagnostic;
               {| diagFile := Some Samples.threeLines; diagStart := 0; diagLength := 2;
                  messageText := "m (quotemark)"; category := Warning;
                  diagSource := Some "eslint"; code := 1 |};
               {| diagFile := Some Samples.threeLines; diagStart := 3; diagLength := 4;
                  messageText := "m (quotemark)"; category := Warning;
                  diagSource := Some "eslint"; code := 1 |}], st') /\
    codeFixActions st' !! "/proj/a.ts"
    = Some [("[0,2]", {| failure := Samples.quoteA; fixable := true |});
            ("[3,7]", {| failure := Samples.quoteB; fixable := true |})] /\
    runs st' = ["/proj/a.ts"].
Proof. eexists. split; [vm_compute; reflexivity|]. split; vm_compute; reflexivity. Qed.

(** Two fixable findings of different rules on disjoint ranges: the
    fix-all-auto-fixable action has two edits, and there is no rule-scoped
    fix-all for either rule. *)
Example two_rules_scenario :
  let registry :=
    Samples.registryOf
      [Samples.finding "no-unused-vars" (1%nat, 1) (Some (1%nat, 3))
         (Some (SingleFix (Samples.replacement 0 2 "")));
       Samples.finding "array-type" (2%nat, 1) (Some (2%nat, 5))
         (Some (SingleFix (Samples.replacement 3 7 "T[]")))] in
  (exists action,
     getFixAllAutoFixableQuickFix registry "/proj/a.ts" = Normal action /\
     length <$> (textChanges <$> changes action) = [2%nat]) /\
  getRuleFailureFixAllQuickFix "no-unused-vars" registry "/proj/a.ts" = Normal None /\
  getRuleFailureFixAllQuickFix "array-type" registry "/proj/a.ts" = Normal None.
Proof.
  split; [eexists; split; vm_compute; reflexivity|]. split; vm_compute; reflexivity.
Qed.

(** A successful run in a workspace folder: the analyzer's warning is
    collected, the file is handed to the analyzer once, and the working
    directory and [console.warn] are as before. *)
Example doRun_scenario :
  exists result p',
    @doRun Samples.node "/proj/a.ts" (Text "") Samples.library Samples.runConfiguration []
           Samples.process
    = (Normal result, p') /\
    warnings result = ["deprecated rule"] /\
    errorCount (lintResult result) = 1 /\
    resultWorkspaceFolderPath result = Some "/proj" /\
    linted p' = ["/proj/a.ts"] /\ cwd p' = "/home" /\ consoleWarn p' = HostWarn 0.
Proof. eexists _, _. split; [vm_compute; reflexivity|]. repeat split. Qed.

(** * Further properties *)

(** ** The resolver: edge cases and the shape of its result *)

Section ResolverMore.

Implicit Types (f : LintMessage) (fs : list LintMessage).

Lemma keyed_missing fs :
  Exists (fun f => hasReplacement f = false) fs -> keyed fs = Throw (typeError "range").
Proof.
  induction fs as [|f fs IH]; intros Hex; [by apply Exists_nil in Hex|].
  cbn [keyed]. unfold firstStart, getReplacement. rewrite <- head_lookup.
  destruct (hasReplacement f) eqn:Hf.
  - destruct (hasReplacement_head f Hf) as (r & -> & _). cbn.
    apply Exists_cons in Hex as [Hex|Hex]; [congruence|].
    by rewrite (IH Hex).
  - unfold hasReplacement in Hf.
    destruct (getReplacements (fix_ f)); [reflexivity|discriminate].
Qed.

Lemma all_or_missing fs :
  Forall (fun f => hasReplacement f = true) fs \/
  Exists (fun f => hasReplacement f = false) fs.
Proof.
  induction fs as [|f fs [IH|IH]]; [by left| |].
  - destruct (hasReplacement f) eqn:Hf; [left; by constructor|right; by constructor].
  - right. by apply Exists_cons_tl.
Qed.

Lemma separated_app (l1 l2 : list RuleFix) :
  separated l1 = true -> separated l2 = true ->
  (forall a b, last l1 = Some a -> head l2 = Some b -> snd (range a) < fst (range b)) ->
  separated (l1 ++ l2) = true.
Proof.
  induction l1 as [|a [|a' l1] IH]; intros H1 H2 Hgap; [exact H2| |].
  - destruct l2 as [|b l2]; [reflexivity|]. cbn.
    rewrite (proj2 (Z.ltb_lt _ _) (Hgap a b eq_refl eq_refl)). exact H2.
  - cbn in H1. apply andb_prop in H1 as [Ha H1].
    change ((a :: a' :: l1) ++ l2) with (a :: (a' :: l1) ++ l2).
    cbn. rewrite Ha. cbn. apply IH; [exact H1|exact H2|].
    intros x y Hx Hy. apply Hgap; [|exact Hy]. exact Hx.
Qed.

Lemma replacementsOf_separated fs : forall (acc : list RuleFix) e,
  Forall (fun f => hasReplacement f = true) fs ->
  Forall (fun f => separated (getReplacements (fix_ f)) = true) fs ->
  separated acc = true ->
  (forall a, last acc = Some a -> snd (range a) = e) ->
  separated (acc ++ replacementsOf fs (retainedAfter e fs)) = true.
Proof.
  induction fs as [|f fs IH]; intros acc e Hall Hsep Hacc Hlast; cbn.
  - by rewrite app_nil_r.
  - apply Forall_cons in Hall as [Hf Hall]. apply Forall_cons in Hsep as [Hsf Hsep].
    destruct (hasReplacement_head f Hf) as (b & Hb & Hs).
    destruct (hasReplacement_last f Hf) as (c & Hc & He).
    destruct (Z.ltb_spec e (startOfFirst f)) as [Hlt|Hge]; cbn.
    + rewrite app_assoc. apply IH; [done|done| |].
      * apply separated_app; [done|done|].
        intros a b' Ha Hb'. rewrite Hb in Hb'. injection Hb' as <-.
        rewrite (Hlast a Ha). lia.
      * intros a. rewrite last_app, Hc. intros [= <-]. by rewrite He.
    + by apply IH.
Qed.

Lemma retained_separated fs :
  Forall (fun f => hasReplacement f = true) fs ->
  Forall (fun f => separated (getReplacements (fix_ f)) = true) fs ->
  separated (replacementsOf fs (retained fs)) = true.
Proof.
  destruct fs as [|f fs]; [reflexivity|]. intros Hall Hsep. cbn.
  apply Forall_cons in Hall as [Hf Hall]. apply Forall_cons in Hsep as [Hsf Hsep].
  destruct (hasReplacement_last f Hf) as (c & Hc & He).
  apply replacementsOf_separated; [done|done|done|].
  intros a. rewrite Hc. intros [= <-]. by rewrite He.
Qed.

Lemma separated_pairwise (rs : list RuleFix) :
  separated rs = true -> Forall (fun r => wellFormed r = true) rs ->
  forall (i j : nat) a b, (i < j)%nat -> rs !! i = Some a -> rs !! j = Some b ->
    snd (range a) < fst (range b).
Proof.
  induction rs as [|x rs IH]; intros Hsep Hwf i j a b Hij Hi Hj; [done|].
  apply Forall_cons in Hwf as [Hx Hwf].
  assert (separated rs = true) as Hsep'.
  { destruct rs; [reflexivity|]. cbn in Hsep. by apply andb_prop in Hsep as [_ ?]. }
  destruct j as [|j]; [lia|]. cbn in Hj.
  destruct i as [|i]; cbn in Hi.
  - injection Hi as ->.
    destruct rs as [|y rs]; [done|].
    cbn in Hsep. apply andb_prop in Hsep as [Hay _]. apply Z.ltb_lt in Hay.
    destruct j as [|j]; cbn in Hj.
    + injection Hj as ->. exact Hay.
    + apply Forall_cons in Hwf as [Hy Hwf']. unfold wellFormed in Hy. apply Z.leb_le in Hy.
      assert (snd (range y) < fst (range b)).
      { apply (IH Hsep' (Forall_cons_2 _ _ _ (proj2 (Z.leb_le _ _) Hy) Hwf')
                  0%nat (S j) y b); [lia|reflexivity|exact Hj]. }
      lia.
  - apply (IH Hsep' Hwf i j); [lia|done|done].
Qed.

Lemma replacementsOf_elem fs : forall mask r,
  r ∈ replacementsOf fs mask -> exists f, f ∈ fs /\ r ∈ getReplacements (fix_ f).
Proof.
  induction fs as [|f fs IH]; intros mask r Hr; [by apply elem_of_nil in Hr|].
  destruct mask as [|[] mask]; cbn in Hr.
  - by apply elem_of_nil in Hr.
  - apply elem_of_app in Hr as [Hr|Hr].
    + exists f. split; [apply list_elem_of_here|exact Hr].
    + destruct (IH _ _ Hr) as (g & Hg & Hrg). exists g. split; [by apply list_elem_of_further|done].
  - destruct (IH _ _ Hr) as (g & Hg & Hrg). exists g. split; [by apply list_elem_of_further|done].
Qed.

Lemma retainedAfter_gapped fs : forall e,
  (forall f, head fs = Some f -> e < startOfFirst f) ->
  gapped fs = true ->
  replacementsOf fs (retainedAfter e fs) = fs ≫= (fun f => getReplacements (fix_ f)).
Proof.
  induction fs as [|f fs IH]; intros e He Hg; [reflexivity|].
  cbn [retainedAfter]. rewrite (proj2 (Z.ltb_lt _ _) (He f eq_refl)). cbn.
  f_equal. apply IH.
  - intros g Hg'. destruct fs as [|g' fs]; [done|]. injection Hg' as ->.
    cbn in Hg. apply andb_prop in Hg as [Hg _]. by apply Z.ltb_lt.
  - destruct fs; [reflexivity|]. cbn in Hg. by apply andb_prop in Hg as [_ ?].
Qed.

Lemma retained_gapped fs :
  gapped fs = true ->
  replacementsOf fs (retained fs) = fs ≫= (fun f => getReplacements (fix_ f)).
Proof.
  destruct fs as [|f fs]; [reflexivity|]. intros Hg. cbn. f_equal.
  apply retainedAfter_gapped.
  - intros g Hg'. destruct fs as [|g' fs]; [done|]. injection Hg' as ->.
    cbn in Hg. apply andb_prop in Hg as [Hg _]. by apply Z.ltb_lt.
  - destruct fs; [reflexivity|]. cbn in Hg. by apply andb_prop in Hg as [_ ?].
Qed.

Lemma same_start_same_finding fs f g :
  NoDup (startOfFirst <$> fs) -> f ∈ fs -> g ∈ fs -> startOfFirst f = startOfFirst g -> f = g.
Proof.
  induction fs as [|x fs IH]; intros Hnd Hf Hg Heq; [by apply elem_of_nil in Hf|].
  cbn in Hnd. apply NoDup_cons in Hnd as [Hx Hnd].
  apply elem_of_cons in Hf as [->|Hf]; apply elem_of_cons in Hg as [->|Hg].
  - reflexivity.
  - exfalso. apply Hx. rewrite Heq. by apply list_elem_of_fmap_2.
  - exfalso. apply Hx. rewrite <- Heq. by apply list_elem_of_fmap_2.
  - by apply IH.
Qed.

Lemma sortedByFirstStart_unique fs fs' :
  NoDup (startOfFirst <$> fs) -> fs ≡ₚ fs' ->
  sortedByFirstStart fs = sortedByFirstStart fs'.
Proof.
  intros Hnd Hperm.
  apply (StronglySorted_unique_strong byFirstStart);
    [|apply sortedByFirstStart_sorted|apply sortedByFirstStart_sorted|].
  - intros x y Hx Hy Hxy Hyx. unfold byFirstStart in *.
    apply (same_start_same_finding fs); [done| | |lia].
    + by rewrite sortedByFirstStart_perm in Hx.
    + rewrite sortedByFirstStart_perm in Hy. by rewrite Hperm.
  - rewrite !sortedByFirstStart_perm. exact Hperm.
Qed.

Lemma resolver_returns fs :
  Forall (fun f => hasReplacement f = true) fs ->
  getNonOverlappingReplacements fs
  = Normal (replacementsOf (sortedByFirstStart fs) (retained (sortedByFirstStart fs))).
Proof.
  intros Hall. unfold getNonOverlappingReplacements. rewrite (sortFailures_all _ Hall).
  cbn. apply walk_retained. by rewrite sortedByFirstStart_perm.
Qed.

End ResolverMore.

(** X1. With at most one finding, [getNonOverlappingReplacements] returns
    the replacements of that finding, none if it has none.  With two or more,
    it throws exactly when some finding has no replacement, and what it throws
    is the TypeError of reading [range] of [undefined]. *)
Theorem getNonOverlappingReplacements_throws_iff (failures : list LintMessage) :
  ((length failures <= 1)%nat ->
   getNonOverlappingReplacements failures
   = Normal (failures ≫= (fun f => getReplacements (fix_ f)))) /\
  ((2 <= length failures)%nat ->
   ((exists e, getNonOverlappingReplacements failures = Throw e) <->
    Exists (fun f => hasReplacement f = false) failures) /\
   (forall e, getNonOverlappingReplacements failures = Throw e -> e = typeError "range")).
Proof.
  split.
  - intros Hlen. destruct failures as [|f [|g fs]]; [reflexivity| |cbn in Hlen; lia].
    cbn. by rewrite app_nil_r.
  - intros Hlen. destruct failures as [|f [|g fs]]; [cbn in Hlen; lia|cbn in Hlen; lia|].
    destruct (all_or_missing (f :: g :: fs)) as [Hall|Hex].
    + rewrite (resolver_returns _ Hall). split.
      * split; [intros [e [=]]|]. intros Hex. exfalso.
        apply Exists_exists in Hex as (x & Hx & Hfalse).
        rewrite Forall_forall in Hall. specialize (Hall x Hx). congruence.
      * intros e [=].
    + assert (getNonOverlappingReplacements (f :: g :: fs) = Throw (typeError "range")) as ->.
      { unfold getNonOverlappingReplacements, sortFailures. by rewrite (keyed_missing _ Hex). }
      split; [split; [done|eauto]|]. by intros e [= <-].
Qed.

Lemma getNonOverlappingReplacements_throws_iff_witness :
  getNonOverlappingReplacements [Samples.plain] = Normal [] /\
  exists e,
    getNonOverlappingReplacements [Samples.quoteA; Samples.plain] = Throw e /\
    e = typeError "range".
Proof.
  split.
  - apply (getNonOverlappingReplacements_throws_iff [Samples.plain]). cbn. lia.
  - destruct (getNonOverlappingReplacements_throws_iff [Samples.quoteA; Samples.plain])
      as [_ Hmany].
    destruct Hmany as [Hiff Hrange]; [cbn; lia|].
    destruct (proj2 Hiff) as [e He].
    { apply Exists_cons. right. apply Exists_cons. by left. }
    exists e. split; [exact He|exact (Hrange e He)].
Defined.

(** X2. When every finding has a replacement and lists its replacements so
    that each ends strictly before the next starts, so does the result: it
    is a batch of edits in ascending order in which no edit touches the
    next; if moreover no range ends before it starts, every edit of the
    result ends strictly before every later one starts.  Every edit of the
    result is a replacement of one of the findings. *)
Theorem getNonOverlappingReplacements_separated (failures : list LintMessage) :
  Forall (fun f => hasReplacement f = true) failures ->
  Forall (fun f => separated (getReplacements (fix_ f)) = true) failures ->
  exists rs,
    getNonOverlappingReplacements failures = Normal rs /\
    separated rs = true /\
    (forall r, r ∈ rs -> exists f, f ∈ failures /\ r ∈ getReplacements (fix_ f)) /\
    (Forall (fun f => Forall (fun r => wellFormed r = true) (getReplacements (fix_ f)))
            failures ->
     forall (i j : nat) a b, (i < j)%nat -> rs !! i = Some a -> rs !! j = Some b ->
       snd (range a) < fst (range b)).
Proof.
  intros Hall Hsep. eexists. split; [by apply resolver_returns|].
  assert (forall r, r ∈ replacementsOf (sortedByFirstStart failures)
                         (retained (sortedByFirstStart failures)) ->
                    exists f, f ∈ failures /\ r ∈ getReplacements (fix_ f)) as Hfrom.
  { intros r Hr. destruct (replacementsOf_elem _ _ _ Hr) as (f & Hf & Hrf).
    exists f. split; [|done]. by rewrite sortedByFirstStart_perm in Hf. }
  assert (separated (replacementsOf (sortedByFirstStart failures)
                       (retained (sortedByFirstStart failures))) = true) as Hres.
  { apply retained_separated; by rewrite sortedByFirstStart_perm. }
  split; [exact Hres|]. split; [exact Hfrom|].
  intros Hwf. apply separated_pairwise; [exact Hres|].
  rewrite Forall_forall. intros r Hr. destruct (Hfrom r Hr) as (f & Hf & Hrf).
  rewrite Forall_forall in Hwf. specialize (Hwf f Hf).
  rewrite Forall_forall in Hwf. by apply Hwf.
Qed.

Lemma getNonOverlappingReplacements_separated_witness :
  exists rs,
    getNonOverlappingReplacements Samples.touching = Normal rs /\
    separated rs = true /\
    forall (i j : nat) a b, (i < j)%nat -> rs !! i = Some a -> rs !! j = Some b ->
      snd (range a) < fst (range b).
Proof.
  destruct (getNonOverlappingReplacements_separated Samples.touching)
    as (rs & Hres & Hsep & _ & Hpair).
  - repeat constructor.
  - repeat constructor.
  - exists rs. split; [exact Hres|]. split; [exact Hsep|].
    apply Hpair. repeat constructor.
Defined.

(** X3. When, in the order of their first replacement, every finding starts
    strictly after the last replacement of the one before has ended, nothing
    is dropped: the result is all replacements of all findings, in that
    order. *)
Theorem getNonOverlappingReplacements_keeps_disjoint (failures : list LintMessage) :
  Forall (fun f => hasReplacement f = true) failures ->
  gapped (sortedByFirstStart failures) = true ->
  getNonOverlappingReplacements failures
  = Normal (sortedByFirstStart failures ≫= (fun f => getReplacements (fix_ f))).
Proof.
  intros Hall Hg. rewrite (resolver_returns _ Hall). f_equal. by apply retained_gapped.
Qed.

Lemma getNonOverlappingReplacements_keeps_disjoint_witness :
  getNonOverlappingReplacements [Samples.quoteB; Samples.quoteA]
  = Normal [Samples.replacement 0 2 "'a'"; Samples.replacement 3 7 "'b'"].
Proof.
  rewrite (getNonOverlappingReplacements_keeps_disjoint [Samples.quoteB; Samples.quoteA]).
  - reflexivity.
  - repeat constructor.
  - reflexivity.
Defined.

(** X4. The order in which the findings are handed over does not matter when
    no two of them start their first replacement at the same offset: every
    permutation of the list gives the same result, or the same throw. *)
Theorem getNonOverlappingReplacements_order_irrelevant (failures failures' : list LintMessage) :
  NoDup (startOfFirst <$> failures) ->
  failures ≡ₚ failures' ->
  getNonOverlappingReplacements failures = getNonOverlappingReplacements failures'.
Proof.
  intros Hnd Hperm.
  destruct (all_or_missing failures) as [Hall|Hex].
  - assert (Forall (fun f => hasReplacement f = true) failures') as Hall'
      by (by rewrite <- Hperm).
    rewrite (resolver_returns _ Hall), (resolver_returns _ Hall').
    by rewrite (sortedByFirstStart_unique _ _ Hnd Hperm).
  - assert (Exists (fun f => hasReplacement f = false) failures') as Hex'
      by (by rewrite <- Hperm).
    destruct failures as [|f [|g fs]].
    + by apply Exists_nil in Hex.
    + apply Permutation_singleton_l in Hperm as ->. reflexivity.
    + destruct failures' as [|f' [|g' fs']].
      * by apply Permutation_nil_r in Hperm.
      * apply Permutation_length in Hperm. discriminate.
      * unfold getNonOverlappingReplacements, sortFailures.
        by rewrite (keyed_missing _ Hex), (keyed_missing _ Hex').
Qed.

Lemma getNonOverlappingReplacements_order_irrelevant_witness :
  getNonOverlappingReplacements [Samples.quoteB; Samples.quoteA]
  = getNonOverlappingReplacements [Samples.quoteA; Samples.quoteB].
Proof.
  apply (getNonOverlappingReplacements_order_irrelevant
           [Samples.quoteB; Samples.quoteA] [Samples.quoteA; Samples.quoteB]).
  - apply (NoDup_cons_2 3 [0]); [|apply NoDup_singleton].
    intros Hin. apply list_elem_of_singleton in Hin. discriminate.
  - apply perm_swap.
Defined.

(** ** Filtering the report *)

(** X5. [filterProblemsForFile] returns the messages of the results
    addressed to the file, result after result in the order of the report;
    so a message is returned exactly when a result addressed to the file
    holds it, and nothing is returned when no result is addressed to it. *)
Theorem filterProblemsForFile_addressed (normalize_ : string -> string) (file : string)
    (report : LintReport) :
  filterProblemsForFile normalize_ file report
  = filter (fun r => addressedTo normalize_ file r = true) (results report) ≫= messages /\
  (forall m, m ∈ filterProblemsForFile normalize_ file report <->
             exists r, r ∈ results report /\ addressedTo normalize_ file r = true /\
                       m ∈ messages r) /\
  (Forall (fun r => addressedTo normalize_ file r = false) (results report) ->
   filterProblemsForFile normalize_ file report = []).
Proof.
  assert (forall rs acc,
            foldl (fun msgs result =>
                     if String.eqb (filePath result) "" then msgs
                     else if String.eqb (normalize_ (filePath result)) (normalize_ file)
                          then msgs ++ messages result else msgs) acc rs
            = acc ++ (filter (fun r => addressedTo normalize_ file r = true) rs ≫= messages))
    as Hfold.
  { induction rs as [|r rs IH]; intros acc; cbn [foldl].
    - by rewrite app_nil_r.
    - rewrite IH, filter_cons.
      destruct (String.eqb (filePath r) "") eqn:E1;
        destruct (String.eqb (normalize_ (filePath r)) (normalize_ file)) eqn:E2;
        (destruct (addressedTo normalize_ file r) eqn:Ha;
         unfold addressedTo in Ha; rewrite E1, E2 in Ha; try discriminate Ha);
        (rewrite decide_True by done) || (rewrite decide_False by done);
        [reflexivity|reflexivity| |reflexivity].
      cbn. by rewrite <- app_assoc. }
  assert (filterProblemsForFile normalize_ file report
          = filter (fun r => addressedTo normalize_ file r = true) (results report) ≫= messages)
    as Heq.
  { unfold filterProblemsForFile. cbn zeta. by rewrite Hfold. }
  split; [exact Heq|]. split.
  - intros m. rewrite Heq, list_elem_of_bind. split.
    + intros (r & Hm & Hr). apply list_elem_of_filter in Hr as [Ha Hr]. eauto.
    + intros (r & Hr & Ha & Hm). exists r. split; [done|]. by apply list_elem_of_filter.
  - rewrite Heq. clear. generalize (results report).
    induction l as [|r rs IH]; intros Hnone; [reflexivity|].
    apply Forall_cons in Hnone as [Hr Hnone]. rewrite filter_cons.
    destruct (decide (addressedTo normalize_ file r = true)) as [Ht|_]; [congruence|].
    by apply IH.
Qed.

Lemma filterProblemsForFile_addressed_witness :
  filterProblemsForFile (fun path => path) "/proj/c.ts" (Samples.reportFor "/proj/a.ts") = [].
Proof.
  apply (filterProblemsForFile_addressed (fun path => path) "/proj/c.ts"
           (Samples.reportFor "/proj/a.ts")).
  repeat constructor.
Defined.

(** ** The registry of problems *)

Section Registry.

Lemma lacks_app c s1 s2 : lacks c (s1 +:+ s2) = lacks c s1 && lacks c s2.
Proof.
  induction s1 as [|d s1 IH]; [reflexivity|].
  change (String d s1 +:+ s2) with (String d (s1 +:+ s2)).
  cbn [lacks]. by rewrite IH, andb_assoc.
Qed.

Lemma lacks_pretty_N_go c x : forall s,
  (forall n, pretty_N_char n <> c) -> lacks c s = true -> lacks c (pretty_N_go x s) = true.
Proof.
  induction (N.lt_wf_0 x) as [x _ IH]. intros s Hc Hs.
  assert (x = 0 \/ 0 < x)%N as [->|Hx] by lia.
  - by rewrite pretty_N_go_0.
  - rewrite pretty_N_go_step by done. apply IH; [by apply N.div_lt|done|].
    cbn. rewrite Hs, andb_true_r. apply negb_true_iff, Ascii.eqb_neq.
    intros Heq. by apply (Hc (x `mod` 10)%N).
Qed.

Lemma lacks_pretty_N c (x : N) :
  (forall n, pretty_N_char n <> c) -> lacks c (pretty x) = true.
Proof.
  intros Hc. unfold pretty, pretty_N. case_decide.
  - cbn. rewrite andb_true_r. apply negb_true_iff, Ascii.eqb_neq.
    intros Heq. by apply (Hc 0%N).
  - by apply lacks_pretty_N_go.
Qed.

Lemma comma_is_no_digit n : pretty_N_char n <> ","%char.
Proof. unfold pretty_N_char. by repeat case_match. Qed.

Lemma lacks_comma_pretty_Z (z : Z) : lacks "," (pretty z) = true.
Proof.
  destruct z as [|p|p]; [reflexivity| |].
  - apply (lacks_pretty_N _ (N.pos p)), comma_is_no_digit.
  - change (pretty (Z.neg p)) with ("-" +:+ pretty (N.pos p)).
    rewrite lacks_app. change (lacks "," "-") with true.
    apply (lacks_pretty_N _ (N.pos p)), comma_is_no_digit.
Qed.

Lemma append_nil (s : string) : "" +:+ s = s.
Proof. reflexivity. Qed.

Lemma append_cons c (s t : string) : String c s +:+ t = String c (s +:+ t).
Proof. reflexivity. Qed.

Lemma split_at_comma a : forall a' b b',
  lacks "," a = true -> lacks "," a' = true ->
  a +:+ "," +:+ b = a' +:+ "," +:+ b' -> a = a' /\ b = b'.
Proof.
  induction a as [|c a IH]; intros [|c' a'] b b' Ha Ha' Heq;
    rewrite ?append_cons, ?append_nil in Heq; cbn [lacks] in Ha, Ha'.
  - by injection Heq as ->.
  - injection Heq as <- _. apply andb_prop in Ha' as [Hc _]. discriminate.
  - injection Heq as -> _. apply andb_prop in Ha as [Hc _]. discriminate.
  - injection Heq as -> Heq. apply andb_prop in Ha as [_ Ha]. apply andb_prop in Ha' as [_ Ha'].
    destruct (IH _ _ _ Ha Ha' Heq) as [-> ->]. done.
Qed.

Lemma app_bracket_inj b : forall b', b +:+ "]" = b' +:+ "]" -> b = b'.
Proof.
  induction b as [|c b IH]; intros [|c' b'] Heq;
    rewrite ?append_cons, ?append_nil in Heq.
  - reflexivity.
  - injection Heq as _ Heq. destruct b'; discriminate.
  - injection Heq as _ Heq. destruct b; discriminate.
  - injection Heq as -> Heq. by rewrite (IH _ Heq).
Qed.

Lemma key_inj start end_ start' end' :
  key start end_ = key start' end' -> start = start' /\ end_ = end'.
Proof.
  unfold key. rewrite !(append_cons "["), !append_nil. intros Heq. injection Heq as Heq.
  apply split_at_comma in Heq as [Hs He]; [|apply lacks_comma_pretty_Z..].
  apply app_bracket_inj in He.
  split; by apply (inj pretty).
Qed.

Lemma mapGet_mapSet_ne k k' problem (m : ProblemMap) :
  k <> k' -> mapGet k' (mapSet k problem m) = mapGet k' m.
Proof.
  intros Hne. induction m as [|[k0 p0] m IH]; cbn.
  - destruct (String.eqb_spec k k'); [done|reflexivity].
  - destruct (String.eqb_spec k0 k) as [->|Hk0]; cbn.
    + destruct (String.eqb_spec k k'); [done|reflexivity].
    + destruct (String.eqb k0 k'); [reflexivity|exact IH].
Qed.

Lemma mapGet_None k (m : ProblemMap) : mapGet k m = None <-> k ∉ (fst <$> m).
Proof.
  induction m as [|[k0 p0] m IH]; cbn.
  - split; [intros _; apply not_elem_of_nil|done].
  - rewrite not_elem_of_cons. destruct (String.eqb_spec k0 k) as [->|Hne].
    + split; [discriminate|]. intros [Hk _]. done.
    + rewrite IH. split; [intros Hk; split; [congruence|done]|by intros [_ ?]].
Qed.

Lemma mapSet_new k problem (m : ProblemMap) :
  mapGet k m = None -> mapSet k problem m = m ++ [(k, problem)].
Proof.
  induction m as [|[k0 p0] m IH]; cbn; [reflexivity|].
  destruct (String.eqb k0 k); [discriminate|]. intros Hm. by rewrite (IH Hm).
Qed.

Lemma mapSet_keys k problem (m : ProblemMap) :
  is_Some (mapGet k m) -> fst <$> mapSet k problem m = fst <$> m.
Proof.
  induction m as [|[k0 p0] m IH]; cbn; [by intros [? [=]]|].
  destruct (String.eqb k0 k); [reflexivity|]. intros Hm. cbn. by rewrite (IH Hm).
Qed.

Lemma mapSet_NoDup k problem (m : ProblemMap) :
  NoDup (fst <$> m) -> NoDup (fst <$> mapSet k problem m).
Proof.
  intros Hnd. destruct (mapGet k m) as [p|] eqn:Hk.
  - by rewrite mapSet_keys.
  - rewrite (mapSet_new _ _ _ Hk), fmap_app. cbn.
    apply NoDup_app. split; [done|]. split; [|apply NoDup_singleton].
    intros x Hx ->%list_elem_of_singleton. by apply mapGet_None in Hk.
Qed.

Lemma mapSet_values k problem (m : ProblemMap) x :
  x ∈ values (mapSet k problem m) -> x = problem \/ x ∈ values m.
Proof.
  unfold values. induction m as [|[k0 p0] m IH]; cbn.
  - intros ->%list_elem_of_singleton. by left.
  - destruct (String.eqb k0 k); cbn; rewrite !elem_of_cons.
    + intros [->|Hx]; [by left|right; by right].
    + intros [->|Hx]; [right; by left|]. destruct (IH Hx) as [->|Hx']; [by left|right; by right].
Qed.

Lemma set_registryOk (m : ProblemMap) start end_ failure_ :
  registryOk m ->
  registryOk (set m start end_ {| failure := failure_; fixable := isFixable failure_ |}).
Proof.
  intros [Hnd Hfix]. split; [by apply mapSet_NoDup|].
  rewrite Forall_forall in Hfix |- *. intros x Hx.
  apply mapSet_values in Hx as [->|Hx]; [reflexivity|by apply Hfix].
Qed.

End Registry.

(** X6. The registry is keyed by the exact span: after [set] at a span,
    [get] at that span returns the problem just stored, and [get] at any
    other span, be it only one offset apart, returns what it returned
    before. *)
Theorem registry_get_set (m : ProblemMap) (start end_ start' end' : Z) (problem : Problem) :
  get (set m start end_ problem) start end_ = Some problem /\
  ((start, end_) <> (start', end') ->
   get (set m start end_ problem) start' end' = get m start' end').
Proof.
  split; [apply mapGet_mapSet|].
  intros Hne. apply mapGet_mapSet_ne. intros Hk. apply key_inj in Hk as [-> ->]. done.
Qed.

Lemma registry_get_set_witness :
  get (set (Samples.registryOf [Samples.quoteA]) 0 2 (problemOf Samples.quoteB)) 0 3
  = get (Samples.registryOf [Samples.quoteA]) 0 3.
Proof.
  apply (registry_get_set (Samples.registryOf [Samples.quoteA]) 0 2 0 3
           (problemOf Samples.quoteB)).
  discriminate.
Defined.

(** X7. [set] keeps the registry a map in insertion order: a span not yet
    registered is added at the end; a span already registered keeps its
    place, and only its problem is replaced, so the number of problems does
    not change; and no key ever occurs twice. *)
Theorem registry_set_order (m : ProblemMap) (start end_ : Z) (problem : Problem) :
  (get m start end_ = None -> values (set m start end_ problem) = values m ++ [problem]) /\
  (is_Some (get m start end_) ->
   fst <$> set m start end_ problem = fst <$> m /\
   length (values (set m start end_ problem)) = length (values m)) /\
  (NoDup (fst <$> m) -> NoDup (fst <$> set m start end_ problem)).
Proof.
  split; [|split].
  - intros Hnone. unfold set, values. rewrite (mapSet_new _ _ _ Hnone), fmap_app. reflexivity.
  - intros Hsome. pose proof (mapSet_keys _ problem _ Hsome) as Hkeys.
    split; [exact Hkeys|]. unfold values, set.
    apply (f_equal length) in Hkeys. by rewrite !length_fmap in *.
  - apply mapSet_NoDup.
Qed.

Lemma registry_set_order_witness :
  values (set (Samples.registryOf [Samples.quoteA]) 3 7 (problemOf Samples.quoteB))
  = values (Samples.registryOf [Samples.quoteA]) ++ [problemOf Samples.quoteB] /\
  length (values (set (Samples.registryOf [Samples.quoteA]) 0 2 (problemOf Samples.quoteB)))
  = length (values (Samples.registryOf [Samples.quoteA])) /\
  NoDup (fst <$> set (Samples.registryOf [Samples.quoteA]) 3 7 (problemOf Samples.quoteB)).
Proof.
  split; [|split].
  - apply (registry_set_order (Samples.registryOf [Samples.quoteA]) 3 7
             (problemOf Samples.quoteB)).
    reflexivity.
  - apply (registry_set_order (Samples.registryOf [Samples.quoteA]) 0 2
             (problemOf Samples.quoteB)).
    eexists. reflexivity.
  - apply (registry_set_order (Samples.registryOf [Samples.quoteA]) 3 7
             (problemOf Samples.quoteB)).
    apply NoDup_singleton.
Defined.

(** ** Diagnostics passes and the registry *)

Section Passes.
Context `{Host}.

Lemma recordInto_snoc file problems problem registries :
  recordInto file (problems ++ [problem]) registries
  = let span := getTextSpan file problem in
    let before := recordInto file problems registries in
    <[fileName file :=
        set (default [] (before !! fileName file))
            (spanStart span) (spanEnd span) (problemOf problem)]> before.
Proof. unfold recordInto. by rewrite foldl_app. Qed.

Lemma recordInto_cons file problem problems registries :
  recordInto file (problem :: problems) registries
  = recordInto file problems
      (<[fileName file :=
           set (default [] (registries !! fileName file))
               (spanStart (getTextSpan file problem)) (spanEnd (getTextSpan file problem))
               (problemOf problem)]> registries).
Proof. reflexivity. Qed.

Lemma recordInto_other file problems registries other :
  other <> fileName file -> recordInto file problems registries !! other = registries !! other.
Proof.
  intros Hne. revert registries.
  induction problems as [|p ps IH]; intros registries; [reflexivity|].
  rewrite recordInto_cons, IH. by apply lookup_insert_ne.
Qed.

Lemma recordInto_values file problems : forall registries m x,
  recordInto file problems registries !! fileName file = Some m ->
  x ∈ values m ->
  x ∈ values (default [] (registries !! fileName file)) \/
  exists p, p ∈ problems /\ x = problemOf p.
Proof.
  induction problems as [|p ps IH]; intros registries m x Hm Hx.
  - left. cbn in Hm. unfold ProblemMap in *. by rewrite Hm.
  - rewrite recordInto_cons in Hm. destruct (IH _ _ _ Hm Hx) as [Hold|(q & Hq & ->)].
    + rewrite lookup_insert_eq in Hold. cbn in Hold.
      apply mapSet_values in Hold as [->|Hold]; [|by left].
      right. exists p. split; [apply list_elem_of_here|reflexivity].
    + right. exists q. split; [by apply list_elem_of_further|reflexivity].
Qed.

Lemma recordInto_ok file problems : forall registries,
  (forall name m, registries !! name = Some m -> registryOk m) ->
  forall name m, recordInto file problems registries !! name = Some m -> registryOk m.
Proof.
  induction problems as [|p ps IH]; intros registries Hok; [exact Hok|].
  rewrite recordInto_cons. apply IH. intros name m.
  destruct (decide (name = fileName file)) as [->|Hne].
  - rewrite lookup_insert_eq. intros [= <-]. apply set_registryOk.
    destruct (registries !! fileName file) as [m0|] eqn:E; cbn; [by eapply Hok|].
    split; [constructor|constructor].
  - rewrite lookup_insert_ne by done. apply Hok.
Qed.

Lemma recordInto_nonempty file problems registries :
  problems <> [] -> is_Some (recordInto file problems registries !! fileName file).
Proof.
  destruct problems as [|p ps _] using rev_ind; [done|]. intros _.
  rewrite recordInto_snoc. cbn. rewrite lookup_insert_eq. eauto.
Qed.

Lemma reportProblems_known config file problems : forall diagnostics st,
  exists found st',
    reportProblems config problems (Some file) diagnostics st
    = (None, diagnostics ++ found, st') /\
    Forall2 (fun p d => makeDiagnostic config p (Some file) = Normal d) problems found /\
    codeFixActions st' = recordInto file problems (codeFixActions st) /\
    logged st' = logged st /\ runs st' = runs st.
Proof.
  induction problems as [|p ps IH]; intros diagnostics st.
  - exists [], st. rewrite app_nil_r. repeat split. constructor.
  - cbn [reportProblems]. unfold makeDiagnostic, getTextSpanOf, recordCodeAction. cbn.
    match goal with |- context [reportProblems config ps (Some file) ?d ?s] =>
      destruct (IH d s) as (found & st' & Hr & Hf & Hreg & Hlog & Hruns) end.
    eexists (_ :: found), st'. rewrite Hr, <- app_assoc. cbn.
    split; [reflexivity|]. split; [constructor; [reflexivity|exact Hf]|].
    split; [exact Hreg|]. split; [exact Hlog|exact Hruns].
Qed.

Lemma reportProblems_unknown config problems : forall diagnostics st,
  exists thrown found,
    reportProblems config problems None diagnostics st = (thrown, diagnostics ++ found, st).
Proof.
  induction problems as [|p ps IH]; intros diagnostics st.
  - exists None, []. by rewrite app_nil_r.
  - cbn [reportProblems]. unfold makeDiagnostic, getTextSpanOf, recordCodeAction.
    destruct (lineGiven (line p) || lineGiven (endLine p)); cbn.
    + eexists _, []. by rewrite app_nil_r.
    + eexists _, [_]. reflexivity.
Qed.

Lemma unshiftWarnings_reverse file warnings_ : forall diagnostics,
  unshiftWarnings file warnings_ diagnostics
  = reverse (warningDiagnostic file <$> warnings_) ++ diagnostics.
Proof.
  unfold unshiftWarnings.
  induction warnings_ as [|w ws IH]; intros diagnostics; [reflexivity|].
  cbn [foldl]. rewrite IH, fmap_cons, reverse_cons, <- app_assoc. reflexivity.
Qed.

Lemma info_fold_registry warnings_ : forall st,
  codeFixActions (foldl (fun st warning => info ("[eslint] " +:+ warning) st) st warnings_)
  = codeFixActions st /\
  runs (foldl (fun st warning => info ("[eslint] " +:+ warning) st) st warnings_) = runs st.
Proof.
  induction warnings_ as [|w ws IH]; intros st; [done|]. cbn [foldl].
  destruct (IH (info ("[eslint] " +:+ w) st)) as [-> ->]. done.
Qed.

(** What a pass that gets as far as the runner does to the registries,
    whatever then happens. *)
Lemma lintInto_registries config fileName_ diagnostics st :
  exists thrown found st',
    lintInto config fileName_ diagnostics st = (thrown, found, st') /\
    (codeFixActions st' = delete fileName_ (codeFixActions st) \/
     exists file result,
       getSourceFile fileName_ = Some file /\
       runEsLint fileName_ (runConfigurationOf config) = Normal result /\
       codeFixActions st'
       = recordInto file (filterProblemsForFile normalize fileName_ (lintResult result))
                    (delete fileName_ (codeFixActions st))).
Proof.
  unfold lintInto.
  destruct (cfgIgnoreDefinitionFiles config && endsWith fileName_ ".d.ts").
  { eexists _, _, _. split; [reflexivity|]. by left. }
  destruct (runEsLint fileName_ (runConfigurationOf config)) as [result|err] eqn:Hrun.
  2:{ destruct err as [? ? ?|? [?|]|]; cbn; eexists _, _, _; (split; [reflexivity|]); by left. }
  set (watched := match configFilePath result with Some p => _ | None => _ end).
  destruct watched as [[]|err].
  2:{ destruct err as [? ? ?|? [?|]|]; cbn; eexists _, _, _; (split; [reflexivity|]); by left. }
  unfold publish.
  match goal with |- context [if ?c then _ else _] => destruct c end.
  - destruct (getSourceFile fileName_) as [file|] eqn:Hfile.
    + match goal with |- context [reportProblems config ?ps (Some file) ?d ?s] =>
        destruct (reportProblems_known config file ps d s)
          as (found & st' & Hr & _ & Hreg & _) end.
      rewrite Hr. eexists _, _, _. split; [reflexivity|]. right.
      exists file, result. split; [done|]. split; [done|]. exact Hreg.
    + match goal with |- context [reportProblems config ?ps None ?d ?s] =>
        destruct (reportProblems_unknown config ps d s) as (thrown & found & Hr) end.
      rewrite Hr. eexists _, _, _. split; [reflexivity|]. by left.
  - match goal with |- context [foldl ?f ?s (warnings result)] =>
      pose proof (proj1 (info_fold_registry (warnings result) s)) as Hlogreg end.
    destruct (getSourceFile fileName_) as [file|] eqn:Hfile.
    + match goal with |- context [reportProblems config ?ps (Some file) ?d ?s] =>
        destruct (reportProblems_known config file ps d s)
          as (found & st' & Hr & _ & Hreg & _) end.
      rewrite Hr. eexists _, _, _. split; [reflexivity|]. right.
      exists file, result. split; [done|]. split; [done|].
      rewrite Hreg, Hlogreg. reflexivity.
    + match goal with |- context [reportProblems config ?ps None ?d ?s] =>
        destruct (reportProblems_unknown config ps d s) as (thrown & found & Hr) end.
      rewrite Hr. eexists _, _, _. split; [reflexivity|]. left.
      rewrite Hlogreg. reflexivity.
Qed.

(** A pass either leaves the state alone or goes through [lintInto]. *)
Lemma getSemanticDiagnostics_cases config delegate fileName_ st :
  (exists c, getSemanticDiagnostics config delegate fileName_ st = (c, st)) \/
  exists diagnostics c st' thrown found st1,
    delegate fileName_ = Normal diagnostics /\
    lintInto config fileName_ diagnostics st = (thrown, found, st1) /\
    getSemanticDiagnostics config delegate fileName_ st = (c, st') /\
    codeFixActions st' = codeFixActions st1.
Proof.
  unfold getSemanticDiagnostics.
  destruct (delegate fileName_) as [diagnostics|e]; [|left; eauto].
  destruct ((0 <? length diagnostics)%nat && suppressWhileTypeErrorsPresent config);
    [left; eauto|].
  right. destruct (lintInto config fileName_ diagnostics st) as [[thrown found] st1] eqn:E.
  exists diagnostics.
  destruct thrown as [e|]; [|eexists _, _, _, _, _; eauto].
  destruct (Js.toString e); eexists _, _, _, _, _; eauto.
Qed.

End Passes.

Section PassesMore.
Context `{Host}.

Lemma reportProblems_congr config problems file : forall diagnostics st stb,
  codeFixActions st = codeFixActions stb ->
  exists thrown found st' stb',
    reportProblems config problems file diagnostics st = (thrown, found, st') /\
    reportProblems config problems file diagnostics stb = (thrown, found, stb') /\
    codeFixActions st' = codeFixActions stb'.
Proof.
  induction problems as [|p ps IH]; intros diagnostics st stb Hreg.
  - eexists _, _, _, _. repeat split. exact Hreg.
  - cbn [reportProblems].
    destruct (makeDiagnostic config p file) as [d|e]; [|eexists _, _, _, _; eauto].
    unfold recordCodeAction. destruct file as [f|]; [|eexists _, _, _, _; eauto].
    apply IH. cbn. by rewrite Hreg.
Qed.

Lemma lintInto_congr config fileName_ diagnostics st stb :
  delete fileName_ (codeFixActions st) = delete fileName_ (codeFixActions stb) ->
  exists thrown found st' stb',
    lintInto config fileName_ diagnostics st = (thrown, found, st') /\
    lintInto config fileName_ diagnostics stb = (thrown, found, stb') /\
    codeFixActions st' = codeFixActions stb'.
Proof.
  intros Hreg. unfold lintInto.
  destruct (cfgIgnoreDefinitionFiles config && endsWith fileName_ ".d.ts").
  { eexists _, _, _, _. repeat split. exact Hreg. }
  destruct (runEsLint fileName_ (runConfigurationOf config)) as [result|err].
  2:{ destruct err as [? ? ?|? [?|]|]; cbn; eexists _, _, _, _; repeat split; exact Hreg. }
  set (watched := match configFilePath result with Some p => _ | None => _ end).
  destruct watched as [[]|err].
  2:{ destruct err as [? ? ?|? [?|]|]; cbn; eexists _, _, _, _; repeat split; exact Hreg. }
  unfold publish.
  match goal with |- context [if ?c then _ else _] => destruct c end.
  - apply reportProblems_congr. exact Hreg.
  - apply reportProblems_congr.
    rewrite !(proj1 (info_fold_registry (warnings result) _)). exact Hreg.
Qed.

Lemma delete_recordInto file problems registries :
  delete (fileName file) (recordInto file problems registries)
  = delete (fileName file) registries.
Proof.
  apply map_eq. intros other. destruct (decide (other = fileName file)) as [->|Hne].
  - by rewrite !lookup_delete_eq.
  - rewrite !lookup_delete_ne by done. by apply recordInto_other.
Qed.

End PassesMore.

(** X8. A pass that lints the file: when the request is not short-circuited,
    the runner returns and the program knows the file, the result is the
    host's diagnostics, unchanged and in their order, preceded by one
    diagnostic per warning of the run if a lint configuration is present
    (the last warning first) and followed by one diagnostic per finding of
    the report addressed to the file, in the order of the report; the runner
    is invoked once, and the registries are those of before with the entry
    of the requested file deleted and the findings then recorded under the
    name of the source file. *)
Theorem getSemanticDiagnostics_publishes `{Host} (config : Configuration)
    (delegate : string -> Completion (list Diagnostic)) (fileName_ : string)
    (host : list Diagnostic) (st : PluginState) (result : RunResult) (file : SourceFile) :
  delegate fileName_ = Normal host ->
  host = [] \/ suppressWhileTypeErrorsPresent config = false ->
  cfgIgnoreDefinitionFiles config && endsWith fileName_ ".d.ts" = false ->
  runEsLint fileName_ (runConfigurationOf config) = Normal result ->
  (forall p, configFilePath result = Some p -> p <> "" -> ensureWatching p = Normal ()) ->
  getSourceFile fileName_ = Some file ->
  exists found st',
    getSemanticDiagnostics config delegate fileName_ st
    = (Normal ((if hasLintConfiguration result
                then reverse (warningDiagnostic (Some file) <$> warnings result)
                else []) ++ host ++ found), st') /\
    Forall2 (fun p d => makeDiagnostic config p (Some file) = Normal d)
            (filterProblemsForFile normalize fileName_ (lintResult result)) found /\
    codeFixActions st'
    = recordInto file (filterProblemsForFile normalize fileName_ (lintResult result))
                 (delete fileName_ (codeFixActions st)) /\
    runs st' = runs st ++ [fileName_].
Proof.
  intros Hd Hsup Hdts Hrun Hwatch Hfile.
  unfold getSemanticDiagnostics. rewrite Hd.
  assert ((0 <? length host)%nat && suppressWhileTypeErrorsPresent config = false) as ->.
  { destruct Hsup as [-> | ->]; [reflexivity|by rewrite andb_false_r]. }
  unfold lintInto. rewrite Hdts, Hrun.
  assert (match configFilePath result with
          | Some p => if truthy (Some p) then ensureWatching p else Normal ()
          | None => Normal ()
          end = Normal ()) as ->.
  { destruct (configFilePath result) as [p|] eqn:Hp; [|reflexivity].
    cbn. destruct (String.eqb_spec p ""); cbn; [reflexivity|]. by apply Hwatch. }
  unfold publish. rewrite Hfile. fold (hasLintConfiguration result).
  destruct (hasLintConfiguration result).
  - match goal with |- context [reportProblems config ?ps (Some file) ?d ?s] =>
      destruct (reportProblems_known config file ps d s)
        as (found & st' & Hr & Hf & Hreg & _ & Hruns) end.
    rewrite Hr. exists found, st'. rewrite unshiftWarnings_reverse, <- app_assoc.
    split; [reflexivity|]. split; [exact Hf|]. split; [exact Hreg|exact Hruns].
  - match goal with |- context [reportProblems config ?ps (Some file) ?d ?s] =>
      destruct (reportProblems_known config file ps d s)
        as (found & st' & Hr & Hf & Hreg & _ & Hruns) end.
    rewrite Hr. exists found, st'.
    split; [reflexivity|]. split; [exact Hf|].
    match type of Hreg with context [foldl ?f ?s (warnings result)] =>
      destruct (info_fold_registry (warnings result) s) as [Hlr Hlruns] end.
    rewrite Hreg, Hruns, Hlr, Hlruns. split; reflexivity.
Qed.

Lemma getSemanticDiagnostics_publishes_witness :
  exists found st',
    @getSemanticDiagnostics Samples.lintingHost Samples.lintingConfiguration
      (fun _ => Normal [Samples.hostDiagnostic]) "/proj/a.ts" Samples.emptyState
    = (Normal ([Samples.hostDiagnostic] ++ found), st') /\
    length found = 2%nat /\
    runs st' = ["/proj/a.ts"].
Proof.
  destruct (@getSemanticDiagnostics_publishes Samples.lintingHost
              Samples.lintingConfiguration (fun _ => Normal [Samples.hostDiagnostic])
              "/proj/a.ts" [Samples.hostDiagnostic] Samples.emptyState
              {| lintResult := Samples.reportFor "/proj/a.ts";
                 warnings := ["deprecated rule"];
                 resultWorkspaceFolderPath := None; configFilePath := None |}
              Samples.threeLines)
    as (found & st' & Hres & Hfound & _ & Hruns).
  - reflexivity.
  - by right.
  - reflexivity.
  - reflexivity.
  - discriminate.
  - reflexivity.
  - exists found, st'. split; [exact Hres|]. split; [|exact Hruns].
    symmetry. exact (Forall2_length _ _ _ Hfound).
Defined.

(** X9. A pass touches the registry of no other file, and after a pass that
    is not short-circuited nothing stale is left for the file: every problem
    then registered for it was recorded from a finding of this very run
    (here the source file goes by the requested name). *)
Theorem getSemanticDiagnostics_replaces_registry `{Host} (config : Configuration)
    (delegate : string -> Completion (list Diagnostic)) (fileName_ : string)
    (st : PluginState) :
  (forall other,
     other <> fileName_ ->
     (forall file, getSourceFile fileName_ = Some file -> other <> fileName file) ->
     codeFixActions (snd (getSemanticDiagnostics config delegate fileName_ st)) !! other
     = codeFixActions st !! other) /\
  (forall host m,
     delegate fileName_ = Normal host ->
     host = [] \/ suppressWhileTypeErrorsPresent config = false ->
     (forall file, getSourceFile fileName_ = Some file -> fileName file = fileName_) ->
     codeFixActions (snd (getSemanticDiagnostics config delegate fileName_ st)) !! fileName_
     = Some m ->
     exists result,
       runEsLint fileName_ (runConfigurationOf config) = Normal result /\
       forall x, x ∈ values m ->
         exists p, p ∈ filterProblemsForFile normalize fileName_ (lintResult result) /\
                   x = problemOf p).
Proof.
  split.
  - intros other Hne Hfile.
    destruct (getSemanticDiagnostics_cases config delegate fileName_ st)
      as [[c ->]|(d & c & st' & thrown & found & st1 & _ & Hlint & -> & Hreg)]; [reflexivity|].
    cbn. rewrite Hreg.
    destruct (lintInto_registries config fileName_ d st)
      as (t & f & s & Hl & [Hdel|(file & result & Hf & _ & Hrec)]);
      rewrite Hlint in Hl; injection Hl as <- <- <-.
    + rewrite Hdel. by apply lookup_delete_ne.
    + rewrite Hrec, recordInto_other by (by apply Hfile). by apply lookup_delete_ne.
  - intros host m Hd Hsup Hname Hm.
    unfold getSemanticDiagnostics in Hm. rewrite Hd in Hm.
    assert ((0 <? length host)%nat && suppressWhileTypeErrorsPresent config = false) as Hs.
    { destruct Hsup as [-> | ->]; [reflexivity|by rewrite andb_false_r]. }
    rewrite Hs in Hm.
    destruct (lintInto_registries config fileName_ host st)
      as (t & f & s & Hl & Hcases). rewrite Hl in Hm.
    assert (codeFixActions s !! fileName_ = Some m) as Hm'.
    { destruct t as [e|]; [destruct (Js.toString e)|]; exact Hm. }
    destruct Hcases as [Hdel|(file & result & Hf & Hrun & Hrec)].
    + rewrite Hdel, lookup_delete_eq in Hm'. discriminate.
    + exists result. split; [exact Hrun|]. intros x Hx.
      rewrite Hrec in Hm'.
      pose proof (recordInto_values file
                    (filterProblemsForFile normalize fileName_ (lintResult result))
                    (delete fileName_ (codeFixActions st)) m x) as Hv.
      rewrite (Hname file Hf) in Hv.
      destruct (Hv Hm' Hx) as [Hold|Hnew]; [|exact Hnew].
      rewrite lookup_delete_eq in Hold. by apply elem_of_nil in Hold.
Qed.

Lemma getSemanticDiagnostics_replaces_registry_witness :
  codeFixActions
    (snd (@getSemanticDiagnostics Samples.lintingHost Samples.lintingConfiguration
            (fun _ => Normal []) "/proj/b.ts"
            (Samples.stateWith (Samples.registryOf [Samples.quoteA])))) !! "/proj/a.ts"
  = Some (Samples.registryOf [Samples.quoteA]) /\
  exists result,
    @runEsLint Samples.lintingHost "/proj/a.ts"
      (runConfigurationOf Samples.lintingConfiguration) = Normal result /\
    forall x, x ∈ values (Samples.registryOf [Samples.quoteA; Samples.quoteB]) ->
      exists p, p ∈ filterProblemsForFile (@normalize Samples.lintingHost) "/proj/a.ts"
                      (lintResult result) /\
                x = problemOf p.
Proof.
  split.
  - rewrite (proj1 (@getSemanticDiagnostics_replaces_registry Samples.lintingHost
                      Samples.lintingConfiguration (fun _ => Normal []) "/proj/b.ts"
                      (Samples.stateWith (Samples.registryOf [Samples.quoteA])))
               "/proj/a.ts").
    + reflexivity.
    + discriminate.
    + intros file [=].
  - apply (proj2 (@getSemanticDiagnostics_replaces_registry Samples.lintingHost
                    Samples.lintingConfiguration (fun _ => Normal []) "/proj/a.ts"
                    (Samples.stateWith (Samples.registryOf [Samples.inside])))
             [] (Samples.registryOf [Samples.quoteA; Samples.quoteB])).
    + reflexivity.
    + by left.
    + intros file [= <-]. reflexivity.
    + reflexivity.
Defined.

(** X10. The registries stay well formed: if before a pass every registry
    has no key twice and holds every problem with the [fixable] that
    [isFixable] gives its finding, so it is after the pass, whatever the
    pass does. *)
Theorem getSemanticDiagnostics_keeps_registries_ok `{Host} (config : Configuration)
    (delegate : string -> Completion (list Diagnostic)) (fileName_ : string)
    (st : PluginState) :
  stateOk st -> stateOk (snd (getSemanticDiagnostics config delegate fileName_ st)).
Proof.
  intros Hok.
  destruct (getSemanticDiagnostics_cases config delegate fileName_ st)
    as [[c ->]|(d & c & st' & thrown & found & st1 & _ & Hlint & -> & Hreg)]; [exact Hok|].
  cbn. unfold stateOk. rewrite Hreg.
  assert (forall name m, delete fileName_ (codeFixActions st) !! name = Some m -> registryOk m)
    as Hdelok.
  { intros name m Hm. apply lookup_delete_Some in Hm as [_ Hm]. by eapply Hok. }
  destruct (lintInto_registries config fileName_ d st)
    as (t & f & s & Hl & [Hdel|(file & result & _ & _ & Hrec)]);
    rewrite Hlint in Hl; injection Hl as <- <- <-.
  - by rewrite Hdel.
  - rewrite Hrec. by apply recordInto_ok.
Qed.

Lemma getSemanticDiagnostics_keeps_registries_ok_witness :
  stateOk
    (snd (@getSemanticDiagnostics Samples.lintingHost Samples.lintingConfiguration
            (fun _ => Normal []) "/proj/a.ts" Samples.emptyState)).
Proof.
  apply (@getSemanticDiagnostics_keeps_registries_ok Samples.lintingHost).
  intros name m Hm. unfold Samples.emptyState in Hm. cbn in Hm.
  rewrite lookup_empty in Hm. discriminate.
Defined.

(** X11. Asking twice is asking once: when the source file goes by the
    requested name, a second diagnostics request with the same answers of
    the host and the runner completes as the first did, with the same
    diagnostics, and leaves the registries as the first left them. *)
Theorem getSemanticDiagnostics_idempotent `{Host} (config : Configuration)
    (delegate : string -> Completion (list Diagnostic)) (fileName_ : string)
    (st : PluginState) :
  (forall file, getSourceFile fileName_ = Some file -> fileName file = fileName_) ->
  fst (getSemanticDiagnostics config delegate fileName_
         (snd (getSemanticDiagnostics config delegate fileName_ st)))
  = fst (getSemanticDiagnostics config delegate fileName_ st) /\
  codeFixActions (snd (getSemanticDiagnostics config delegate fileName_
                         (snd (getSemanticDiagnostics config delegate fileName_ st))))
  = codeFixActions (snd (getSemanticDiagnostics config delegate fileName_ st)).
Proof.
  intros Hname.
  destruct (getSemanticDiagnostics_cases config delegate fileName_ st)
    as [[c Hc]|(d & c & st' & thrown & found & st1 & Hd & Hlint & Hc & Hreg)].
  { rewrite Hc. cbn. rewrite Hc. split; reflexivity. }
  rewrite Hc. cbn.
  assert (delete fileName_ (codeFixActions st') = delete fileName_ (codeFixActions st)) as Hdel.
  { rewrite Hreg.
    destruct (lintInto_registries config fileName_ d st)
      as (t & f & s & Hl & [Hdel|(file & result & Hf & _ & Hrec)]);
      rewrite Hlint in Hl; injection Hl as <- <- <-.
    - rewrite Hdel. apply map_eq. intros k.
      destruct (decide (k = fileName_)) as [->|Hk];
        [by rewrite !lookup_delete_eq|by rewrite !lookup_delete_ne].
    - rewrite Hrec, <- (Hname file Hf), delete_recordInto.
      apply map_eq. intros k.
      destruct (decide (k = fileName file)) as [->|Hk];
        [by rewrite !lookup_delete_eq|by rewrite !lookup_delete_ne]. }
  destruct (lintInto_congr config fileName_ d st' st Hdel)
    as (t & f & s' & s & Hl' & Hl & Hregs).
  rewrite Hlint in Hl. injection Hl as <- <- <-.
  revert Hc. unfold getSemanticDiagnostics. rewrite Hd.
  destruct ((0 <? length d)%nat && suppressWhileTypeErrorsPresent config).
  { intros [= <- <-]. split; reflexivity. }
  rewrite Hlint, Hl'.
  destruct thrown as [e|]; [destruct (Js.toString e)|]; intros [= <- <-]; cbn.
  - split; [reflexivity|]. by rewrite Hregs.
  - split; [reflexivity|]. by rewrite Hregs.
  - split; [reflexivity|]. by rewrite Hregs.
Qed.

Lemma getSemanticDiagnostics_idempotent_witness :
  codeFixActions
    (snd (@getSemanticDiagnostics Samples.lintingHost Samples.lintingConfiguration
            (fun _ => Normal []) "/proj/a.ts"
            (snd (@getSemanticDiagnostics Samples.lintingHost Samples.lintingConfiguration
                    (fun _ => Normal []) "/proj/a.ts" Samples.emptyState))))
  = codeFixActions
      (snd (@getSemanticDiagnostics Samples.lintingHost Samples.lintingConfiguration
              (fun _ => Normal []) "/proj/a.ts" Samples.emptyState)).
Proof.
  apply (@getSemanticDiagnostics_idempotent Samples.lintingHost).
  intros file Hfile. cbn in Hfile. injection Hfile as <-. reflexivity.
Defined.

(** ** Fix ids and combined fixes *)

Section FixIds.
Context `{Host}.

Lemma substring_all (s : string) : String.substring 0 (String.length s) s = s.
Proof. induction s as [|c s IH]; [reflexivity|]. cbn. by rewrite IH. Qed.

Lemma startsWith_append (p r : string) : startsWith (p +:+ r) p = true.
Proof.
  induction p as [|c p IH]; [reflexivity|].
  rewrite append_cons. cbn [startsWith]. by rewrite Ascii.eqb_refl, IH.
Qed.

Lemma startsWith_split (p : string) : forall s,
  startsWith s p = true ->
  s = p +:+ String.substring (String.length p) (String.length s - String.length p) s.
Proof.
  induction p as [|c p IH]; intros s Hs.
  - cbn. rewrite Nat.sub_0_r. by rewrite substring_all.
  - destruct s as [|d s]; [discriminate|]. cbn [startsWith] in Hs.
    apply andb_prop in Hs as [Hc Hs]. apply Ascii.eqb_eq in Hc as ->.
    rewrite append_cons. f_equal. cbn. by apply IH.
Qed.

Lemma substring_append (p r : string) :
  String.substring (String.length p) (String.length (p +:+ r) - String.length p) (p +:+ r) = r.
Proof.
  induction p as [|c p IH].
  - cbn. rewrite Nat.sub_0_r. apply substring_all.
  - rewrite append_cons. cbn. exact IH.
Qed.

Lemma toRuleName_prefixed (rule : string) : toRuleName (Some ("eslint:" +:+ rule)) = Some rule.
Proof.
  unfold toRuleName. rewrite (startsWith_append "eslint:" rule).
  f_equal. apply (substring_append "eslint:" rule).
Qed.

End FixIds.

(** X12. Fix ids round-trip: [toRuleName] recovers the rule that
    [fromFailure] put into the id, and it answers with a rule exactly for the
    strings that are [eslint:] followed by that rule; what is not a string
    has no rule. *)
Theorem toRuleName_fromFailure (failure_ : LintMessage) (fixId_ : string) :
  toRuleName (Some (fromFailure failure_)) = Some (orNull (ruleId failure_)) /\
  (forall rule, toRuleName (Some fixId_) = Some rule <-> fixId_ = "eslint:" +:+ rule) /\
  toRuleName None = None.
Proof.
  split; [apply toRuleName_prefixed|]. split; [|reflexivity].
  intros rule. split.
  - unfold toRuleName. destruct (startsWith fixId_ "eslint:") eqn:Hs; [|discriminate].
    intros [= <-]. by apply (startsWith_split "eslint:").
  - intros ->. apply toRuleName_prefixed.
Qed.

Lemma toRuleName_fromFailure_witness :
  toRuleName (Some "eslint:quotemark") = Some "quotemark".
Proof.
  apply (proj2 (proj1 (proj2 (toRuleName_fromFailure Samples.quoteA "eslint:quotemark"))
                  "quotemark")).
  reflexivity.
Defined.

(** X13. A combined fix for the id that a code-fix request handed out: for
    the id of a finding with a non-empty rule, [getCombinedCodeFix] does not
    ask the host; without a registry for the file it has no changes, and on
    a registry whose fixable problems have single fixes its changes are those
    of the fixable problems of that rule when there are at least two, and
    none otherwise.  An id that is no string, does not begin with [eslint:]
    or names no rule is the host's to answer. *)
Theorem getCombinedCodeFix_of_fixId
    (delegate : string -> option string -> Completion CombinedCodeActions)
    (scopeFileName : string) (st : PluginState) :
  (forall failure_ rule,
     ruleId failure_ = Some rule -> rule <> "" ->
     (codeFixActions st !! scopeFileName = None ->
      getCombinedCodeFix delegate scopeFileName (Some (fromFailure failure_)) st
      = Normal {| combinedChanges := [] |}) /\
     (forall problems,
        codeFixActions st !! scopeFileName = Some problems ->
        Forall (fun p => fixable p = true -> hasSingleFix p) (values problems) ->
        getCombinedCodeFix delegate scopeFileName (Some (fromFailure failure_)) st
        = Normal {| combinedChanges :=
                      if (2 <=? length (fixableOfRule rule problems))%nat
                      then changeOf scopeFileName <$> fixableOfRule rule problems
                      else [] |})) /\
  (forall fixId_,
     (forall s, fixId_ = Some s -> startsWith s "eslint:" = false \/ s = "eslint:") ->
     getCombinedCodeFix delegate scopeFileName fixId_ st = delegate scopeFileName fixId_).
Proof.
  split.
  - intros failure_ rule Hrule Hne.
    assert (toRuleName (Some (fromFailure failure_)) = Some rule) as Hto.
    { unfold fromFailure. rewrite Hrule. apply toRuleName_prefixed. }
    assert (truthy (Some rule) = true) as Htr.
    { cbn. by destruct (String.eqb_spec rule ""). }
    split.
    + intros Hnone. unfold getCombinedCodeFix. by rewrite Hto, Htr, Hnone.
    + intros problems Hreg Hall. unfold getCombinedCodeFix. rewrite Hto, Htr, Hreg.
      rewrite (getRuleFailureFixAllQuickFix_single _ _ _ Hall).
      destruct (length (fixableOfRule rule problems)) as [|[|n]]; reflexivity.
  - intros [s|] Hs; [|reflexivity].
    unfold getCombinedCodeFix, toRuleName.
    destruct (Hs s eq_refl) as [-> | ->]; reflexivity.
Qed.

Lemma getCombinedCodeFix_of_fixId_witness :
  getCombinedCodeFix (fun _ _ => Normal {| combinedChanges := [] |})
    "/proj/a.ts" (Some (fromFailure Samples.quoteA)) Samples.emptyState
  = Normal {| combinedChanges := [] |} /\
  getCombinedCodeFix (fun _ _ => Throw Nullish)
    "/proj/a.ts" (Some (fromFailure Samples.quoteA))
    (Samples.stateWith (Samples.registryOf [Samples.quoteA; Samples.quoteB]))
  = Normal {| combinedChanges :=
                changeOf "/proj/a.ts"
                  <$> fixableOfRule "quotemark"
                        (Samples.registryOf [Samples.quoteA; Samples.quoteB]) |} /\
  getCombinedCodeFix (fun _ _ => Throw Nullish) "/proj/a.ts" None
    Samples.emptyState
  = Throw Nullish.
Proof.
  split; [|split].
  - destruct (proj1 (getCombinedCodeFix_of_fixId
                       (fun _ _ => Normal {| combinedChanges := [] |}) "/proj/a.ts"
                       Samples.emptyState) Samples.quoteA "quotemark") as [Hnone _];
      [reflexivity|discriminate|].
    apply Hnone. reflexivity.
  - destruct (proj1 (getCombinedCodeFix_of_fixId
                       (fun _ _ => Throw Nullish) "/proj/a.ts"
                       (Samples.stateWith
                          (Samples.registryOf [Samples.quoteA; Samples.quoteB])))
                Samples.quoteA "quotemark") as [_ Hsome];
      [reflexivity|discriminate|].
    apply (Hsome (Samples.registryOf [Samples.quoteA; Samples.quoteB])); [reflexivity|].
    repeat constructor; intros _; eexists; reflexivity.
  - apply (proj2 (getCombinedCodeFix_of_fixId
                    (fun _ _ => Throw Nullish) "/proj/a.ts" Samples.emptyState) None).
    discriminate.
Defined.

(** ** Code-fix requests *)

Section CodeFixes.
Context `{Host}.

Lemma fixActions_array rule problem documentFixes fileName_ rs :
  fixable problem = true -> fix_ (failure problem) = Some (FixArray rs) ->
  fixActions rule problem documentFixes fileName_ = Throw (typeError "0").
Proof.
  intros Hf Hfix. unfold fixActions, getRuleFailureQuickFix, failureToFileTextChange.
  by rewrite Hf, Hfix.
Qed.

Lemma registryOk_replacements (m : ProblemMap) :
  registryOk m ->
  Forall (fun f => hasReplacement f = true)
         (failure <$> filter (fun x => fixable x = true) (values m)).
Proof.
  intros [_ Hfix]. apply Forall_fmap. rewrite Forall_forall in Hfix |- *.
  intros p Hp. apply list_elem_of_filter in Hp as [Hf Hin]. cbn.
  rewrite (Hfix p Hin) in Hf. apply isFixable_replacements in Hf.
  unfold hasReplacement. destruct (getReplacements (fix_ (failure p))); [done|reflexivity].
Qed.

Lemma leadingSpace_split (s : string) :
  exists rest, s = leadingSpace s +:+ rest /\
               allBlank (leadingSpace s) = true /\ startsUnindented rest = true.
Proof.
  induction s as [|c s (rest & Hs & Hb & Hu)].
  - exists EmptyString. done.
  - cbn [leadingSpace].
    destruct (Ascii.eqb c " " || Ascii.eqb c "009") eqn:Hc.
    + exists rest. rewrite append_cons, <- Hs. cbn [allBlank]. by rewrite Hc, Hb.
    + exists (String c s). rewrite append_nil. cbn. by rewrite Hc.
Qed.

End CodeFixes.

(** X14. A code-fix request never changes the registries and never runs the
    linter; what it returns begins with the host's own fixes, unchanged; and
    when no problem with a rule is registered for the file at exactly the
    requested span, it returns the host's fixes and nothing else. *)
Theorem getCodeFixesAtPosition_keeps_host_fixes `{Host} (config : Configuration)
    (delegate : string -> Z -> Z -> list Z -> Completion (list CodeFixAction))
    (fileName_ : string) (start end_ : Z) (errorCodes : list Z) (st : PluginState) :
  codeFixActions
    (snd (getCodeFixesAtPosition config delegate fileName_ start end_ errorCodes st))
  = codeFixActions st /\
  runs (snd (getCodeFixesAtPosition config delegate fileName_ start end_ errorCodes st))
  = runs st /\
  (forall host result,
     delegate fileName_ start end_ errorCodes = Normal host ->
     fst (getCodeFixesAtPosition config delegate fileName_ start end_ errorCodes st)
     = Normal result ->
     exists added, result = host ++ added) /\
  (forall host,
     delegate fileName_ start end_ errorCodes = Normal host ->
     (forall m problem,
        codeFixActions st !! fileName_ = Some m -> get m start end_ = Some problem ->
        truthy (ruleId (failure problem)) = false) ->
     fst (getCodeFixesAtPosition config delegate fileName_ start end_ errorCodes st)
     = Normal host).
Proof.
  unfold getCodeFixesAtPosition.
  destruct (delegate fileName_ start end_ errorCodes) as [fixes|e].
  2:{ repeat split; intros; discriminate. }
  destruct (suppressWhileTypeErrorsPresent config && (0 <? length fixes)%nat).
  { repeat split.
    - intros host result [= <-] [= <-]. exists []. by rewrite app_nil_r.
    - by intros host [= <-]. }
  cbn [codeFixActions info].
  destruct (codeFixActions st !! fileName_) as [m|] eqn:Hreg.
  2:{ repeat split.
      - intros host result [= <-] [= <-]. exists []. by rewrite app_nil_r.
      - by intros host [= <-]. }
  destruct (get m start end_) as [problem|] eqn:Hget.
  2:{ repeat split.
      - intros host result [= <-] [= <-]. exists []. by rewrite app_nil_r.
      - by intros host [= <-]. }
  destruct (ruleId (failure problem)) as [rule|] eqn:Hrule.
  2:{ repeat split.
      - intros host result [= <-] [= <-]. exists []. by rewrite app_nil_r.
      - by intros host [= <-]. }
  destruct (truthy (Some rule)) eqn:Htr.
  2:{ repeat split.
      - intros host result [= <-] [= <-]. exists []. by rewrite app_nil_r.
      - by intros host [= <-]. }
  repeat split.
  - intros host result [= <-]. cbn.
    destruct (fixActions rule problem m fileName_) as [pushed|e]; [|discriminate].
    destruct (getDisableRuleQuickFix (failure problem) fileName_ (getSourceFile fileName_))
      as [disable|e]; [|discriminate].
    cbn. intros [= <-]. eauto.
  - intros host _ Hnone. specialize (Hnone m problem eq_refl Hget).
    rewrite Hrule, Htr in Hnone. discriminate.
Qed.

Lemma getCodeFixesAtPosition_keeps_host_fixes_witness :
  (exists added, [Samples.hostFix] = [Samples.hostFix] ++ added) /\
  fst (@getCodeFixesAtPosition Samples.host Samples.lintingConfiguration
         (fun _ _ _ _ => Normal [Samples.hostFix]) "/proj/a.ts" 0 2 [1] Samples.emptyState)
  = Normal [Samples.hostFix].
Proof.
  destruct (@getCodeFixesAtPosition_keeps_host_fixes Samples.host
              Samples.lintingConfiguration (fun _ _ _ _ => Normal [Samples.hostFix])
              "/proj/a.ts" 0 2 [1] Samples.emptyState) as (_ & _ & Hbegins & Honly).
  split.
  - apply (Hbegins [Samples.hostFix] [Samples.hostFix]); reflexivity.
  - apply Honly; [reflexivity|].
    intros m problem Hm. cbn in Hm. rewrite lookup_empty in Hm. discriminate.
Defined.

(** X15. What a code-fix request adds for a problem with a rule, registered
    at the requested span, in a file the program knows: for a problem that
    is not fixable, the action that disables the rule and nothing else; for
    a fixable problem (the fixable problems of the registry having single
    fixes), its single-fix action, then the fix-all-auto-fixable action, then
    the action that disables the rule. *)
Theorem getCodeFixesAtPosition_adds `{Host} (config : Configuration)
    (delegate : string -> Z -> Z -> list Z -> Completion (list CodeFixAction))
    (fileName_ : string) (start end_ : Z) (errorCodes : list Z) (st : PluginState)
    (host : list CodeFixAction) (problems : ProblemMap) (problem : Problem)
    (rule : string) (file : SourceFile) :
  delegate fileName_ start end_ errorCodes = Normal host ->
  suppressWhileTypeErrorsPresent config = false \/ host = [] ->
  codeFixActions st !! fileName_ = Some problems ->
  get problems start end_ = Some problem ->
  ruleId (failure problem) = Some rule -> rule <> "" ->
  getSourceFile fileName_ = Some file ->
  exists disable,
    getDisableRuleQuickFix (failure problem) fileName_ (Some file) = Normal disable /\
    fixName disable = "eslint:disable:" +:+ rule /\
    (fixable problem = false ->
     fst (getCodeFixesAtPosition config delegate fileName_ start end_ errorCodes st)
     = Normal (host ++ [disable])) /\
    (fixable problem = true ->
     Forall (fun p => fixable p = true -> hasSingleFix p) (values problems) ->
     exists single auto_,
       fst (getCodeFixesAtPosition config delegate fileName_ start end_ errorCodes st)
       = Normal (host ++ [single; auto_; disable]) /\
       fixName single = "eslint:" +:+ rule /\
       changes single = [changeOf fileName_ problem] /\
       getFixAllAutoFixableQuickFix problems fileName_ = Normal auto_).
Proof.
  intros Hd Hsup Hreg Hget Hrule Hne Hfile.
  assert (exists disable,
            getDisableRuleQuickFix (failure problem) fileName_ (Some file) = Normal disable /\
            fixName disable = "eslint:disable:" +:+ rule) as (disable & Hdis & Hname).
  { unfold getDisableRuleQuickFix. eexists. split; [reflexivity|]. cbn. by rewrite Hrule. }
  exists disable. split; [exact Hdis|]. split; [exact Hname|].
  assert (suppressWhileTypeErrorsPresent config && (0 <? length host)%nat = false) as Hs.
  { destruct Hsup as [-> | ->]; [done|]. by rewrite andb_false_r. }
  assert (truthy (Some rule) = true) as Htr.
  { cbn. by destruct (String.eqb_spec rule ""). }
  split.
  - intros Hnf. unfold getCodeFixesAtPosition. rewrite Hd, Hs. cbn [codeFixActions info].
    rewrite Hreg, Hget, Hrule, Htr, Hfile, Hdis. unfold fixActions. rewrite Hnf. reflexivity.
  - intros Hf Hall.
    assert (hasSingleFix problem) as [r Hr].
    { rewrite Forall_forall in Hall. apply Hall; [|done]. eapply mapGet_values, Hget. }
    destruct (getFixAllAutoFixableQuickFix_single problems fileName_ Hall)
      as (auto_ & Hauto & _).
    unfold getCodeFixesAtPosition. rewrite Hd, Hs. cbn [codeFixActions info].
    rewrite Hreg, Hget, Hrule, Htr, Hfile, Hdis. unfold fixActions. rewrite Hf, Hr.
    unfold getRuleFailureQuickFix, failureToFileTextChange. rewrite Hr.
    rewrite (getRuleFailureFixAllQuickFix_single _ _ _ Hall), Hauto. cbn.
    destruct (length (fixableOfRule rule problems) <=? 1)%nat; cbn;
      eexists _, auto_; (split; [reflexivity|]); cbn; rewrite Hrule; cbn;
      (split; [reflexivity|]); (split; [|reflexivity]);
      unfold changeOf; by rewrite Hr.
Qed.

Lemma getCodeFixesAtPosition_adds_witness :
  (exists disable,
     fst (@getCodeFixesAtPosition Samples.host Samples.lintingConfiguration
            (fun _ _ _ _ => Normal [Samples.hostFix]) "/proj/a.ts" 8 9 [1]
            (Samples.stateOf [Samples.quoteA; Samples.plain]))
     = Normal [Samples.hostFix; disable] /\
     fixName disable = "eslint:disable:no-console") /\
  (exists single auto_ disable,
     fst (@getCodeFixesAtPosition Samples.host Samples.lintingConfiguration
            (fun _ _ _ _ => Normal [Samples.hostFix]) "/proj/a.ts" 0 2 [1]
            (Samples.stateOf [Samples.quoteA; Samples.plain]))
     = Normal [Samples.hostFix; single; auto_; disable] /\
     fixName single = "eslint:quotemark").
Proof.
  split.
  - destruct (@getCodeFixesAtPosition_adds Samples.host Samples.lintingConfiguration
                (fun _ _ _ _ => Normal [Samples.hostFix]) "/proj/a.ts" 8 9 [1]
                (Samples.stateOf [Samples.quoteA; Samples.plain]) [Samples.hostFix]
                (default [] (codeFixActions (Samples.stateOf [Samples.quoteA; Samples.plain])
                               !! "/proj/a.ts"))
                (problemOf Samples.plain) "no-console" Samples.threeLines)
      as (disable & _ & Hname & Hplain & _);
      [reflexivity|by left|reflexivity|reflexivity|reflexivity|discriminate|reflexivity|].
    exists disable. split; [|exact Hname]. exact (Hplain eq_refl).
  - destruct (@getCodeFixesAtPosition_adds Samples.host Samples.lintingConfiguration
                (fun _ _ _ _ => Normal [Samples.hostFix]) "/proj/a.ts" 0 2 [1]
                (Samples.stateOf [Samples.quoteA; Samples.plain]) [Samples.hostFix]
                (default [] (codeFixActions (Samples.stateOf [Samples.quoteA; Samples.plain])
                               !! "/proj/a.ts"))
                (problemOf Samples.quoteA) "quotemark" Samples.threeLines)
      as (disable & _ & _ & _ & Hfixable);
      [reflexivity|by left|reflexivity|reflexivity|reflexivity|discriminate|reflexivity|].
    destruct (Hfixable eq_refl) as (single & auto_ & Hres & Hname & _).
    { repeat constructor.
      - intros _. eexists. reflexivity.
      - discriminate. }
    exists single, auto_, disable. split; [exact Hres|exact Hname].
Defined.

(** X16. A fix given as an array breaks the code-fix request: when the
    problem registered at the requested span has a rule, is fixable and
    carries its fix as an array of replacements, the request does not
    complete; the TypeError of reading [range[0]] of the array leaves
    [getCodeFixesAtPosition], which has no guard around it. *)
Theorem getCodeFixesAtPosition_throws_on_array_fix `{Host} (config : Configuration)
    (delegate : string -> Z -> Z -> list Z -> Completion (list CodeFixAction))
    (fileName_ : string) (start end_ : Z) (errorCodes : list Z) (st : PluginState)
    (host : list CodeFixAction) (problems : ProblemMap) (problem : Problem)
    (rule : string) (rs : list RuleFix) :
  delegate fileName_ start end_ errorCodes = Normal host ->
  suppressWhileTypeErrorsPresent config = false \/ host = [] ->
  codeFixActions st !! fileName_ = Some problems ->
  get problems start end_ = Some problem ->
  ruleId (failure problem) = Some rule -> rule <> "" ->
  fixable problem = true ->
  fix_ (failure problem) = Some (FixArray rs) ->
  fst (getCodeFixesAtPosition config delegate fileName_ start end_ errorCodes st)
  = Throw (typeError "0").
Proof.
  intros Hd Hsup Hreg Hget Hrule Hne Hf Hfix.
  assert (suppressWhileTypeErrorsPresent config && (0 <? length host)%nat = false) as Hs.
  { destruct Hsup as [-> | ->]; [done|]. by rewrite andb_false_r. }
  assert (truthy (Some rule) = true) as Htr.
  { cbn. by destruct (String.eqb_spec rule ""). }
  unfold getCodeFixesAtPosition. rewrite Hd, Hs. cbn [codeFixActions info].
  rewrite Hreg, Hget, Hrule, Htr, (fixActions_array _ _ _ _ rs Hf Hfix). reflexivity.
Qed.

Lemma getCodeFixesAtPosition_throws_on_array_fix_witness :
  fst (@getCodeFixesAtPosition Samples.host Samples.lintingConfiguration
         (fun _ _ _ _ => Normal []) "/proj/a.ts" 0 2 [1]
         (Samples.stateWith (Samples.registryOf [Samples.quoteArrayA])))
  = Throw (typeError "0").
Proof.
  apply (@getCodeFixesAtPosition_throws_on_array_fix Samples.host
           Samples.lintingConfiguration (fun _ _ _ _ => Normal []) "/proj/a.ts" 0 2 [1]
           (Samples.stateWith (Samples.registryOf [Samples.quoteArrayA])) []
           (Samples.registryOf [Samples.quoteArrayA])
           {| failure := Samples.quoteArrayA; fixable := true |} "quotemark"
           [Samples.replacement 0 2 "'a'"]);
    [reflexivity|by left|reflexivity|reflexivity|reflexivity|discriminate
    |reflexivity|reflexivity].
Defined.

(** X17. On a well-formed registry the fix-all-auto-fixable action is always
    built, whether the fixes are single replacements or arrays: it holds one
    change for the file, whose edits are the replacements that
    [getNonOverlappingReplacements] retains of the fixable problems, each
    with its text, start and length. *)
Theorem getFixAllAutoFixableQuickFix_total (problems : ProblemMap)
    (fileName_ : string) :
  registryOk problems ->
  exists replacements,
    getNonOverlappingReplacements
      (failure <$> filter (fun x => fixable x = true) (values problems))
    = Normal replacements /\
    getFixAllAutoFixableQuickFix problems fileName_
    = Normal {| description := "Fix all auto-fixable eslint failures";
                fixName := "eslint:fix-all";
                changes := [{| changesFileName := fileName_;
                               textChanges :=
                                 convertReplacementToTextChange <$> replacements |}];
                fixId := None; fixAllDescription := None |} /\
    Forall2 (fun r c => newText c = text r /\ changeStart c = Some (fst (range r)) /\
                        fst (range r) + changeLength c = snd (range r))
            replacements (convertReplacementToTextChange <$> replacements).
Proof.
  intros Hok. pose proof (registryOk_replacements _ Hok) as Hrep.
  eexists. split; [by apply resolver_returns|].
  split.
  - unfold getFixAllAutoFixableQuickFix. by rewrite (resolver_returns _ Hrep).
  - apply Forall2_fmap_r, Forall_Forall2_diag, Forall_forall. intros r _. cbn.
    repeat split. lia.
Qed.

Lemma getFixAllAutoFixableQuickFix_total_witness :
  exists replacements,
    getNonOverlappingReplacements [Samples.quoteArrayA; Samples.quoteArrayB]
    = Normal replacements /\
    getFixAllAutoFixableQuickFix
      (Samples.registryOf [Samples.quoteArrayA; Samples.quoteArrayB]) "/proj/a.ts"
    = Normal {| description := "Fix all auto-fixable eslint failures";
                fixName := "eslint:fix-all";
                changes := [{| changesFileName := "/proj/a.ts";
                               textChanges :=
                                 convertReplacementToTextChange <$> replacements |}];
                fixId := None; fixAllDescription := None |}.
Proof.
  destruct (getFixAllAutoFixableQuickFix_total
              (Samples.registryOf [Samples.quoteArrayA; Samples.quoteArrayB]) "/proj/a.ts")
    as (replacements & Hres & Haction & _).
  - split.
    + apply (NoDup_cons_2 "[0,2]" ["[3,7]"]); [|apply NoDup_singleton].
      intros Hin. apply list_elem_of_singleton in Hin. discriminate.
    + repeat constructor.
  - exists replacements. split; [exact Hres|exact Haction].
Defined.

(** X18. The action that disables a rule, for a finding on a line of the
    line table: one edit of length zero at the start of that line, whose
    text is the indentation of the line (the blanks its text begins with in
    the script snapshot, or nothing without a snapshot) followed by the
    directive and a line feed.  For a finding without a line, on line 0 or
    beyond the table, the edit is built all the same and has no start. *)
Theorem getDisableRuleQuickFix_edit `{Host} (failure_ : LintMessage) (fileName_ : string)
    (file : SourceFile) :
  exists indent,
    allBlank indent = true /\
    (forall getText l,
       getScriptSnapshot fileName_ = Some getText -> line failure_ = Some l ->
       (1 <= l <= lineCount file)%nat ->
       exists rest,
         getText (Some (lineStartOf file l))
                 (if (l <? lineCount file)%nat then lineStartOf file (S l) else fileEnd file)
         = indent +:+ rest /\ startsUnindented rest = true) /\
    (getScriptSnapshot fileName_ = None -> indent = "") /\
    getDisableRuleQuickFix failure_ fileName_ (Some file)
    = Normal {| description := "Disable rule '" +:+ orNull (ruleId failure_) +:+ "'";
                fixName := "eslint:disable:" +:+ orNull (ruleId failure_);
                changes :=
                  [{| changesFileName := fileName_;
                      textChanges :=
                        [{| newText := indent +:+ "// eslint-disable-next-line "
                                       +:+ orNull (ruleId failure_)
                                       +:+ String "010"%char EmptyString;
                            changeStart :=
                              match line failure_ with
                              | Some l => if (1 <=? l)%nat && (l <=? lineCount file)%nat
                                          then Some (lineStartOf file l) else None
                              | None => None
                              end;
                            changeLength := 0 |}] |}];
                fixId := None; fixAllDescription := None |}.
Proof.
  unfold getDisableRuleQuickFix.
  set (lineStart := match line failure_ with Some (S line0) => _ | _ => None end).
  assert (lineStart = match line failure_ with
                      | Some l => if (1 <=? l)%nat && (l <=? lineCount file)%nat
                                  then Some (lineStartOf file l) else None
                      | None => None
                      end) as Hstart.
  { subst lineStart. destruct (line failure_) as [[|l0]|]; [reflexivity| |reflexivity].
    change (1 <=? S l0)%nat with true. cbn [andb].
    destruct (Nat.leb_spec (S l0) (lineCount file)) as [Hin|Hout].
    - replace l0 with (S l0 - 1)%nat at 1 by lia.
      apply positionResolver_reads_in_range. lia.
    - apply lookup_ge_None. unfold lineCount in Hout. lia. }
  destruct (getScriptSnapshot fileName_) as [getText|] eqn:Hsnap.
  - match goal with |- context [leadingSpace ?t] => set (lineText := t) end.
    destruct (leadingSpace_split lineText) as (rest & Hsplit & Hblank & Hrest).
    exists (leadingSpace lineText). split; [exact Hblank|]. split; [|split].
    + intros g l [= <-] Hl Hrange. exists rest. split; [|exact Hrest].
      rewrite <- Hsplit. subst lineText. rewrite Hstart, Hl.
      destruct l as [|l0]; [lia|].
      assert ((1 <=? S l0)%nat && (S l0 <=? lineCount file)%nat = true) as ->.
      { apply andb_true_intro. split; apply Nat.leb_le; lia. }
      unfold lineCount, lineStartOf. cbn [Nat.sub]. by rewrite Nat.sub_0_r.
    + discriminate.
    + by rewrite Hstart.
  - exists EmptyString. split; [reflexivity|]. split; [|split].
    + intros g l [=].
    + reflexivity.
    + by rewrite Hstart.
Qed.

Lemma getDisableRuleQuickFix_edit_witness :
  (exists indent rest,
     allBlank indent = true /\
     Samples.textBetween Samples.indentedText (Some 2) 5 = indent +:+ rest /\
     startsUnindented rest = true) /\
  (exists action,
     @getDisableRuleQuickFix Samples.host Samples.plain "/proj/a.ts" (Some Samples.threeLines)
     = Normal action /\
     (newText <$> (changes action ≫= textChanges))
     = ["// eslint-disable-next-line no-console" +:+ Samples.newline]).
Proof.
  split.
  - destruct (@getDisableRuleQuickFix_edit Samples.snapshotHost
                (Samples.finding "semi" (2%nat, 3) None None) "/proj/i.ts" Samples.indented)
      as (indent & Hblank & Hsnapshot & _ & _).
    destruct (Hsnapshot (Samples.textBetween Samples.indentedText) 2%nat eq_refl eq_refl)
      as (rest & Htext & Hrest).
    { vm_compute. lia. }
    exists indent, rest. split; [exact Hblank|]. split; [exact Htext|exact Hrest].
  - destruct (@getDisableRuleQuickFix_edit Samples.host Samples.plain "/proj/a.ts"
                Samples.threeLines) as (indent & _ & _ & Hnone & Haction).
    rewrite (Hnone eq_refl) in Haction.
    eexists. split; [exact Haction|reflexivity].
Defined.

(** ** The runner: what [doRun] asks of the analyzer and what it passes on *)

Section RunMore.
Context `{Node}.

Lemma lintWithCapturedWarnings_congr filePath library library' configuration options
    warnings_ p :
  optFix options = false -> filename options = filePath ->
  (forall options' p' original,
     optFix options' = false -> filename options' = filePath ->
     consoleWarn p' = CaptureWarnings original ->
     newCLIEngine library options' p' = newCLIEngine library' options' p') ->
  (forall options' p',
     optFix options' = false -> filename options' = filePath ->
     executeOnFiles library options' [filePath] p'
     = executeOnFiles library' options' [filePath] p') ->
  lintWithCapturedWarnings filePath library configuration options warnings_ p
  = lintWithCapturedWarnings filePath library' configuration options warnings_ p.
Proof.
  intros Hfix Hname Hnew Hexec. unfold lintWithCapturedWarnings.
  rewrite (Hnew options (setConsoleWarn (CaptureWarnings (consoleWarn p)) p)
             (consoleWarn p) Hfix Hname eq_refl).
  destruct (outcome (newCLIEngine library' options _)); [|reflexivity].
  by rewrite (Hexec options _ Hfix Hname).
Qed.

Lemma lintUnlessJs_congr filePath library library' configuration warnings_ p :
  (forall options' p' original,
     optFix options' = false -> filename options' = filePath ->
     consoleWarn p' = CaptureWarnings original ->
     newCLIEngine library options' p' = newCLIEngine library' options' p') ->
  (forall options' p',
     optFix options' = false -> filename options' = filePath ->
     executeOnFiles library options' [filePath] p'
     = executeOnFiles library' options' [filePath] p') ->
  lintUnlessJs filePath library configuration warnings_ p
  = lintUnlessJs filePath library' configuration warnings_ p.
Proof.
  intros Hnew Hexec. unfold lintUnlessJs.
  destruct (isJsDocument filePath && negb (jsEnable configuration)); [reflexivity|].
  by apply lintWithCapturedWarnings_congr.
Qed.

Lemma lintUnlessJs_result filePath library configuration warnings_ p result p' :
  lintUnlessJs filePath library configuration warnings_ p = (Normal result, p') ->
  configFilePath result = None /\
  (result = emptyResult \/
   (exists emitted_, warnings result = warnings_ ++ emitted_) /\
   resultWorkspaceFolderPath result = workspaceFolderPath configuration /\
   linted p' = linted p ++ [filePath]).
Proof.
  unfold lintUnlessJs.
  destruct (isJsDocument filePath && negb (jsEnable configuration)).
  { intros [= <- <-]. split; [reflexivity|by left]. }
  unfold lintWithCapturedWarnings.
  destruct (outcome (newCLIEngine library _ _)); [|discriminate].
  destruct (outcome (executeOnFiles library _ _ _)); [|discriminate].
  intros [= <- <-]. cbn. split; [reflexivity|]. right.
  split; [|split; reflexivity]. rewrite <- app_assoc. eauto.
Qed.

Lemma lintUnlessJs_linted filePath library configuration warnings_ p :
  linted (snd (lintUnlessJs filePath library configuration warnings_ p)) = linted p \/
  linted (snd (lintUnlessJs filePath library configuration warnings_ p))
  = linted p ++ [filePath].
Proof.
  unfold lintUnlessJs.
  destruct (isJsDocument filePath && negb (jsEnable configuration)); [by left|].
  unfold lintWithCapturedWarnings.
  destruct (outcome (newCLIEngine library _ _)); [|by left].
  destruct (outcome (executeOnFiles library _ _ _)); by right.
Qed.

Lemma lintUnlessJs_report filePath library configuration warnings_ p result p' :
  lintUnlessJs filePath library configuration warnings_ p = (Normal result, p') ->
  result = emptyResult \/
  let captured := setConsoleWarn (CaptureWarnings (consoleWarn p)) p in
  let made := newCLIEngine library (lintOptions filePath configuration) captured in
  let ran :=
    executeOnFiles library (lintOptions filePath configuration) [filePath]
      (noteLinted [filePath]
         (traceMethod "doRun" ("Linting: start linting " +:+ filePath)
            (afterCall made captured))) in
  warnings result = warnings_ ++ emitted made ++ emitted ran /\
  outcome ran = Normal (lintResult result) /\
  resultWorkspaceFolderPath result = workspaceFolderPath configuration /\
  linted p' = linted p ++ [filePath].
Proof.
  unfold lintUnlessJs.
  destruct (isJsDocument filePath && negb (jsEnable configuration)).
  { intros [= <- <-]. by left. }
  fold (lintOptions filePath configuration).
  unfold lintWithCapturedWarnings. cbv zeta.
  destruct (outcome (newCLIEngine library _ _)); [|discriminate].
  destruct (outcome (executeOnFiles library _ _ _)) as [report|]; [|discriminate].
  intros [= <- <-]. right. cbn.
  split; [by rewrite <- app_assoc|]. split; [reflexivity|]. split; reflexivity.
Qed.

Lemma doRun_names_no_configuration filePath contents library configuration warnings_ p
    result p' :
  doRun filePath contents library configuration warnings_ p = (Normal result, p') ->
  configFilePath result = None.
Proof.
  unfold doRun.
  destruct (fileIsExcluded configuration filePath (runDirectory configuration contents)).
  { by intros [= <- <-]. }
  destruct (runDirectory configuration contents) as [dir|];
    [|intros E; exact (proj1 (lintUnlessJs_result _ _ _ _ _ _ _ E))].
  destruct (truthy (Some dir));
    [|intros E; exact (proj1 (lintUnlessJs_result _ _ _ _ _ _ _ E))].
  destruct (chdir dir _) as [[[]|e] p1]; [|discriminate].
  destruct (lintUnlessJs filePath library configuration warnings_ p1) as [c p2] eqn:E.
  destruct (chdir _ p2) as [[[]|e] p3]; [|discriminate].
  intros [= -> <-]. exact (proj1 (lintUnlessJs_result _ _ _ _ _ _ _ E)).
Qed.

End RunMore.

(** X19. [doRun] never asks the analyzer to apply fixes and never hands it
    another file: two analyzer libraries that agree whenever the engine is
    made with [fix: false] for the file, under the capturing [console.warn],
    and whenever that file alone is linted, give the same [doRun]. *)
Theorem doRun_asks_without_fix `{Node} (filePath : string) (contents : Contents)
    (library library' : Library) (configuration : RunConfiguration)
    (warnings_ : list string) (p : Process) :
  (forall options p' original,
     optFix options = false -> filename options = filePath ->
     consoleWarn p' = CaptureWarnings original ->
     newCLIEngine library options p' = newCLIEngine library' options p') ->
  (forall options p',
     optFix options = false -> filename options = filePath ->
     executeOnFiles library options [filePath] p'
     = executeOnFiles library' options [filePath] p') ->
  doRun filePath contents library configuration warnings_ p
  = doRun filePath contents library' configuration warnings_ p.
Proof.
  intros Hnew Hexec. unfold doRun.
  destruct (fileIsExcluded configuration filePath (runDirectory configuration contents));
    [reflexivity|].
  destruct (runDirectory configuration contents) as [dir|];
    [|by apply lintUnlessJs_congr].
  destruct (truthy (Some dir)); [|by apply lintUnlessJs_congr].
  destruct (chdir dir _) as [[[]|e] p1]; [|reflexivity].
  by rewrite (lintUnlessJs_congr filePath library library' configuration warnings_ p1).
Qed.

Lemma doRun_asks_without_fix_witness :
  @doRun Samples.node "/proj/a.ts" (Text "") Samples.library Samples.runConfiguration []
    Samples.process
  = @doRun Samples.node "/proj/a.ts" (Text "") Samples.eagerLibrary
      Samples.runConfiguration [] Samples.process.
Proof.
  apply (@doRun_asks_without_fix Samples.node "/proj/a.ts" (Text "") Samples.library
           Samples.eagerLibrary Samples.runConfiguration [] Samples.process).
  - reflexivity.
  - intros options p' Hfix _. cbn. rewrite Hfix. reflexivity.
Defined.

(** X20. [doRun] does not guard the analyzer: when the file is to be linted
    and the directories are there, a throw of the call that makes the
    engine, or else of the call that lints the file, is the throw of
    [doRun]. *)
Theorem doRun_rethrows `{Node} (filePath : string) (contents : Contents)
    (library : Library) (configuration : RunConfiguration) (warnings_ : list string)
    (p : Process) (e : Thrown) :
  fileIsExcluded configuration filePath (runDirectory configuration contents) = false ->
  isJsDocument filePath && negb (jsEnable configuration) = false ->
  (forall dir, runDirectory configuration contents = Some dir -> dir <> "" ->
               dirExists dir = true /\ dirExists (cwd p) = true) ->
  outcome (engineMade filePath contents library configuration p) = Throw e \/
  outcome (engineMade filePath contents library configuration p) = Normal () /\
  outcome (filesLinted filePath contents library configuration p) = Throw e ->
  fst (doRun filePath contents library configuration warnings_ p) = Throw e.
Proof.
  intros Hex Hjs Hdirs Hthrows.
  assert (fst (lintUnlessJs filePath library configuration warnings_
                 (entered filePath contents configuration p)) = Throw e) as Hlint.
  { unfold lintUnlessJs. rewrite Hjs.
    fold (lintOptions filePath configuration).
    unfold lintWithCapturedWarnings. cbv zeta.
    unfold filesLinted, engineMade in Hthrows. cbv zeta in Hthrows.
    destruct Hthrows as [Hnew|[Hnew Hexec]]; rewrite Hnew; [reflexivity|].
    by rewrite Hexec. }
  revert Hlint. unfold doRun, entered. rewrite Hex.
  destruct (runDirectory configuration contents) as [dir|] eqn:Hdir; [|done].
  destruct (truthy (Some dir)) eqn:Htr; [|done].
  assert (dir <> "") as Hne.
  { intros ->. discriminate. }
  destruct (Hdirs dir eq_refl Hne) as [Hdir_ Hcwd].
  set (p0 := traceMethod "doRun" ("Changed directory to " +:+ dir) _).
  destruct (chdir_process dir p0) as (_ & _ & _ & _ & Hok).
  destruct (Hok Hdir_) as [p1 ->]. cbn [snd]. intros Hlint.
  destruct (lintUnlessJs filePath library configuration warnings_ p1) as [c p3].
  cbn in Hlint. subst c.
  destruct (chdir_process (cwd p0) p3) as (_ & _ & _ & _ & Hback).
  destruct (Hback Hcwd) as [p4 ->]. reflexivity.
Qed.

Lemma doRun_rethrows_witness :
  fst (@doRun Samples.node "/proj/a.ts" (Text "") Samples.crashingLibrary
         Samples.runConfiguration [] Samples.process)
  = Throw (ErrorObject "Error" "Parsing error" "") /\
  fst (@doRun Samples.node "/proj/a.ts" (Text "") Samples.pickyLibrary
         Samples.runConfiguration [] Samples.process)
  = Throw (ErrorObject "Error" "No configuration" "").
Proof.
  split.
  - apply (@doRun_rethrows Samples.node "/proj/a.ts" (Text "") Samples.crashingLibrary
             Samples.runConfiguration [] Samples.process).
    + reflexivity.
    + reflexivity.
    + intros dir _ _. split; reflexivity.
    + right. split; reflexivity.
  - apply (@doRun_rethrows Samples.node "/proj/a.ts" (Text "") Samples.pickyLibrary
             Samples.runConfiguration [] Samples.process).
    + reflexivity.
    + reflexivity.
    + intros dir _ _. split; reflexivity.
    + left. reflexivity.
Defined.

(** X21. When the directory of the run does not exist, [doRun] throws the
    error of [process.chdir], which names the directory the process is in
    and the missing one, before anything is linted: the analyzer is not
    invoked, and the working directory and [console.warn] are untouched. *)
Theorem doRun_missing_directory `{Node} (filePath : string) (contents : Contents)
    (library : Library) (configuration : RunConfiguration) (warnings_ : list string)
    (p : Process) (dir : string) :
  fileIsExcluded configuration filePath (runDirectory configuration contents) = false ->
  runDirectory configuration contents = Some dir -> dir <> "" ->
  dirExists dir = false ->
  exists p',
    doRun filePath contents library configuration warnings_ p
    = (Throw (ErrorObject "Error"
                ("ENOENT: no such file or directory, chdir '" +:+ cwd p
                 +:+ "' -> '" +:+ dir +:+ "'") ""), p') /\
    linted p' = linted p /\ cwd p' = cwd p /\ consoleWarn p' = consoleWarn p.
Proof.
  intros Hex Hdir Hne Hmissing. unfold doRun. rewrite Hex, Hdir.
  assert (truthy (Some dir) = true) as ->.
  { cbn. by destruct (String.eqb_spec dir ""). }
  unfold chdir. rewrite Hmissing. eexists. split; [reflexivity|]. repeat split.
Qed.

Lemma doRun_missing_directory_witness :
  exists p',
    @doRun Samples.bareNode "/proj/a.ts" (Text "") Samples.library
      Samples.runConfiguration [] Samples.process
    = (Throw (ErrorObject "Error"
                "ENOENT: no such file or directory, chdir '/home' -> '/proj'" ""), p') /\
    linted p' = [] /\ cwd p' = "/home" /\ consoleWarn p' = HostWarn 0.
Proof.
  apply (@doRun_missing_directory Samples.bareNode "/proj/a.ts" (Text "") Samples.library
           Samples.runConfiguration [] Samples.process "/proj");
    [reflexivity|reflexivity|discriminate|reflexivity].
Defined.

(** X22. Every result [doRun] returns is either the empty result or the
    report that the call linting the file returned, with the workspace
    folder of the configuration and, as warnings, those [doRun] was handed,
    then those that reached [console.warn] while the engine was made, then
    those that reached it while the file was linted; the file has then been
    handed to the analyzer once.  No result of [doRun] names a
    configuration file.  A JavaScript document, with JavaScript linting off,
    gets the empty result and is never handed to the analyzer. *)
Theorem doRun_result `{Node} (filePath : string) (contents : Contents)
    (library : Library) (configuration : RunConfiguration) (warnings_ : list string)
    (p : Process) :
  (forall result p',
     doRun filePath contents library configuration warnings_ p = (Normal result, p') ->
     configFilePath result = None /\
     (result = emptyResult \/
      warnings result
      = warnings_ ++ emitted (engineMade filePath contents library configuration p)
                  ++ emitted (filesLinted filePath contents library configuration p) /\
      outcome (filesLinted filePath contents library configuration p)
      = Normal (lintResult result) /\
      resultWorkspaceFolderPath result = workspaceFolderPath configuration /\
      linted p' = linted p ++ [filePath])) /\
  (isJsDocument filePath = true -> jsEnable configuration = false ->
   linted (snd (doRun filePath contents library configuration warnings_ p)) = linted p /\
   forall result,
     fst (doRun filePath contents library configuration warnings_ p) = Normal result ->
     result = emptyResult).
Proof.
  split.
  - intros result p'.
    assert (forall p1,
              lintUnlessJs filePath library configuration warnings_
                (entered filePath contents configuration p) = (Normal result, p1) ->
              linted (entered filePath contents configuration p) = linted p ->
              configFilePath result = None /\
              (result = emptyResult \/
               warnings result
               = warnings_ ++ emitted (engineMade filePath contents library configuration p)
                           ++ emitted (filesLinted filePath contents library configuration p) /\
               outcome (filesLinted filePath contents library configuration p)
               = Normal (lintResult result) /\
               resultWorkspaceFolderPath result = workspaceFolderPath configuration /\
               linted p1 = linted p ++ [filePath])) as Hent.
    { intros p1 E Hl. split; [exact (proj1 (lintUnlessJs_result _ _ _ _ _ _ _ E))|].
      destruct (lintUnlessJs_report _ _ _ _ _ _ _ E) as [Hempty|(Hw & Hr & Hws & Hlinted)];
        [by left|right].
      unfold filesLinted, engineMade. cbv zeta.
      split; [exact Hw|]. split; [exact Hr|]. split; [exact Hws|].
      by rewrite Hlinted, Hl. }
    unfold doRun.
    destruct (fileIsExcluded configuration filePath (runDirectory configuration contents)).
    { intros [= <- <-]. split; [reflexivity|by left]. }
    revert Hent. unfold entered.
    destruct (runDirectory configuration contents) as [dir|];
      [|intros Hent E; exact (Hent _ E eq_refl)].
    destruct (truthy (Some dir)); [|intros Hent E; exact (Hent _ E eq_refl)].
    destruct (chdir_process dir (traceMethod "doRun" ("Changed directory to " +:+ dir)
                (traceMethod "doRun" ("starting validation for " +:+ filePath) p)))
      as (_ & Hl1 & _).
    destruct (chdir dir _) as [[[]|e] p1]; [|discriminate]. cbn in Hl1. cbn [snd].
    intros Hent.
    destruct (lintUnlessJs filePath library configuration warnings_ p1) as [c p2] eqn:E.
    destruct (chdir_process (cwd (traceMethod "doRun" ("Changed directory to " +:+ dir)
                (traceMethod "doRun" ("starting validation for " +:+ filePath) p))) p2)
      as (_ & Hl2 & _).
    destruct (chdir _ p2) as [[[]|e] p3]; [|discriminate]. cbn in Hl2.
    intros [= -> <-].
    destruct (Hent p2 eq_refl Hl1) as [Hcfg [Hempty|(Hw & Hr & Hws & Hl)]].
    + split; [exact Hcfg|by left].
    + split; [exact Hcfg|]. right. split; [exact Hw|]. split; [exact Hr|].
      split; [exact Hws|]. by rewrite Hl2.
  - intros Hjs Hoff.
    assert (forall p0, lintUnlessJs filePath library configuration warnings_ p0
                       = (Normal emptyResult,
                          traceMethod "doRun"
                            "No linting: a JS document, but js linting is disabled" p0))
      as Hskip.
    { intros p0. unfold lintUnlessJs. by rewrite Hjs, Hoff. }
    unfold doRun.
    destruct (fileIsExcluded configuration filePath (runDirectory configuration contents)).
    { split; [reflexivity|]. by intros result [= <-]. }
    destruct (runDirectory configuration contents) as [dir|].
    2:{ rewrite Hskip. split; [reflexivity|]. by intros result [= <-]. }
    destruct (truthy (Some dir)).
    2:{ rewrite Hskip. split; [reflexivity|]. by intros result [= <-]. }
    set (p0 := traceMethod "doRun" ("Changed directory to " +:+ dir) _).
    destruct (chdir_process dir p0) as (_ & Hl1 & _ & Hthrow1 & _).
    destruct (chdir dir p0) as [[[]|e] p1] eqn:E1; cbn in Hl1.
    2:{ rewrite (Hthrow1 e p1 eq_refl). split; [reflexivity|]. intros result [=]. }
    rewrite Hskip.
    set (p2 := traceMethod "doRun" _ p1).
    destruct (chdir_process (cwd p0) p2) as (_ & Hl2 & _ & _ & _).
    destruct (chdir (cwd p0) p2) as [[[]|e] p3]; cbn in Hl2 |- *.
    + split; [by rewrite Hl2, Hl1|]. by intros result [= <-].
    + split; [by rewrite Hl2, Hl1|]. intros result [=].
Qed.

Lemma doRun_result_witness :
  (exists result p',
     @doRun Samples.node "/proj/a.ts" (Text "") Samples.library Samples.runConfiguration
       ["before"] Samples.process = (Normal result, p') /\
     configFilePath result = None /\
     warnings result = ["before"; "deprecated rule"] /\
     linted p' = ["/proj/a.ts"]) /\
  linted (snd (@doRun Samples.node "/proj/a.js" (Text "") Samples.library
                 Samples.runConfiguration [] Samples.process)) = [].
Proof.
  split.
  - destruct (@doRun Samples.node "/proj/a.ts" (Text "") Samples.library
                Samples.runConfiguration ["before"] Samples.process)
      as [[result|e] p'] eqn:E; [|vm_compute in E; discriminate].
    exists result, p'. split; [reflexivity|].
    destruct (proj1 (@doRun_result Samples.node "/proj/a.ts" (Text "") Samples.library
                       Samples.runConfiguration ["before"] Samples.process) result p' E)
      as [Hcfg [Hempty|(Hw & _ & _ & Hl)]].
    + subst result. vm_compute in E. discriminate.
    + split; [exact Hcfg|]. split; [exact Hw|exact Hl].
  - destruct (proj2 (@doRun_result Samples.node "/proj/a.js" (Text "") Samples.library
                       Samples.runConfiguration [] Samples.process) eq_refl eq_refl)
      as [Hlinted _].
    exact Hlinted.
Defined.

(** ** Loading the analyzer: [runEsLint], [loadLibrary], [resolveEsLint] *)

Section Loading.
Context `{Node} `{MruCache} `{Loader}.

Lemma lowerAscii_idem c : lowerAscii (lowerAscii c) = lowerAscii c.
Proof. destruct c as [[] [] [] [] [] [] [] []]; reflexivity. Qed.

Lemma toLowerCase_idem s : toLowerCase (toLowerCase s) = toLowerCase s.
Proof. induction s as [|c s IH]; cbn; [reflexivity|]. by rewrite lowerAscii_idem, IH. Qed.

Lemma truthy_Some s : s <> "" -> truthy (Some s) = true.
Proof. intros Hs. cbn. by destruct (String.eqb_spec s ""). Qed.

Lemma samePackageManager_refl m : samePackageManager m m = true.
Proof. by destruct m. Qed.

Lemma getGlobalPackageManagerPath_known manager st v :
  globalPackageManagerPath st (default npm manager) = Some v ->
  exists st',
    getGlobalPackageManagerPath manager st = (Normal v, st') /\
    env st' = env st /\
    document2LibraryCache st' = document2LibraryCache st /\
    eslintPath2Library st' = eslintPath2Library st /\
    required st' = required st /\
    globalLookups st' = globalLookups st /\
    globalPackageManagerPath st' = globalPackageManagerPath st.
Proof.
  intros Hv. unfold getGlobalPackageManagerPath. cbn. rewrite Hv. cbn. rewrite ?Hv.
  eexists. split; [reflexivity|]. by repeat split.
Qed.

(** What a call of [getGlobalPackageManagerPath] leaves behind does not
    depend on the trace. *)
Lemma getGlobalPackageManagerPath_outcome manager st c st' :
  getGlobalPackageManagerPath manager st = (c, st') ->
  env st' = env st /\
  document2LibraryCache st' = document2LibraryCache st /\
  eslintPath2Library st' = eslintPath2Library st /\
  required st' = required st /\
  match c with
  | Normal v =>
      globalPackageManagerPath st' (default npm manager) = Some v /\
      (globalPackageManagerPath st (default npm manager) = Some v \/
       globalPackageManagerPath st (default npm manager) = None)
  | Throw e =>
      manager = Some pnpm /\ pnpmRoot = Throw e /\
      globalPackageManagerPath st' = globalPackageManagerPath st /\
      globalLookups st' = globalLookups st ++ [pnpm]
  end.
Proof.
  unfold getGlobalPackageManagerPath. cbn.
  destruct (globalPackageManagerPath st (default npm manager)) as [v|] eqn:Hv.
  { cbn. rewrite ?Hv. intros [= <- <-]. cbn. repeat split; auto. }
  destruct manager as [[]|]; cbn.
  - intros [= <- <-]. cbn. repeat split; auto.
  - destruct pnpmRoot as [path|e]; cbn.
    + intros [= <- <-]. cbn. repeat split; auto.
    + intros [= <- <-]. cbn. repeat split; auto.
  - intros [= <- <-]. cbn. repeat split; auto.
  - intros [= <- <-]. cbn. repeat split; auto.
Qed.

Lemma getGlobalPackageManagerPath_withProc manager p st :
  fst (getGlobalPackageManagerPath manager (withProc p st))
  = fst (getGlobalPackageManagerPath manager st).
Proof.
  unfold getGlobalPackageManagerPath. cbn.
  destruct (globalPackageManagerPath st (default npm manager)) as [v|] eqn:Hv.
  { cbn. by rewrite ?Hv. }
  destruct manager as [[]|]; cbn; try reflexivity.
  destruct pnpmRoot; reflexivity.
Qed.

Lemma resolveEsLint_outcome nodePath cwd_ st :
  exists p,
    resolveEsLint nodePath cwd_ st
    = (resolveOutput cwd_ (resolveEnv nodePath (env st)), withProc p st).
Proof.
  unfold resolveEsLint. destruct (truthy nodePath).
  - eexists. reflexivity.
  - exists (proc st). by destruct st.
Qed.

Lemma resolveOrFallBack_local nodePath cwd_ manager directory st path :
  resolveOutput cwd_ (resolveEnv nodePath (env st)) = Normal path -> path <> "" ->
  exists p,
    resolveOrFallBack nodePath cwd_ manager directory st = (Normal path, withProc p st).
Proof.
  intros Hout Hpath. unfold resolveOrFallBack.
  destruct (resolveEsLint_outcome nodePath cwd_ st) as [p ->]. rewrite Hout.
  destruct path as [|c path]; [done|]. cbn. by exists p.
Qed.

Lemma resolveGlobally_found manager directory st g path :
  fst (getGlobalPackageManagerPath manager st) = Normal g ->
  resolveOutput directory (resolveEnv g (env st)) = Normal path ->
  exists st',
    resolveGlobally manager directory st = (Normal path, st') /\
    env st' = env st /\
    document2LibraryCache st' = document2LibraryCache st /\
    eslintPath2Library st' = eslintPath2Library st /\
    required st' = required st /\
    globalPackageManagerPath st' (default npm manager) = Some g.
Proof.
  intros Hg Hout. unfold resolveGlobally.
  destruct (getGlobalPackageManagerPath manager st) as [c st1] eqn:E. cbn in Hg. subst c.
  destruct (getGlobalPackageManagerPath_outcome _ _ _ _ E)
    as (He & Hc & Hl & Hr & Hm & _).
  destruct (resolveEsLint_outcome g directory st1) as [p ->].
  rewrite He, Hout. eexists. split; [reflexivity|]. cbn. by repeat split.
Qed.

Lemma resolveOrFallBack_global nodePath cwd_ manager directory st g path :
  (resolveOutput cwd_ (resolveEnv nodePath (env st)) = Normal "" \/
   exists e, resolveOutput cwd_ (resolveEnv nodePath (env st)) = Throw e) ->
  fst (getGlobalPackageManagerPath manager st) = Normal g ->
  resolveOutput directory (resolveEnv g (env st)) = Normal path ->
  exists st',
    resolveOrFallBack nodePath cwd_ manager directory st = (Normal path, st') /\
    document2LibraryCache st' = document2LibraryCache st /\
    eslintPath2Library st' = eslintPath2Library st /\
    required st' = required st /\
    globalPackageManagerPath st' (default npm manager) = Some g.
Proof.
  intros Hlocal Hg Hout. unfold resolveOrFallBack.
  destruct (resolveEsLint_outcome nodePath cwd_ st) as [p ->].
  assert (exists st',
            resolveGlobally manager directory (withProc p st) = (Normal path, st') /\
            document2LibraryCache st' = document2LibraryCache st /\
            eslintPath2Library st' = eslintPath2Library st /\
            required st' = required st /\
            globalPackageManagerPath st' (default npm manager) = Some g)
    as (st' & Hres & Hrest).
  { destruct (resolveGlobally_found manager directory (withProc p st) g path)
      as (st' & Hres & _ & Hc & Hl & Hr & Hm).
    - by rewrite getGlobalPackageManagerPath_withProc.
    - exact Hout.
    - exists st'. by repeat split. }
  destruct Hlocal as [->|[e ->]].
  - cbn. rewrite Hres. by exists st'.
  - rewrite Hres. by exists st'.
Qed.

(** The node path [loadLibrary] resolves with: the configured one when it
    is set and exists. *)
Lemma loadLibrary_resolution filePath configuration nodePath warningsOutput st :
  exists np warnings_ p,
    (np = None \/ np = nodePath /\ truthy nodePath = true) /\
    (warnings_ = warningsOutput \/
     exists path, nodePath = Some path /\ warnings_ = warningsOutput ++ [nodePathWarning path]) /\
    (forall path, nodePath = Some path -> path <> "" -> existsSync path = true ->
       np = nodePath /\ warnings_ = warningsOutput) /\
    (truthy nodePath = false -> np = None /\ warnings_ = warningsOutput) /\
    loadLibrary filePath configuration nodePath warningsOutput st
    = match resolveOrFallBack np (default (dirname filePath) np)
              (packageManager configuration) (dirname filePath) (withProc p st) with
      | (Throw e, st) => (Throw e, st)
      | (Normal esLintPath, st) =>
          (Normal warnings_,
           withCache (cacheSet filePath esLintPath (document2LibraryCache st))
             (traceRunner "loadLibrary" ("Resolved eslint to " +:+ esLintPath) st))
      end.
Proof.
  unfold loadLibrary. destruct nodePath as [path|].
  2:{ exists None, warningsOutput. eexists. split; [by left|]. split; [by left|].
      split; [discriminate|]. split; [done|]. reflexivity. }
  destruct (truthy (Some path)) eqn:Ht.
  2:{ exists None, warningsOutput. eexists. split; [by left|]. split; [by left|].
      split. { intros ? [= <-] Hp. by rewrite truthy_Some in Ht. }
      split; [done|]. reflexivity. }
  destruct (existsSync path) eqn:Hex.
  - exists (Some path), warningsOutput. eexists. split; [by right|]. split; [by left|].
    split; [done|]. split; [discriminate|]. rewrite Ht. reflexivity.
  - exists None, (warningsOutput ++ [nodePathWarning path]). eexists.
    split; [by left|]. split; [right; eauto|].
    split. { intros ? [= <-] _ Hp. congruence. }
    split; [discriminate|]. reflexivity.
Qed.

Lemma loadedLibrary_outcome esLintPath st library st' :
  loadedLibrary esLintPath st = (library, st') ->
  proc st' = proc st /\ document2LibraryCache st' = document2LibraryCache st /\
  eslintPath2Library st' !! esLintPath = Some library /\
  (eslintPath2Library st !! esLintPath = Some library /\ required st' = required st \/
   eslintPath2Library st !! esLintPath = None /\ required st' = required st ++ [esLintPath]).
Proof.
  unfold loadedLibrary.
  destruct (eslintPath2Library st !! esLintPath) as [known|] eqn:Hk.
  { intros [= <- <-]. repeat split; auto. }
  destruct (requireModule esLintPath); intros [= <- <-]; cbn;
    rewrite lookup_insert_eq; repeat split; auto.
Qed.

End Loading.

(** X23. [toPackageManager] reads its argument without regard to case: it
    gives a package manager exactly for a string that is, in lower case, the
    name of that package manager; so it gives the same for a string and for
    its lower-case form, and gives each package manager back from its
    name. *)
Theorem toPackageManager_by_name (manager : option string) (m : PackageManager) :
  (toPackageManager manager = Some m <->
   exists s, manager = Some s /\ toLowerCase s = packageManagerName m) /\
  (forall s, toPackageManager (Some (toLowerCase s)) = toPackageManager (Some s)) /\
  toPackageManager (Some (packageManagerName m)) = Some m.
Proof.
  split; [|split].
  - split.
    + destruct manager as [s|]; [|discriminate]. unfold toPackageManager.
      destruct (String.eqb_spec (toLowerCase s) "npm") as [E1|_].
      { intros [= <-]. eauto. }
      destruct (String.eqb_spec (toLowerCase s) "pnpm") as [E2|_].
      { intros [= <-]. eauto. }
      destruct (String.eqb_spec (toLowerCase s) "yarn") as [E3|_]; [|discriminate].
      intros [= <-]. eauto.
    + intros (s & -> & Hs). unfold toPackageManager. rewrite Hs. by destruct m.
  - intros s. unfold toPackageManager. by rewrite toLowerCase_idem.
  - by destruct m.
Qed.

Lemma toPackageManager_by_name_witness :
  toPackageManager (Some "Yarn") = Some yarn.
Proof.
  apply (proj2 (proj1 (toPackageManager_by_name (Some "Yarn") yarn))).
  exists "Yarn". split; reflexivity.
Defined.

(** X24. [getGlobalPackageManagerPath] asks the system once: after a call
    that returned, the map holds what was returned, [undefined] included,
    and the next call for the same package manager returns the same without
    asking again.  Only [pnpm root -g] can make the call throw, and then the
    map is left as it was. *)
Theorem getGlobalPackageManagerPath_cached `{Node} `{MruCache} `{Loader}
    (manager : option PackageManager) (st : RunnerState) :
  (forall v st1,
     getGlobalPackageManagerPath manager st = (Normal v, st1) ->
     globalPackageManagerPath st1 (default npm manager) = Some v /\
     exists st2,
       getGlobalPackageManagerPath manager st1 = (Normal v, st2) /\
       globalLookups st2 = globalLookups st1 /\
       globalPackageManagerPath st2 = globalPackageManagerPath st1) /\
  (forall e st1,
     getGlobalPackageManagerPath manager st = (Throw e, st1) ->
     manager = Some pnpm /\ pnpmRoot = Throw e /\
     globalPackageManagerPath st1 = globalPackageManagerPath st /\
     globalLookups st1 = globalLookups st ++ [pnpm]).
Proof.
  split.
  - intros v st1 E.
    destruct (getGlobalPackageManagerPath_outcome _ _ _ _ E) as (_ & _ & _ & _ & Hv & _).
    split; [exact Hv|].
    destruct (getGlobalPackageManagerPath_known manager st1 v Hv)
      as (st2 & E2 & _ & _ & _ & _ & Hl & Hm).
    by exists st2.
  - intros e st1 E.
    by destruct (getGlobalPackageManagerPath_outcome _ _ _ _ E) as (_ & _ & _ & _ & Hrest).
Qed.

Lemma getGlobalPackageManagerPath_cached_witness :
  (exists st2,
     @getGlobalPackageManagerPath Samples.listCache Samples.loader None
       (snd (@getGlobalPackageManagerPath Samples.listCache Samples.loader None
               Samples.runnerState))
     = (Normal (Some "/usr/lib/node_modules"), st2) /\
     globalLookups st2 = [npm]) /\
  globalPackageManagerPath
    (snd (@getGlobalPackageManagerPath Samples.listCache Samples.loader (Some pnpm)
            Samples.runnerState)) pnpm = None.
Proof.
  split.
  - destruct (proj1 (@getGlobalPackageManagerPath_cached Samples.node Samples.listCache
                       Samples.loader None Samples.runnerState)
                (Some "/usr/lib/node_modules")
                (snd (@getGlobalPackageManagerPath Samples.listCache Samples.loader None
                        Samples.runnerState)) eq_refl)
      as (_ & st2 & Hagain & Hlookups & _).
    exists st2. split; [exact Hagain|]. rewrite Hlookups. reflexivity.
  - destruct (proj2 (@getGlobalPackageManagerPath_cached Samples.node Samples.listCache
                       Samples.loader (Some pnpm) Samples.runnerState)
                (ErrorObject "Error" "Command failed: pnpm root -g" "")
                (snd (@getGlobalPackageManagerPath Samples.listCache Samples.loader
                        (Some pnpm) Samples.runnerState)) eq_refl)
      as (_ & _ & Hmap & _).
    rewrite Hmap. reflexivity.
Defined.

(** X25. The environment [resolveEsLint] gives the subprocess is the
    environment of the process with [ELECTRON_RUN_AS_NODE] set to 1 and,
    for a node path, [NODE_PATH] starting with that node path, the former
    value following after the delimiter; every other variable is handed on,
    and the environment of the process itself is not changed. *)
Theorem resolveEsLint_environment `{Node} `{MruCache} `{Loader}
    (nodePath : option string) (cwd_ : string) (st : RunnerState) :
  resolveEnv nodePath (env st) !! "ELECTRON_RUN_AS_NODE" = Some "1" /\
  (forall name, name <> "ELECTRON_RUN_AS_NODE" -> name <> "NODE_PATH" ->
     resolveEnv nodePath (env st) !! name = env st !! name) /\
  (truthy nodePath = false ->
   resolveEnv nodePath (env st) !! "NODE_PATH" = env st !! "NODE_PATH") /\
  (forall np, nodePath = Some np -> np <> "" ->
     (exists rest, resolveEnv nodePath (env st) !! "NODE_PATH" = Some (np +:+ rest)) /\
     (forall old, env st !! "NODE_PATH" = Some old -> old <> "" ->
        resolveEnv nodePath (env st) !! "NODE_PATH" = Some (np +:+ delimiter +:+ old))) /\
  fst (resolveEsLint nodePath cwd_ st) = resolveOutput cwd_ (resolveEnv nodePath (env st)) /\
  env (snd (resolveEsLint nodePath cwd_ st)) = env st.
Proof.
  split; [|split; [|split; [|split; [|split]]]].
  - unfold resolveEnv. by rewrite lookup_insert_eq.
  - intros name Hn1 Hn2. unfold resolveEnv. rewrite lookup_insert_ne by done.
    destruct nodePath as [np|]; [|reflexivity].
    destruct (truthy (Some np)); [|reflexivity].
    destruct (truthy (env st !! "NODE_PATH")); by rewrite lookup_insert_ne.
  - intros Ht. unfold resolveEnv. rewrite lookup_insert_ne by done.
    destruct nodePath as [np|]; [|reflexivity]. by rewrite Ht.
  - intros np -> Hnp. unfold resolveEnv. rewrite lookup_insert_ne by done.
    rewrite (truthy_Some np Hnp). split.
    + destruct (truthy (env st !! "NODE_PATH")); rewrite lookup_insert_eq.
      * eauto.
      * exists "". f_equal. clear. induction np as [|c np IH]; [reflexivity|].
        change (String c np +:+ "") with (String c (np +:+ "")). by rewrite <- IH.
    + intros old Hold Hne. rewrite Hold, (truthy_Some old Hne), lookup_insert_eq.
      reflexivity.
  - by destruct (resolveEsLint_outcome nodePath cwd_ st) as [p ->].
  - by destruct (resolveEsLint_outcome nodePath cwd_ st) as [p ->].
Qed.

Lemma resolveEsLint_environment_witness :
  @resolveEnv Samples.loader (Some "/opt/node") {[ "NODE_PATH" := "/lib" ]} !! "NODE_PATH"
  = Some "/opt/node:/lib" /\
  @resolveEnv Samples.loader (Some "/opt/node") {[ "PATH" := "/usr/bin" ]} !! "PATH"
  = Some "/usr/bin" /\
  @resolveEnv Samples.loader None {[ "NODE_PATH" := "/lib" ]} !! "NODE_PATH" = Some "/lib".
Proof.
  split; [|split].
  - destruct (@resolveEsLint_environment Samples.node Samples.listCache Samples.loader
                (Some "/opt/node") "/proj"
                (Samples.runnerStateWith [] {[ "NODE_PATH" := "/lib" ]}))
      as (_ & _ & _ & Hpath & _).
    destruct (Hpath "/opt/node" eq_refl) as [_ Hold]; [discriminate|].
    apply (Hold "/lib"); [reflexivity|discriminate].
  - destruct (@resolveEsLint_environment Samples.node Samples.listCache Samples.loader
                (Some "/opt/node") "/proj" Samples.runnerState)
      as (_ & Hother & _).
    etrans; [apply (Hother "PATH"); discriminate|reflexivity].
  - destruct (@resolveEsLint_environment Samples.node Samples.listCache Samples.loader
                None "/proj" (Samples.runnerStateWith [] {[ "NODE_PATH" := "/lib" ]}))
      as (_ & _ & Hunset & _).
    etrans; [apply (Hunset eq_refl)|reflexivity].
Defined.

(** X26. A configured node path that does not exist is set aside:
    [loadLibrary] then resolves as it does without a node path, and adds
    one warning, which names the path, to the warnings it was handed. *)
Theorem loadLibrary_missing_nodePath `{Node} `{MruCache} `{Loader}
    (filePath : string) (configuration : RunConfiguration) (nodePath : string)
    (warningsOutput : list string) (st : RunnerState) :
  nodePath <> "" -> existsSync nodePath = false ->
  fst (loadLibrary filePath configuration (Some nodePath) warningsOutput st)
  = (_ ← fst (loadLibrary filePath configuration None warningsOutput st);
     Normal (warningsOutput ++ [nodePathWarning nodePath])) /\
  snd (loadLibrary filePath configuration (Some nodePath) warningsOutput st)
  = snd (loadLibrary filePath configuration None warningsOutput st).
Proof.
  intros Hne Hex. unfold loadLibrary. rewrite (truthy_Some nodePath Hne), Hex.
  destruct (resolveOrFallBack None _ _ _ _) as [[path|e] st']; by split.
Qed.

Lemma loadLibrary_missing_nodePath_witness :
  fst (@loadLibrary Samples.listCache Samples.loader "/proj/a.ts" Samples.runConfiguration
         (Some "/missing") [] Samples.runnerState)
  = Normal [nodePathWarning "/missing"] /\
  snd (@loadLibrary Samples.listCache Samples.loader "/proj/a.ts" Samples.runConfiguration
         (Some "/missing") [] Samples.runnerState)
  = snd (@loadLibrary Samples.listCache Samples.loader "/proj/a.ts"
           Samples.runConfiguration None [] Samples.runnerState).
Proof.
  destruct (@loadLibrary_missing_nodePath Samples.node Samples.listCache Samples.loader
              "/proj/a.ts" Samples.runConfiguration "/missing" [] Samples.runnerState)
    as [Hwarn Hstate]; [discriminate|reflexivity|].
  split; [|exact Hstate]. rewrite Hwarn. reflexivity.
Defined.

(** X27. When the resolution in the directory of the file, or in the node
    path when one is set and exists, prints a path, [loadLibrary] stores
    that path for the file and does not look for the global path: nothing
    is asked of the package manager and nothing is loaded. *)
Theorem loadLibrary_prefers_local `{Node} `{MruCache} `{Loader}
    (filePath : string) (configuration : RunConfiguration) (nodePath : option string)
    (warningsOutput : list string) (st : RunnerState) (path : string) :
  (truthy nodePath = false \/
   exists np, nodePath = Some np /\ np <> "" /\ existsSync np = true) ->
  resolveOutput (if truthy nodePath then default "" nodePath else dirname filePath)
    (resolveEnv (if truthy nodePath then nodePath else None) (env st)) = Normal path ->
  path <> "" ->
  exists st',
    loadLibrary filePath configuration nodePath warningsOutput st
    = (Normal warningsOutput, st') /\
    document2LibraryCache st' = cacheSet filePath path (document2LibraryCache st) /\
    globalLookups st' = globalLookups st /\
    globalPackageManagerPath st' = globalPackageManagerPath st /\
    required st' = required st /\
    eslintPath2Library st' = eslintPath2Library st.
Proof.
  intros Hnp Hout Hpath.
  destruct (loadLibrary_resolution filePath configuration nodePath warningsOutput st)
    as (np & w & p & _ & _ & Hset & Hunset & ->).
  assert (np = (if truthy nodePath then nodePath else None) /\ w = warningsOutput
          /\ default (dirname filePath) np
             = (if truthy nodePath then default "" nodePath else dirname filePath))
    as (Hnp' & -> & Hdir).
  { destruct Hnp as [Ht|(s & -> & Hs & Hex)].
    - rewrite Ht. destruct (Hunset Ht) as [-> ->]. by repeat split.
    - rewrite (truthy_Some s Hs). destruct (Hset s eq_refl Hs Hex) as [-> ->].
      by repeat split. }
  rewrite Hdir, Hnp'.
  destruct (resolveOrFallBack_local (if truthy nodePath then nodePath else None)
              (if truthy nodePath then default "" nodePath else dirname filePath)
              (packageManager configuration) (dirname filePath) (withProc p st) path
              Hout Hpath) as [p' ->].
  eexists. split; [reflexivity|]. cbn. by repeat split.
Qed.

Lemma loadLibrary_prefers_local_witness :
  exists st',
    @loadLibrary Samples.listCache Samples.loader "/proj/a.ts" Samples.runConfiguration
      None [] Samples.runnerState = (Normal [], st') /\
    document2LibraryCache st' = [("/proj/a.ts", Samples.localEsLint)] /\
    globalLookups st' = [].
Proof.
  destruct (@loadLibrary_prefers_local Samples.node Samples.listCache Samples.loader
              "/proj/a.ts" Samples.runConfiguration None [] Samples.runnerState
              Samples.localEsLint)
    as (st' & Hres & Hcache & Hlookups & _);
    [by left|reflexivity|discriminate|].
  exists st'. split; [exact Hres|]. split; [exact Hcache|exact Hlookups].
Defined.

(** X28. When the resolution without a node path prints nothing or fails,
    [loadLibrary] resolves in the directory of the file with the global
    path of the package manager, and stores for the file whatever that
    prints, the empty path included; the global path is then known to the
    runner. *)
Theorem loadLibrary_falls_back `{Node} `{MruCache} `{Loader}
    (filePath : string) (configuration : RunConfiguration)
    (warningsOutput : list string) (st : RunnerState) (g : option string) (path : string) :
  (resolveOutput (dirname filePath) (resolveEnv None (env st)) = Normal "" \/
   exists e, resolveOutput (dirname filePath) (resolveEnv None (env st)) = Throw e) ->
  fst (getGlobalPackageManagerPath (packageManager configuration) st) = Normal g ->
  resolveOutput (dirname filePath) (resolveEnv g (env st)) = Normal path ->
  exists st',
    loadLibrary filePath configuration None warningsOutput st
    = (Normal warningsOutput, st') /\
    document2LibraryCache st' = cacheSet filePath path (document2LibraryCache st) /\
    globalPackageManagerPath st' (default npm (packageManager configuration)) = Some g /\
    required st' = required st.
Proof.
  intros Hlocal Hg Hout.
  destruct (loadLibrary_resolution filePath configuration None warningsOutput st)
    as (np & w & p & _ & _ & _ & Hunset & ->).
  destruct (Hunset eq_refl) as [-> ->].
  change (default (dirname filePath) None) with (dirname filePath).
  destruct (resolveOrFallBack_global None (dirname filePath)
              (packageManager configuration) (dirname filePath) (withProc p st) g path)
    as (st' & -> & Hc & Hl & Hr & Hm).
  - exact Hlocal.
  - by rewrite getGlobalPackageManagerPath_withProc.
  - exact Hout.
  - eexists. split; [reflexivity|]. cbn. rewrite Hc. by repeat split.
Qed.

Lemma loadLibrary_falls_back_witness :
  exists st',
    @loadLibrary Samples.listCache Samples.loader "/other/b.ts" Samples.runConfiguration
      None [] Samples.runnerState = (Normal [], st') /\
    document2LibraryCache st' = [("/other/b.ts", Samples.globalEsLint)] /\
    globalPackageManagerPath st' npm = Some (Some "/usr/lib/node_modules").
Proof.
  destruct (@loadLibrary_falls_back Samples.node Samples.listCache Samples.loader
              "/other/b.ts" Samples.runConfiguration [] Samples.runnerState
              (Some "/usr/lib/node_modules") Samples.globalEsLint)
    as (st' & Hres & Hcache & Hglobal & _);
    [by left|reflexivity|reflexivity|].
  exists st'. split; [exact Hres|]. split; [exact Hcache|exact Hglobal].
Defined.

(** X29. For a file whose resolved path is in the cache, when the library
    at that path failed to load before or fails to load now, [runEsLint]
    returns the empty report with one warning, the installation hint for the
    configured package manager (npm when none is configured); nothing is
    linted, the failure is remembered for the path, and [require] is called
    only if the path was not tried before. *)
Theorem runEsLint_install_failure `{Node} `{MruCache} `{Loader}
    (filePath : string) (contents : Contents) (configuration : RunConfiguration)
    (nodePath : option string) (st : RunnerState) (esLintPath : string) (c : Cache) :
  cacheHas filePath (document2LibraryCache st) = true ->
  cacheGet filePath (document2LibraryCache st) = (Some esLintPath, c) ->
  (eslintPath2Library st !! esLintPath = Some None \/
   eslintPath2Library st !! esLintPath = None /\
   exists e, requireModule esLintPath = Throw e) ->
  exists st',
    Runner.runEsLint filePath contents configuration nodePath st
    = (Normal {| lintResult := emptyLintResult;
                 warnings := [getInstallFailureMessage filePath
                                (default npm (packageManager configuration))];
                 resultWorkspaceFolderPath := None; configFilePath := None |}, st') /\
    linted (proc st') = linted (proc st) /\
    cwd (proc st') = cwd (proc st) /\
    document2LibraryCache st' = c /\
    eslintPath2Library st' !! esLintPath = Some None /\
    required st'
    = required st ++ match eslintPath2Library st !! esLintPath with
                     | Some _ => []
                     | None => [esLintPath]
                     end /\
    fst (loadedLibrary esLintPath st') = None /\
    required (snd (loadedLibrary esLintPath st')) = required st'.
Proof.
  intros Hhas Hget Hfail. unfold Runner.runEsLint. cbn. rewrite Hhas. cbn. rewrite Hhas, Hget. cbn.
  set (st0 := withCache c _).
  assert (fst (loadedLibrary esLintPath st0) = None) as Hnone.
  { unfold loadedLibrary. subst st0. cbn.
    destruct Hfail as [->|[-> [e ->]]]; reflexivity. }
  destruct (loadedLibrary esLintPath st0) as [library st'] eqn:E. cbn in Hnone. subst library.
  destruct (loadedLibrary_outcome _ _ _ _ E) as (Hp & Hc & Hl & Hr).
  exists st'. split; [reflexivity|].
  assert (fst (loadedLibrary esLintPath st') = None /\
          required (snd (loadedLibrary esLintPath st')) = required st') as [Hn' Hr'].
  { unfold loadedLibrary. by rewrite Hl. }
  rewrite Hp, Hc. subst st0. cbn in *. repeat split; auto.
  destruct Hr as [[-> ->]|[-> ->]]; [by rewrite app_nil_r|reflexivity].
Qed.

Lemma runEsLint_install_failure_witness :
  exists st',
    @Runner.runEsLint Samples.node Samples.listCache Samples.loader "/other/c.ts" (Text "")
      Samples.runConfiguration None
      (Samples.runnerStateWith [("/other/c.ts", "")] ∅)
    = (Normal {| lintResult := emptyLintResult;
                 warnings := [getInstallFailureMessage "/other/c.ts" npm];
                 resultWorkspaceFolderPath := None; configFilePath := None |}, st') /\
    required st' = [""] /\
    linted (proc st') = [].
Proof.
  destruct (@runEsLint_install_failure Samples.node Samples.listCache Samples.loader
              "/other/c.ts" (Text "") Samples.runConfiguration None
              (Samples.runnerStateWith [("/other/c.ts", "")] ∅) "" [("/other/c.ts", "")])
    as (st' & Hres & Hlinted & _ & _ & _ & Hrequired & _);
    [reflexivity|reflexivity|right; split; [reflexivity|eexists; reflexivity]|].
  exists st'. split; [exact Hres|]. split; [exact Hrequired|exact Hlinted].
Defined.

(** X30. A result of [runEsLint] never names a configuration file, and it
    is the empty result, the installation hint alone on the empty report,
    or a result of [doRun] for the same file, contents and configuration. *)
Theorem runEsLint_result `{Node} `{MruCache} `{Loader}
    (filePath : string) (contents : Contents) (configuration : RunConfiguration)
    (nodePath : option string) (st : RunnerState) (result : RunResult)
    (st' : RunnerState) :
  Runner.runEsLint filePath contents configuration nodePath st = (Normal result, st') ->
  configFilePath result = None /\
  (result = emptyResult \/
   (lintResult result = emptyLintResult /\
    warnings result = [getInstallFailureMessage filePath
                         (default npm (packageManager configuration))]) \/
   exists library warnings_ p,
     doRun filePath contents library configuration warnings_ p
     = (Normal result, proc st')).
Proof.
  unfold Runner.runEsLint.
  destruct (if cacheHas filePath _ then _ else _) as [[w|e] st1]; [|discriminate].
  destruct (negb (cacheHas filePath _)).
  { intros [= <- <-]. split; [reflexivity|by left]. }
  destruct (cacheGet filePath _) as [[esLintPath|] c]; [|discriminate].
  destruct (loadedLibrary esLintPath _) as [[library|] st2].
  - destruct (doRun filePath contents library configuration w _) as [completion p] eqn:E.
    intros [= -> <-]. split.
    + exact (doRun_names_no_configuration _ _ _ _ _ _ _ _ E).
    + right. right. eauto.
  - intros [= <- <-]. split; [reflexivity|]. right. left. by split.
Qed.

Lemma runEsLint_result_witness :
  exists result st',
    @Runner.runEsLint Samples.node Samples.listCache Samples.loader "/proj/a.ts" (Text "")
      Samples.runConfiguration None Samples.runnerState = (Normal result, st') /\
    configFilePath result = None.
Proof.
  destruct (@Runner.runEsLint Samples.node Samples.listCache Samples.loader "/proj/a.ts"
              (Text "") Samples.runConfiguration None Samples.runnerState)
    as [[result|e] st'] eqn:E; [|vm_compute in E; discriminate].
  exists result, st'. split; [reflexivity|].
  apply (@runEsLint_result Samples.node Samples.listCache Samples.loader "/proj/a.ts"
           (Text "") Samples.runConfiguration None Samples.runnerState result st' E).
Defined.
